(** * scrap-cityevent: the event scraper (scrap_cityevent/scraper.py)

    A shallow embedding of [EventScraper]: term-variant expansion, date
    extraction, per-fragment event extraction and matching, event identity
    and the page walk with its processed-events store.

    Text.  A Python [str] is a Rocq [string] whose characters are read as
    the code points 0..255 (Latin-1): this covers the French and English
    text the scraper is written for, including the accented month names of
    its patterns.  Code points above 255 are outside the model. *)

From Stdlib Require Import ZArith NArith Ascii String List Bool Lia.
From stdpp Require Import strings gmap.

(* ===================================================================== *)
(** * Python string primitives *)
(* ===================================================================== *)

Module Py.

Definition code (c : ascii) : N := N_of_ascii c.
Definition chr (n : N) : ascii := ascii_of_N n.

Definition between (lo hi : N) (c : ascii) : bool :=
  (N.leb lo (code c) && N.leb (code c) hi)%bool.

(** [str.isspace] and the regular expression class [\s] on 0..255. *)
Definition is_space (c : ascii) : bool :=
  (between 9 13 c || between 28 32 c || N.eqb (code c) 133
   || N.eqb (code c) 160)%bool.

(** The class [\d]: decimal digits; on 0..255 these are 0-9. *)
Definition is_digit (c : ascii) : bool := between 48 57 c.

(** The class [\w] of a [str] pattern: alphanumerics and underscore. *)
Definition is_word (c : ascii) : bool :=
  (is_digit c || between 65 90 c || between 97 122 c || N.eqb (code c) 95
   || N.eqb (code c) 170 || between 178 179 c || N.eqb (code c) 181
   || between 185 186 c || between 188 190 c || between 192 214 c
   || between 216 246 c || between 248 255 c)%bool.

(** [str.lower] on one character. *)
Definition lower_char (c : ascii) : ascii :=
  if (between 65 90 c
      || (between 192 222 c && negb (N.eqb (code c) 215)))%bool
  then chr (code c + 32) else c.

(** The upper-case partner of a character, where it is again in 0..255.
    Three characters have an upper case outside that range or longer than
    one character (181, 223, 255); they are left as they are, and no string
    the scraper capitalizes starts with one of them. *)
Definition upper_char (c : ascii) : ascii :=
  if (between 97 122 c
      || (between 224 254 c && negb (N.eqb (code c) 247)))%bool
  then chr (code c - 32) else c.

Fixpoint lower (s : string) : string :=
  match s with
  | EmptyString => EmptyString
  | String c s' => String (lower_char c) (lower s')
  end.

(** [str.capitalize]: first character upper-cased, the rest lower-cased. *)
Definition capitalize (s : string) : string :=
  match s with
  | EmptyString => EmptyString
  | String c s' => String (upper_char c) (lower s')
  end.

Definition len (s : string) : nat := String.length s.

Fixpoint lstrip (s : string) : string :=
  match s with
  | EmptyString => EmptyString
  | String c s' => if is_space c then lstrip s' else s
  end.

(** Right strip: a character is kept when it is not a space or when
    something non-blank follows it. *)
Fixpoint rstrip (s : string) : string :=
  match s with
  | EmptyString => EmptyString
  | String c s' =>
      match rstrip s' with
      | EmptyString => if is_space c then EmptyString else String c EmptyString
      | r => String c r
      end
  end.

Definition strip (s : string) : string := rstrip (lstrip s).

(** [s.startswith(p)]. *)
Fixpoint startswith (p s : string) : bool :=
  match p, s with
  | EmptyString, _ => true
  | String a p', String b s' => if Ascii.eqb a b then startswith p' s' else false
  | String _ _, EmptyString => false
  end.

Fixpoint drop (n : nat) (s : string) : string :=
  match n, s with
  | O, _ => s
  | S n', String _ s' => drop n' s'
  | S _, EmptyString => EmptyString
  end.

Fixpoint take (n : nat) (s : string) : string :=
  match n, s with
  | S n', String c s' => String c (take n' s')
  | _, _ => EmptyString
  end.

(** [s[lo:hi]] for indices that are not negative. *)
Definition slice (lo hi : nat) (s : string) : string := take (hi - lo) (drop lo s).

(** [s.endswith(p)]. *)
Definition endswith (p s : string) : bool :=
  (Nat.leb (len p) (len s) && String.eqb (drop (len s - len p) s) p)%bool.

(** [s[:-1]]. *)
Definition drop_last (s : string) : string := take (len s - 1) s.

(** [sub in s]: substring containment; the empty string is in every string. *)
Fixpoint contains (sub s : string) : bool :=
  if startswith sub s then true
  else match s with
       | EmptyString => false
       | String _ s' => contains sub s'
       end.

(** Offset of the first occurrence of [sub] in [s], if any. *)
Fixpoint index_of (sub s : string) : option nat :=
  if startswith sub s then Some O
  else match s with
       | EmptyString => None
       | String _ s' => option_map S (index_of sub s')
       end.

(** [s.find(sub)]: -1 when absent. *)
Definition find (sub s : string) : Z :=
  match index_of sub s with Some i => Z.of_nat i | None => (-1)%Z end.

(** [s.find(sub, lo, hi)] for indices that are not negative: the search is
    made in [s[lo:hi]] and the offset is reported in [s]. *)
Definition find_in (sub s : string) (lo hi : nat) : Z :=
  if Nat.ltb (len s) lo then (-1)%Z
  else match index_of sub (slice lo hi s) with
       | Some i => Z.of_nat (lo + i)
       | None => (-1)%Z
       end.

(** [s.replace(old, new)] for a non-empty [old]: every occurrence, left to
    right, without overlap.  [skip] counts the characters of an occurrence
    still to be passed over. *)
Fixpoint replace_from (old new : string) (skip : nat) (s : string) : string :=
  match s with
  | EmptyString => EmptyString
  | String c s' =>
      match skip with
      | S k => replace_from old new k s'
      | O =>
          if startswith old s
          then new +:+ replace_from old new (len old - 1) s'
          else String c (replace_from old new O s')
      end
  end.

Definition replace (old new s : string) : string := replace_from old new O s.

(** [s.replace(old, new, 1)]: the first occurrence only. *)
Definition replace_first (old new s : string) : string :=
  match index_of old s with
  | Some i => take i s +:+ new +:+ drop (i + len old) s
  | None => s
  end.

(** [s.split(sep)] for a one-character separator. *)
Fixpoint split (sep : ascii) (s : string) : list string :=
  match s with
  | EmptyString => [EmptyString]
  | String c s' =>
      if Ascii.eqb c sep then EmptyString :: split sep s'
      else match split sep s' with
           | h :: t => String c h :: t
           | [] => [String c EmptyString]
           end
  end.

(** [int(s)] for a string of decimal digits. *)
Definition int (s : string) : Z :=
  let fix go (acc : Z) (s : string) : Z :=
    match s with
    | EmptyString => acc
    | String c s' => go (10 * acc + Z.of_N (code c - 48))%Z s'
    end in
  go 0%Z s.

(** [s.encode('utf-8')]: one byte below 128, two bytes from 128 to 255. *)
Fixpoint encode_utf8 (s : string) : list Z :=
  match s with
  | EmptyString => []
  | String c s' =>
      let n := Z.of_N (code c) in
      if (n <? 128)%Z then n :: encode_utf8 s'
      else Z.lor 192 (Z.shiftr n 6) :: Z.lor 128 (Z.land n 63) :: encode_utf8 s'
  end.

(** [x in xs] for a list of strings. *)
Definition mem (x : string) (xs : list string) : bool :=
  existsb (String.eqb x) xs.

End Py.

(* ===================================================================== *)
(** * Regular expressions (the part of Python's [re] the scraper uses) *)
(* ===================================================================== *)

Module Re.

(** Pattern syntax.  Alternation and repetition keep Python's priorities:
    the left alternative first, repetitions greedy, with backtracking. *)
Inductive regex : Type :=
| Eps
| Chr (c : ascii)
| Cls (p : ascii -> bool)
| WordB                         (* \b *)
| Bol                           (* ^ *)
| Eol                           (* $ *)
| Seq (r1 r2 : regex)
| Alt (r1 r2 : regex)
| Star (r : regex).

Definition Opt (r : regex) : regex := Alt r Eps.
Definition Plus (r : regex) : regex := Seq r (Star r).

Fixpoint lit (s : string) : regex :=
  match s with
  | EmptyString => Eps
  | String c EmptyString => Chr c
  | String c s' => Seq (Chr c) (lit s')
  end.

Fixpoint seqs (rs : list regex) : regex :=
  match rs with
  | [] => Eps
  | [r] => r
  | r :: rs' => Seq r (seqs rs')
  end.

(** [(?:w1|w2|...)] over literal words. *)
Fixpoint words (ws : list string) : regex :=
  match ws with
  | [] => Cls (fun _ => false)
  | [w] => lit w
  | w :: ws' => Alt (lit w) (words ws')
  end.

Fixpoint power (r : regex) (n : nat) : regex :=
  match n with
  | O => Eps
  | S n' => Seq r (power r n')
  end.

Fixpoint upto (r : regex) (n : nat) : regex :=
  match n with
  | O => Eps
  | S n' => Opt (Seq r (upto r n'))
  end.

(** [r{lo,hi}], greedy. *)
Definition rep (r : regex) (lo hi : nat) : regex := Seq (power r lo) (upto r (hi - lo)).

Definition is_word_opt (c : option ascii) : bool :=
  match c with Some a => Py.is_word a | None => false end.

Definition next_char (s : string) : option ascii :=
  match s with String c _ => Some c | EmptyString => None end.

Definition chr_eq (ignorecase : bool) (a b : ascii) : bool :=
  if ignorecase then Ascii.eqb (Py.lower_char a) (Py.lower_char b)
  else Ascii.eqb a b.

Section Exec.
Context {A : Type}.
Variable ignorecase : bool.

(** Backtracking matcher in continuation style.  [prev] is the character
    before the current position (none at the start of the subject), [s]
    the rest of the subject; [k] receives the position after the match. *)
Fixpoint exec (r : regex) (prev : option ascii) (s : string)
         (k : option ascii -> string -> option A) {struct r} : option A :=
  match r with
  | Eps => k prev s
  | Chr c =>
      match s with
      | String d s' => if chr_eq ignorecase c d then k (Some d) s' else None
      | EmptyString => None
      end
  | Cls p =>
      match s with
      | String d s' => if p d then k (Some d) s' else None
      | EmptyString => None
      end
  | WordB =>
      if xorb (is_word_opt prev) (is_word_opt (next_char s)) then k prev s else None
  | Bol => match prev with None => k prev s | Some _ => None end
  | Eol =>
      match s with
      | EmptyString => k prev s
      | String c EmptyString => if Ascii.eqb c (Py.chr 10) then k prev s else None
      | _ => None
      end
  | Seq r1 r2 => exec r1 prev s (fun p' s' => exec r2 p' s' k)
  | Alt r1 r2 =>
      match exec r1 prev s k with
      | Some x => Some x
      | None => exec r2 prev s k
      end
  | Star r1 =>
      (fix star (n : nat) (prev : option ascii) (s : string) : option A :=
         match n with
         | O => k prev s
         | S n' =>
             match exec r1 prev s
                     (fun p' s' =>
                        if Nat.ltb (Py.len s') (Py.len s) then star n' p' s' else None) with
             | Some x => Some x
             | None => k prev s
             end
         end) (S (Py.len s)) prev s
  end.
End Exec.

(** A match object: [start()], [end()], [group(0)]. *)
Record re_match : Type := { m_start : nat; m_end : nat; group0 : string }.

(** The match of [r] that starts at the current position, by its length. *)
Definition match_here (ic : bool) (r : regex) (prev : option ascii) (s : string)
  : option nat :=
  exec ic r prev s (fun _ s' => Some (Py.len s - Py.len s')).

(** [re.search]: the leftmost position with a match. *)
Fixpoint search_from (ic : bool) (r : regex) (prev : option ascii) (s : string)
         (pos : nat) : option re_match :=
  match match_here ic r prev s with
  | Some n => Some {| m_start := pos; m_end := pos + n; group0 := Py.take n s |}
  | None =>
      match s with
      | EmptyString => None
      | String c s' => search_from ic r (Some c) s' (S pos)
      end
  end.

Definition search (ic : bool) (r : regex) (s : string) : option re_match :=
  search_from ic r None s O.

(** [re.match]: a match at the start of the subject only. *)
Definition match_ (ic : bool) (r : regex) (s : string) : option re_match :=
  match match_here ic r None s with
  | Some n => Some {| m_start := O; m_end := n; group0 := Py.take n s |}
  | None => None
  end.

(** Left-to-right scan for the non-overlapping matches of [r]: the result is
    the list of (text before the match, the match) and the text after the
    last match.  The patterns scanned by the scraper ([\s+], [[./-]],
    [\b\d{1,2}\b]) match at least one character; a match of length 0 is
    passed over. *)
Fixpoint scan (ic : bool) (r : regex) (prev : option ascii) (s : string)
         (skip : nat) : list (string * string) * string :=
  match s with
  | EmptyString => ([], EmptyString)
  | String c s' =>
      match skip with
      | S k => scan ic r (Some c) s' k
      | O =>
          match match_here ic r prev s with
          | Some (S n) =>
              let '(ps, tl) := scan ic r (Some c) s' n in
              ((EmptyString, Py.take (S n) s) :: ps, tl)
          | _ =>
              match scan ic r (Some c) s' O with
              | ((gap, m) :: ps, tl) => ((String c gap, m) :: ps, tl)
              | ([], tl) => ([], String c tl)
              end
          end
      end
  end.

(** [re.findall(r, s)] for a pattern without groups. *)
Definition findall (r : regex) (s : string) : list string :=
  map snd (fst (scan false r None s O)).

(** [re.split(r, s)]. *)
Definition split (r : regex) (s : string) : list string :=
  let '(ps, tl) := scan false r None s O in map fst ps ++ [tl].

(** [re.sub(r, repl, s)] for a literal replacement. *)
Definition sub (r : regex) (repl : string) (s : string) : string :=
  let '(ps, tl) := scan false r None s O in
  fold_right (fun p acc => fst p +:+ repl +:+ acc) tl ps.

Definition digit : regex := Cls Py.is_digit.
Definition space : regex := Cls Py.is_space.
Definition spaces : regex := Plus space.
Definition one_of (cs : string) : regex :=
  Cls (fun c => Py.contains (String c EmptyString) cs).

End Re.

(* ===================================================================== *)
(** * MD5 ([hashlib.md5(...).hexdigest()]) *)
(* ===================================================================== *)

Module Md5.
Local Open Scope Z_scope.

Definition mask32 : Z := 4294967295.
Definition wrap (x : Z) : Z := Z.land x mask32.
Definition add32 (x y : Z) : Z := wrap (x + y).
Definition not32 (x : Z) : Z := Z.lxor x mask32.
Definition rotl32 (x n : Z) : Z :=
  wrap (Z.lor (Z.shiftl x n) (Z.shiftr x (32 - n))).

(** floor(2^32 * |sin(i + 1)|), i = 0..63. *)
Definition K : list Z :=
  [ 3614090360; 3905402710; 606105819; 3250441966; 4118548399; 1200080426;
    2821735955; 4249261313; 1770035416; 2336552879; 4294925233; 2304563134;
    1804603682; 4254626195; 2792965006; 1236535329; 4129170786; 3225465664;
    643717713; 3921069994; 3593408605; 38016083; 3634488961; 3889429448;
    568446438; 3275163606; 4107603335; 1163531501; 2850285829; 4243563512;
    1735328473; 2368359562; 4294588738; 2272392833; 1839030562; 4259657740;
    2763975236; 1272893353; 4139469664; 3200236656; 681279174; 3936430074;
    3572445317; 76029189; 3654602809; 3873151461; 530742520; 3299628645;
    4096336452; 1126891415; 2878612391; 4237533241; 1700485571; 2399980690;
    4293915773; 2240044497; 1873313359; 4264355552; 2734768916; 1309151649;
    4149444226; 3174756917; 718787259; 3951481745 ].

(** Per-round left rotations. *)
Definition shifts : list Z :=
  [ 7; 12; 17; 22; 7; 12; 17; 22; 7; 12; 17; 22; 7; 12; 17; 22;
    5; 9; 14; 20; 5; 9; 14; 20; 5; 9; 14; 20; 5; 9; 14; 20;
    4; 11; 16; 23; 4; 11; 16; 23; 4; 11; 16; 23; 4; 11; 16; 23;
    6; 10; 15; 21; 6; 10; 15; 21; 6; 10; 15; 21; 6; 10; 15; 21 ].

Record state : Type := { sa : Z; sb : Z; sc : Z; sd : Z }.

Definition init : state :=
  {| sa := 1732584193; sb := 4023233417; sc := 2562383102; sd := 271733878 |}.

(** Little-endian 32-bit words of a block of bytes. *)
Fixpoint words_le (bs : list Z) : list Z :=
  match bs with
  | b0 :: b1 :: b2 :: b3 :: rest =>
      (b0 + Z.shiftl b1 8 + Z.shiftl b2 16 + Z.shiftl b3 24) :: words_le rest
  | _ => []
  end.

Definition round (m : list Z) (st : state) (i : nat) : state :=
  let iz := Z.of_nat i in
  let '(f, g) :=
    if iz <? 16 then
      (Z.lor (Z.land (sb st) (sc st)) (Z.land (not32 (sb st)) (sd st)), iz)
    else if iz <? 32 then
      (Z.lor (Z.land (sd st) (sb st)) (Z.land (not32 (sd st)) (sc st)),
       (5 * iz + 1) mod 16)
    else if iz <? 48 then
      (Z.lxor (sb st) (Z.lxor (sc st) (sd st)), (3 * iz + 5) mod 16)
    else
      (Z.lxor (sc st) (Z.lor (sb st) (not32 (sd st))), (7 * iz) mod 16) in
  let f' := add32 (add32 (add32 f (sa st)) (nth i K 0)) (nth (Z.to_nat g) m 0) in
  {| sa := sd st; sd := sc st; sc := sb st;
     sb := add32 (sb st) (rotl32 f' (nth i shifts 0)) |}.

Definition block (st : state) (bs : list Z) : state :=
  let r := fold_left (round (words_le bs)) (seq 0 64) st in
  {| sa := add32 (sa st) (sa r); sb := add32 (sb st) (sb r);
     sc := add32 (sc st) (sc r); sd := add32 (sd st) (sd r) |}.

Definition bytes_le (n : nat) (x : Z) : list Z :=
  map (fun i => Z.land (Z.shiftr x (8 * Z.of_nat i)) 255) (seq 0 n).

(** The message, the byte 128, zeros up to 56 modulo 64, the bit length. *)
Definition pad (msg : list Z) : list Z :=
  let n := Z.of_nat (length msg) in
  let zeros := Z.to_nat ((55 - n) mod 64) in
  msg ++ [128] ++ repeat 0 zeros ++ bytes_le 8 (8 * n).

Fixpoint blocks (n : nat) (st : state) (bs : list Z) : state :=
  match n with
  | O => st
  | S n' => blocks n' (block st (firstn 64 bs)) (skipn 64 bs)
  end.

Definition digest (msg : list Z) : list Z :=
  let p := pad msg in
  let st := blocks (length p / 64)%nat init p in
  bytes_le 4 (sa st) ++ bytes_le 4 (sb st) ++ bytes_le 4 (sc st) ++ bytes_le 4 (sd st).

Definition hex_digit (x : Z) : ascii :=
  if x <? 10 then Py.chr (Z.to_N (48 + x)) else Py.chr (Z.to_N (87 + x)).

Fixpoint hex (bs : list Z) : string :=
  match bs with
  | [] => EmptyString
  | b :: bs' => String (hex_digit (Z.shiftr b 4)) (String (hex_digit (Z.land b 15)) (hex bs'))
  end.

Definition hexdigest (msg : list Z) : string := hex (digest msg).

End Md5.

(* ===================================================================== *)
(** * Parsed HTML (the part of BeautifulSoup the scraper uses) *)
(* ===================================================================== *)

Module Bs4.

(** A parsed tree: text nodes and tags with their attributes in source
    order.  The [BeautifulSoup] object is the tag named [[document]]. *)
#[warnings="-register-all"] Inductive node : Type :=
| Text (s : string)
| Tag (name : string) (attrs : list (string * string)) (children : list node).

Definition document (children : list node) : node := Tag "[document]" [] children.

(** All nodes below [n], in document order. *)
Fixpoint descendants (n : node) : list node :=
  match n with
  | Text _ => []
  | Tag _ _ cs =>
      (fix over (l : list node) : list node :=
         match l with
         | [] => []
         | c :: l' => c :: descendants c ++ over l'
         end) cs
  end.

(** [n.get_text()], also [n.text]: the text nodes below [n], concatenated. *)
Fixpoint get_text (n : node) : string :=
  match n with
  | Text s => s
  | Tag _ _ cs =>
      (fix over (l : list node) : string :=
         match l with
         | [] => EmptyString
         | c :: l' => get_text c +:+ over l'
         end) cs
  end.

Definition tag_name (n : node) : option string :=
  match n with Tag t _ _ => Some t | Text _ => None end.

Definition attrs_of (n : node) : list (string * string) :=
  match n with Tag _ a _ => a | Text _ => [] end.

(** [n.attrs.get(k)]. *)
Fixpoint lookup_attr (k : string) (a : list (string * string)) : option string :=
  match a with
  | [] => None
  | (k', v) :: a' => if String.eqb k k' then Some v else lookup_attr k a'
  end.

Definition get_attr (k : string) (n : node) : option string := lookup_attr k (attrs_of n).

(** ['k' in n.attrs]. *)
Definition has_attr (k : string) (n : node) : bool :=
  match get_attr k n with Some _ => true | None => false end.

Definition is_named (names : list string) (n : node) : bool :=
  match tag_name n with Some t => Py.mem t names | None => false end.

(** [n.find_all(names)]. *)
Definition find_all (names : list string) (n : node) : list node :=
  List.filter (is_named names) (descendants n).

(** [n.find(name)]. *)
Definition find (name : string) (n : node) : option node := head (find_all [name] n).

(** The whitespace-separated tokens of a multi-valued attribute
    ([class], [rel]). *)
Fixpoint tokens_from (cur : string) (s : string) : list string :=
  match s with
  | EmptyString => match cur with EmptyString => [] | _ => [cur] end
  | String c s' =>
      if Py.is_space c
      then match cur with
           | EmptyString => tokens_from EmptyString s'
           | _ => cur :: tokens_from EmptyString s'
           end
      else tokens_from (cur +:+ String c EmptyString) s'
  end.

Definition tokens (s : string) : list string := tokens_from EmptyString s.

Definition has_token (k tok : string) (n : node) : bool :=
  match get_attr k n with
  | Some v => Py.mem tok (tokens v)
  | None => false
  end.

(** The CSS selectors of the scraper: [tag.class] and [.class]. *)
Inductive selector : Type :=
| TagClass (tag cls : string)
| AnyClass (cls : string).

Definition matches (sel : selector) (n : node) : bool :=
  match sel with
  | TagClass t c => (is_named [t] n && has_token "class" c n)%bool
  | AnyClass c =>
      match n with Tag _ _ _ => has_token "class" c n | Text _ => false end
  end.

(** [soup.select(sel)]. *)
Definition select (sel : selector) (n : node) : list node :=
  List.filter (matches sel) (descendants n).

End Bs4.

Import Bs4.

(* ===================================================================== *)
(** * The scraper's data *)
(* ===================================================================== *)

(** A record of the processed-events store. *)
Record ProcessedRecord : Type := {
  processed_at : string;
  notified : bool;
  notified_at : option string
}.

(** An event as [_process_event] builds it; [id] is set last. *)
Record Event : Type := {
  title : string;
  original_title : string;
  link : string;
  info : string;
  date : string;
  found_at : string;
  matching_terms : list string;
  id : option string
}.

(** The attributes of an [EventScraper] object. *)
Record EventScraper : Type := {
  url : string;
  data_file : string;
  max_pages : Z;
  exact_matching : bool;
  debug : bool;
  search_terms : list string;
  term_variants : list (string * list string);
  processed_events : gmap string ProcessedRecord
}.

Definition set_search_terms (self : EventScraper) (ts : list string) : EventScraper :=
  {| url := url self; data_file := data_file self; max_pages := max_pages self;
     exact_matching := exact_matching self; debug := debug self;
     search_terms := ts; term_variants := term_variants self;
     processed_events := processed_events self |}.

Definition set_processed_events (self : EventScraper)
           (m : gmap string ProcessedRecord) : EventScraper :=
  {| url := url self; data_file := data_file self; max_pages := max_pages self;
     exact_matching := exact_matching self; debug := debug self;
     search_terms := search_terms self; term_variants := term_variants self;
     processed_events := m |}.

Definition set_exact_matching (self : EventScraper) (b : bool) : EventScraper :=
  {| url := url self; data_file := data_file self; max_pages := max_pages self;
     exact_matching := b; debug := debug self;
     search_terms := search_terms self; term_variants := term_variants self;
     processed_events := processed_events self |}.

(** Python's [for x in xs: if ...: return ...]: the first result. *)
Fixpoint first_some {A B : Type} (f : A -> option B) (l : list A) : option B :=
  match l with
  | [] => None
  | x :: l' => match f x with Some y => Some y | None => first_some f l' end
  end.

(** Python's [a or b] on optional values. *)
Definition or_else {A : Type} (a b : option A) : option A :=
  match a with Some _ => a | None => b end.

Definition is_empty_str (s : string) : bool :=
  match s with EmptyString => true | _ => false end.

(* ===================================================================== *)
(** * [_normalize_text] *)
(* ===================================================================== *)

(** [unicodedata.normalize('NFKD', c).encode('ASCII', 'ignore')] for one
    character of 0..255: the ASCII letters and digits of its compatibility
    decomposition. *)
Definition nfkd_ascii_char (c : ascii) : string :=
  let n := Py.code c in
  let one (k : N) : string := String (Py.chr k) EmptyString in
  if N.ltb n 128 then one n
  else if (N.eqb n 160 || N.eqb n 168 || N.eqb n 175 || N.eqb n 180 || N.eqb n 184)%bool
  then " "
  else if N.eqb n 170 then "a" else if N.eqb n 186 then "o"
  else if N.eqb n 178 then "2" else if N.eqb n 179 then "3"
  else if N.eqb n 185 then "1"
  else if N.eqb n 188 then "14" else if N.eqb n 189 then "12"
  else if N.eqb n 190 then "34"
  else
    (* accented letters: upper case at 192..221, lower case 32 above *)
    let up := N.ltb n 224 in
    let m := if up then n else (n - 32)%N in
    let base : option N :=
      if Py.between 192 197 (Py.chr m) then Some 65%N
      else if N.eqb m 199 then Some 67%N
      else if Py.between 200 203 (Py.chr m) then Some 69%N
      else if Py.between 204 207 (Py.chr m) then Some 73%N
      else if N.eqb m 209 then Some 78%N
      else if Py.between 210 214 (Py.chr m) then Some 79%N
      else if Py.between 217 220 (Py.chr m) then Some 85%N
      else if N.eqb m 221 then Some 89%N
      else if N.eqb n 255 then Some 89%N
      else None in
    match base with
    | Some b => if (up && negb (N.eqb n 255))%bool then one b else one (b + 32)%N
    | None => EmptyString
    end.

Fixpoint nfkd_ascii (s : string) : string :=
  match s with
  | EmptyString => EmptyString
  | String c s' => nfkd_ascii_char c +:+ nfkd_ascii s'
  end.

(** [EventScraper._normalize_text]: lower case, then diacritics removed. *)
Definition _normalize_text (text : string) : string :=
  if is_empty_str text then EmptyString
  else nfkd_ascii (Py.lower text).

(* ===================================================================== *)
(** * [_add_term_variants] and [_normalize_search_terms] *)
(* ===================================================================== *)

Definition append_new (xs : list string) (x : string) : list string :=
  if Py.mem x xs then xs else xs ++ [x].

(** [EventScraper._normalize_search_terms] on a list of terms. *)
Definition _normalize_search_terms (terms : list string) : list string :=
  fold_left
    (fun normalized_terms term =>
       let normalized_terms := normalized_terms ++ [term] in
       let normalized := _normalize_text term in
       if (negb (is_empty_str normalized)
           && negb (String.eqb normalized (Py.lower term))
           && negb (Py.mem normalized normalized_terms))%bool
       then normalized_terms ++ [normalized]
       else normalized_terms)
    terms [].

(** The inner loop shared by both branches of the per-term expansion: the
    lower-cased terms are listed once, before the variants of the key are
    added. *)
Definition add_variants_ci (search_terms : list string) (variants : list string)
  : list string :=
  let normalized_terms := map Py.lower search_terms in
  fold_left
    (fun acc variant =>
       if Py.mem (Py.lower variant) normalized_terms then acc else acc ++ [variant])
    variants search_terms.

(** A variant that is not blank. *)
Definition nonblank (v : string) : bool := negb (is_empty_str (Py.strip v)).

(** The branch taken when there are variants and no search term: every
    non-blank variant, then every key, each unless already listed. *)
Definition add_all_variants (tv : list (string * list string)) (terms : list string)
  : list string :=
  let terms :=
    fold_left
      (fun acc kv =>
         fold_left
           (fun acc variant =>
              if (negb (is_empty_str (Py.strip variant)) && negb (Py.mem variant acc))%bool
              then acc ++ [variant] else acc)
           (snd kv) acc)
      tv terms in
  fold_left (fun acc kv => append_new acc (fst kv)) tv terms.

(** The loop body for one original term. *)
Definition add_term_variants_for (tv : list (string * list string))
           (terms : list string) (term : string) : list string :=
  let normalized_term := _normalize_text term in
  if (Nat.ltb 0 (length tv) && negb (Py.mem term (map fst tv)))%bool then
    fold_left
      (fun acc kv =>
         let key_lower := Py.lower (fst kv) in
         let term_lower := Py.lower term in
         if (Py.contains key_lower term_lower
             || Py.contains term_lower key_lower
             || existsb (fun v => Py.contains (Py.lower v) term_lower) (snd kv)
             || existsb (fun v => Py.contains term_lower (Py.lower v)) (snd kv))%bool
         then add_variants_ci acc (snd kv) else acc)
      tv terms
  else
    fold_left
      (fun acc kv =>
         let key := fst kv in
         let key_normalized := _normalize_text key in
         if (String.eqb (Py.lower term) (Py.lower key)
             || String.eqb normalized_term key_normalized
             || Py.contains (Py.lower term) (Py.lower key)
             || Py.contains (Py.lower key) (Py.lower term))%bool
         then add_variants_ci acc (snd kv) else acc)
      tv terms.

(** [EventScraper._add_term_variants]. *)
Definition _add_term_variants (self : EventScraper) : EventScraper :=
  let original_terms := search_terms self in
  match term_variants self, original_terms with
  | _ :: _, [] =>
      set_search_terms self (add_all_variants (term_variants self) (search_terms self))
  | _, _ =>
      set_search_terms self
        (fold_left (add_term_variants_for (term_variants self))
                   original_terms (search_terms self))
  end.

(** The effective terms for base terms [base] and variant map [V], as the
    constructor computes them. *)
Definition expand (base : list string) (V : list (string * list string)) : list string :=
  search_terms
    (_add_term_variants
       {| url := EmptyString; data_file := EmptyString; max_pages := 5;
          exact_matching := true; debug := false;
          search_terms := _normalize_search_terms base; term_variants := V;
          processed_events := ∅ |}).

(* ===================================================================== *)
(** * [_generate_event_id] *)
(* ===================================================================== *)

(** [EventScraper._generate_event_id]: the MD5 hex digest of
    [title-date-link]. *)
Definition _generate_event_id (event : Event) : string :=
  let event_str := title event +:+ "-" +:+ date event +:+ "-" +:+ link event in
  Md5.hexdigest (Py.encode_utf8 event_str).

(* ===================================================================== *)
(** * [_extract_date] *)
(* ===================================================================== *)

Module Patterns.
Import Re.

Definition e_acute : string := String (Py.chr 233) EmptyString.
Definition u_circ : string := String (Py.chr 251) EmptyString.

Definition jours : list string :=
  ["lundi"; "mardi"; "mercredi"; "jeudi"; "vendredi"; "samedi"; "dimanche"].
Definition days : list string :=
  ["monday"; "tuesday"; "wednesday"; "thursday"; "friday"; "saturday"; "sunday"].
Definition mois : list string :=
  ["janvier"; "f" +:+ e_acute +:+ "vrier"; "mars"; "avril"; "mai"; "juin"; "juillet";
   "ao" +:+ u_circ +:+ "t"; "septembre"; "octobre"; "novembre"; "d" +:+ e_acute +:+ "cembre"].
Definition months : list string :=
  ["january"; "february"; "march"; "april"; "may"; "june"; "july"; "august";
   "september"; "october"; "november"; "december"].

Definition d12 : regex := rep digit 1 2.
Definition d24 : regex := rep digit 2 4.

Definition day_patterns : list regex :=
  [ seqs [WordB; words jours; spaces; d12; spaces; words mois; WordB];
    seqs [WordB; words days; spaces; d12; spaces; words months; WordB];
    seqs [WordB; words jours; spaces; d12; Chr "/"; d12; WordB] ].

Definition date_patterns : list regex :=
  [ seqs [WordB; d12; spaces; words mois; Opt (Seq spaces d24); WordB];
    seqs [WordB; d12; spaces; words months; Opt (Seq spaces d24); WordB];
    seqs [lit "du"; spaces; d12; spaces; lit "au"; spaces; d12; spaces; words mois];
    seqs [lit "le"; spaces; d12; spaces; words mois];
    seqs [WordB; words mois; spaces; d12; Opt (seqs [Opt (Chr ","); spaces; d24]); WordB];
    seqs [WordB; words months; spaces; d12; Opt (seqs [Opt (Chr ","); spaces; d24]); WordB] ].

Definition numeric_patterns : list regex :=
  [ seqs [WordB; d12; one_of "./"; d12; one_of "./"; d24; WordB];
    seqs [WordB; d12; Chr "-"; d12; Chr "-"; d24; WordB] ].

Definition month_pattern : regex := seqs [WordB; words (mois ++ months); WordB].
Definition mois_pattern : regex := seqs [WordB; words mois; WordB].
Definition jour_pattern : regex := seqs [WordB; words jours; WordB].
Definition digits_and_dots : regex :=
  seqs [Bol; Plus (Cls (fun c => (Py.is_digit c || Ascii.eqb c ".")%bool)); Eol].
Definition small_number : regex := seqs [WordB; d12; WordB].

End Patterns.

(** The validity test of a numeric candidate's first two parts. *)
Definition valid_day_month (p0 p1 : string) : bool :=
  (((1 <=? Py.int p0)%Z && (Py.int p0 <=? 31)%Z && (1 <=? Py.int p1)%Z && (Py.int p1 <=? 12)%Z)
   || ((1 <=? Py.int p1)%Z && (Py.int p1 <=? 31)%Z && (1 <=? Py.int p0)%Z && (Py.int p0 <=? 12)%Z))%bool.

(** The body of the loop over [numeric_patterns]: the candidate found by
    one pattern, returned when its parts pass the validity test. *)
Definition numeric_candidate (content : string) (pattern : Re.regex) : option string :=
  match Re.search true pattern content with
  | Some matches =>
      let date_str := Re.group0 matches in
      match Re.split (Re.one_of "./-") date_str with
      | [p0; p1; _] => if valid_day_month p0 p1 then Some date_str else None
      | [p0; p1] => if valid_day_month p0 p1 then Some date_str else None
      | _ => None
      end
  | None => None
  end.

(** The last resort: a month name and a nearby day number. *)
Definition month_with_number (content content_lower : string) : option string :=
  match Re.search true Patterns.month_pattern content_lower with
  | Some month_matches =>
      let month := Re.group0 month_matches in
      let month_idx := Py.find (Py.lower month) content_lower in
      let context_start := Z.max 0 (month_idx - 20) in
      let context_end :=
        Z.min (Z.of_nat (Py.len content)) (month_idx + Z.of_nat (Py.len month) + 20) in
      let context := Py.slice (Z.to_nat context_start) (Z.to_nat context_end) content in
      let numbers := Re.findall Patterns.small_number context in
      match
        first_some
          (fun number =>
             if ((1 <=? Py.int number)%Z && (Py.int number <=? 31)%Z)%bool then
               if (month_idx <? Py.find_in number content_lower
                                   (Z.to_nat context_start) (Z.to_nat context_end))%Z
               then Some (Py.capitalize month +:+ " " +:+ number)
               else Some (number +:+ " " +:+ Py.capitalize month)
             else None)
          numbers
      with
      | Some d => Some d
      | None => Some (Py.capitalize month)
      end
  | None => None
  end.

(** The loops over [day_patterns] and [date_patterns]: the first pattern
    found in the lower-cased content gives the date, capitalized. *)
Definition first_pattern_match (content_lower : string) (patterns : list Re.regex)
  : option string :=
  first_some
    (fun pattern =>
       match Re.search true pattern content_lower with
       | Some matches => Some (Py.capitalize (Re.group0 matches))
       | None => None
       end)
    patterns.

(** [EventScraper._extract_date]. *)
Definition _extract_date (event_content : string) : string :=
  let content := Py.strip (Py.replace "&nbsp;" " " event_content) in
  let content_lower := Py.lower content in
  match first_pattern_match content_lower Patterns.day_patterns with
  | Some d => d
  | None =>
      match first_pattern_match content_lower Patterns.date_patterns with
      | Some d => d
      | None =>
          match first_some (numeric_candidate content) Patterns.numeric_patterns with
          | Some d => d
          | None =>
              match month_with_number content content_lower with
              | Some d => d
              | None => EmptyString
              end
          end
      end
  end.

(* ===================================================================== *)
(** * [_process_event] *)
(* ===================================================================== *)

Definition dquote : string := String (Py.chr 34) EmptyString.
Definition newline : ascii := Py.chr 10.

(** The marker [class="event"] looked for in the fragment's HTML text. *)
Definition class_event_marker : string := "class=" +:+ dquote +:+ "event" +:+ dquote.

(** Lines 395-422: the element the title is read from, if one is found. *)
Definition title_elem_of (is_website_event : bool) (soup : node) : option node :=
  if is_website_event then
    let title_elem := Bs4.find "h2" soup in
    let title_elem :=
      match title_elem with None => Bs4.find "strong" soup | Some _ => title_elem end in
    match title_elem with
    | None =>
        List.find (fun elem => Nat.ltb 10 (Py.len (Py.strip (get_text elem))))
                  (find_all ["div"; "p"; "span"] soup)
    | Some _ => title_elem
    end
  else
    let title_elem := Bs4.find "h2" soup in
    let title_elem :=
      match title_elem with
      | None =>
          or_else (Bs4.find "h3" soup)
            (or_else (Bs4.find "h4" soup)
               (or_else (Bs4.find ".event-title" soup) (Bs4.find "strong" soup)))
      | Some _ => title_elem
      end in
    match title_elem with
    | None =>
        List.find (fun elem => negb (is_empty_str (Py.strip (get_text elem))))
                  (find_all ["p"; "div"; "span"] soup)
    | Some _ => title_elem
    end.

(** Lines 424-428: the title. *)
Definition title_of (is_website_event : bool) (soup : node) : string :=
  match title_elem_of is_website_event soup with
  | None => Py.take 100 (hd EmptyString (Py.split newline (Py.strip (get_text soup))))
  | Some title_elem => Py.strip (get_text title_elem)
  end.

(** Lines 434-449: the link as found in the fragment. *)
Definition raw_link_of (is_website_event : bool) (soup : node) : string :=
  if is_website_event then
    match List.filter (has_attr "href") (find_all ["a"] soup) with
    | a :: _ => match get_attr "href" a with Some h => h | None => "#" end
    | [] => "#"
    end
  else
    match
      match Bs4.find "a" soup with
      | Some link_elem => get_attr "href" link_elem
      | None => None
      end
    with
    | Some h => h
    | None =>
        match find_all ["a"] soup with
        | l0 :: _ => match get_attr "href" l0 with Some h => h | None => "#" end
        | [] => "#"
        end
    end.

(** Lines 451-456: a link that starts with [/] is put after the page URL. *)
Definition absolute_link (self : EventScraper) (link : string) : string :=
  if Py.startswith "/" link then
    let base_url := url self in
    let base_url := if Py.endswith "/" base_url then Py.drop_last base_url else base_url in
    base_url +:+ link
  else link.

(** Lines 460-473: the description. *)
Definition info_of (title full_text : string) : string :=
  let info := full_text in
  let info :=
    if Py.contains title info then Py.strip (Py.replace_first title EmptyString info)
    else info in
  let info := Py.strip (Re.sub Re.spaces " " info) in
  let info :=
    Py.replace "? " ("?" +:+ String newline EmptyString)
      (Py.replace "! " ("!" +:+ String newline EmptyString)
         (Py.replace ". " ("." +:+ String newline EmptyString) info)) in
  if Nat.ltb 2000 (Py.len info) then Py.take 2000 info +:+ "..." else info.

(** Lines 476-504: the date, re-read around a month or weekday name when
    the first reading is digits and dots only. *)
Definition date_of (event_html full_text : string) : string :=
  let date := _extract_date event_html in
  match
    (if is_empty_str date then None else Re.match_ false Patterns.digits_and_dots date)
  with
  | None => date
  | Some _ =>
      match Re.search true Patterns.mois_pattern (Py.lower full_text) with
      | Some month_match =>
          let month_context :=
            Py.slice (Nat.max 0 (Re.m_start month_match - 20))
                     (Nat.min (Py.len full_text) (Re.m_end month_match + 20)) full_text in
          let proper_date := _extract_date month_context in
          if is_empty_str proper_date then Py.capitalize (Re.group0 month_match)
          else proper_date
      | None =>
          match Re.search true Patterns.jour_pattern (Py.lower full_text) with
          | Some day_match =>
              Py.strip
                (Py.slice (Nat.max 0 (Re.m_start day_match - 10))
                          (Nat.min (Py.len full_text) (Re.m_end day_match + 30)) full_text)
          | None => date
          end
      end
  end.

(** Lines 514-529: the test made for one term; both modes are written out
    as in the source. *)
Definition term_matches (exact_matching : bool) (term normalized_title normalized_info : string)
  : bool :=
  let term_lower := Py.lower term in
  let term_normalized := _normalize_text term in
  if exact_matching then
    (Py.contains term_lower normalized_title || Py.contains term_lower normalized_info
     || Py.contains term_normalized normalized_title
     || Py.contains term_normalized normalized_info)%bool
  else
    (Py.contains term_lower normalized_title || Py.contains term_lower normalized_info
     || Py.contains term_normalized normalized_title
     || Py.contains term_normalized normalized_info)%bool.

(** Lines 510-529: the loop over the search terms. *)
Definition matching_terms_of (self : EventScraper) (normalized_title normalized_info : string)
  : list string :=
  fold_left
    (fun matching_terms term =>
       if term_matches (exact_matching self) term normalized_title normalized_info
       then append_new matching_terms term
       else matching_terms)
    (search_terms self) [].

Definition set_id (event : Event) (i : string) : Event :=
  {| title := title event; original_title := original_title event;
     link := link event; info := info event; date := date event;
     found_at := found_at event; matching_terms := matching_terms event;
     id := Some i |}.

Section Scraper.

(** BeautifulSoup is used through two entries, left open here:
    [BeautifulSoup(text, 'html.parser')] and [str(element)].  The parser
    can refuse the text of a page, and then raises
    ([bs4.ParserRejectedMarkup]): [parses text] tells whether it returns,
    and [BeautifulSoup text] is the tree it returns when it does.  The text
    [_process_event] parses is what [str] made from an element of a parsed
    page, markup of the parser's own making, which it accepts. *)
Variable BeautifulSoup : string -> node.
Variable str_of : node -> string.
Variable parses : string -> bool.

(** [EventScraper._process_event].  [now] is the reading of
    [datetime.now()] formatted for [found_at].  No step of the body
    raises in this model, so the [except] branch is not represented. *)
Definition _process_event (self : EventScraper) (now : string) (event_html : string)
  : option Event :=
  let soup := BeautifulSoup event_html in
  let is_website_event := Py.contains class_event_marker event_html in
  let title := title_of is_website_event soup in
  if is_empty_str title then None
  else
    let link := absolute_link self (raw_link_of is_website_event soup) in
    let full_text := Py.strip (get_text soup) in
    let info := info_of title full_text in
    let date := date_of event_html full_text in
    let normalized_title := _normalize_text title in
    let normalized_info := _normalize_text info in
    let matching_terms := matching_terms_of self normalized_title normalized_info in
    match matching_terms with
    | [] => None
    | first_term :: _ =>
        let event :=
          {| title := first_term; original_title := title; link := link;
             info := info; date := date; found_at := now;
             matching_terms := matching_terms; id := None |} in
        Some (set_id event (_generate_event_id event))
    end.

(* =================================================================== *)
(** * The store file and [find_new_events] *)
(* =================================================================== *)

(** The data file: absent, holding the JSON text of a store as
    [json.dump] writes it, or holding text [json.load] rejects. *)
Inductive DataFile : Type :=
| NoFile
| JsonStore (m : gmap string ProcessedRecord)
| Unreadable.

(** What a run does not control: the site ([requests.get] followed by
    [raise_for_status]; [None] when either raises), the clock (each
    reading has an index of its own) and whether the data file can be
    written. *)
Record Env : Type := {
  get : string -> option string;
  now : nat -> string;
  can_write : bool
}.

(** [EventScraper._load_processed_events]. *)
Definition _load_processed_events (f : DataFile) : gmap string ProcessedRecord :=
  match f with
  | JsonStore m => m
  | NoFile | Unreadable => ∅
  end.

(** [EventScraper._save_processed_events]: a failure is caught and
    leaves the file as it was. *)
Definition _save_processed_events (env : Env) (self : EventScraper) (f : DataFile)
  : DataFile :=
  if can_write env then JsonStore (processed_events self) else f.

(** The alternative selectors of line 610. *)
Definition selectors : list selector :=
  [ TagClass "div" "event"; AnyClass "event-item"; TagClass "div" "ce_text";
    AnyClass "post"; AnyClass "item"; AnyClass "newsBox"; AnyClass "event-box" ].

(** Lines 600-626: the event elements of a page. *)
Definition event_elements_of (soup : node) : list node :=
  match find_all ["article"] soup with
  | (_ :: _) as articles => articles
  | [] =>
      match
        first_some
          (fun sel => match select sel soup with [] => None | els => Some els end)
          selectors
      with
      | Some elements => elements
      | None =>
          List.filter (fun div => Nat.ltb 100 (Py.len (Py.strip (get_text div))))
                 (find_all ["div"] soup)
      end
  end.

(** Lines 645-659: the link to the next page, made absolute. *)
Definition next_page_of (self : EventScraper) (soup : node) : option string :=
  match List.find (has_token "class" "pagination") (find_all ["ul"] soup) with
  | Some pagination =>
      match List.find (has_token "rel" "next") (find_all ["a"] pagination) with
      | Some next_link =>
          match get_attr "href" next_link with
          | Some next_href =>
              if Py.startswith "/" next_href then
                let base_url := url self in
                let base_url :=
                  if Py.contains "?" base_url
                  then hd EmptyString (Py.split "?" base_url) else base_url in
                let base_url :=
                  if Py.endswith "/" base_url then Py.drop_last base_url else base_url in
                Some (base_url +:+ next_href)
              else Some next_href
          | None => None
          end
      | None => None
      end
  | None => None
  end.

(** The state the walk changes: the scraper object, the list
    [new_events] and the index of the next clock reading.  The counter
    [event_count] and the log messages, on which no result depends, are
    left out. *)
Record Walk : Type := {
  scraper : EventScraper;
  new_events : list Event;
  ticks : nat
}.

(** How a block ends: normally, or by an exception that leaves it. *)
Inductive Outcome : Type :=
| Done (w : Walk)
| Raised (w : Walk).

(** Lines 629-642: one event element.  Each element takes two clock
    readings, for [found_at] and for [processed_at]. *)
Definition process_elem (env : Env) (w : Walk) (event_elem : node) : Outcome :=
  let self := scraper w in
  match _process_event self (now env (ticks w)) (str_of event_elem) with
  | Some event =>
      match id event with
      | Some event_id =>
          match processed_events self !! event_id with
          | None =>
              Done {| scraper :=
                        set_processed_events self
                          (<[event_id :=
                               {| processed_at := now env (S (ticks w));
                                  notified := false; notified_at := None |}]>
                             (processed_events self));
                      new_events := new_events w ++ [event];
                      ticks := S (S (ticks w)) |}
          | Some _ =>
              Done {| scraper := self; new_events := new_events w;
                      ticks := S (S (ticks w)) |}
          end
      | None => Raised w          (* event['id'] on a dict without the key *)
      end
  | None =>
      Done {| scraper := self; new_events := new_events w; ticks := S (S (ticks w)) |}
  end.

Fixpoint process_elems (env : Env) (w : Walk) (elems : list node) : Outcome :=
  match elems with
  | [] => Done w
  | e :: elems' =>
      match process_elem env w e with
      | Done w' => process_elems env w' elems'
      | Raised w' => Raised w'
      end
  end.

(** Lines 590-667: the loop over the pages.  [budget] is
    [max_pages - pages_scraped].  Two steps of the body can raise, which
    leaves the loop for the [except] of line 675 with the store in memory
    as it then is: the request ([requests.get], [raise_for_status]) and
    the parsing of the page. *)
Fixpoint walk (env : Env) (budget : nat) (current_url : string) (w : Walk) : Outcome :=
  match budget with
  | O => Done w
  | S budget' =>
      if is_empty_str current_url then Done w
      else
        match get env current_url with
        | None => Raised w
        | Some text =>
            if parses text then
              let soup := BeautifulSoup text in
              match process_elems env w (event_elements_of soup) with
              | Raised w' => Raised w'
              | Done w' =>
                  match next_page_of (scraper w') soup with
                  | Some next_page =>
                      if is_empty_str next_page then Done w'
                      else walk env budget' next_page w'
                  | None => Done w'
                  end
              end
            else Raised w
        end
  end.

(** What a call of [find_new_events] leaves: the returned list, the
    scraper object, the data file and the clock index. *)
Record Result : Type := {
  returned : list Event;
  scraper_after : EventScraper;
  file_after : DataFile;
  ticks_after : nat
}.

(** Lines 576-581: with no search term, the variants and keys are used. *)
Definition terms_from_variants (self : EventScraper) : EventScraper :=
  match search_terms self, term_variants self with
  | [], _ :: _ =>
      set_search_terms self
        (fold_left (fun terms kv => append_new (terms ++ snd kv) (fst kv))
                   (term_variants self) (search_terms self))
  | _, _ => self
  end.

(** [EventScraper.find_new_events]. *)
Definition find_new_events (env : Env) (self : EventScraper) (t : nat) (f : DataFile)
  : Result :=
  match search_terms self, term_variants self with
  | [], [] =>
      {| returned := []; scraper_after := self; file_after := f; ticks_after := t |}
  | _, _ =>
      let self := terms_from_variants self in
      match walk env (Z.to_nat (max_pages self)) (url self)
                 {| scraper := self; new_events := []; ticks := t |} with
      | Done w =>
          {| returned := new_events w; scraper_after := scraper w;
             file_after := _save_processed_events env (scraper w) f;
             ticks_after := ticks w |}
      | Raised w =>
          {| returned := []; scraper_after := scraper w; file_after := f;
             ticks_after := ticks w |}
      end
  end.

(** The arguments of the constructor. *)
Record Config : Type := {
  cfg_url : string;
  cfg_data_file : string;
  cfg_max_pages : Z;
  cfg_search_terms : list string;
  cfg_debug : bool;
  cfg_exact_matching : bool;
  cfg_term_variants : list (string * list string)
}.

(** [EventScraper.__init__], with the variant map given as loaded. *)
Definition init (c : Config) (f : DataFile) : EventScraper :=
  let self :=
    {| url := cfg_url c; data_file := cfg_data_file c; max_pages := cfg_max_pages c;
       exact_matching := cfg_exact_matching c; debug := cfg_debug c;
       search_terms := _normalize_search_terms (cfg_search_terms c);
       term_variants := cfg_term_variants c; processed_events := ∅ |} in
  let self := _add_term_variants self in
  set_processed_events self (_load_processed_events f).

(** A run of the program: the constructor, then [find_new_events]. *)
Definition run (env : Env) (c : Config) (f : DataFile) : Result :=
  find_new_events env (init c f) O f.

End Scraper.

(* ===================================================================== *)
(** * Views of the walk used to state its properties *)
(* ===================================================================== *)

Section WalkViews.

Variable BeautifulSoup : string -> node.
Variable str_of : node -> string.
Variable parses : string -> bool.

(** The identifier [_process_event] gives the event of a fragment, when
    it gives an event. *)
Definition id_of_fragment (self : EventScraper) (event_html : string) : option string :=
  match _process_event BeautifulSoup self EmptyString event_html with
  | Some event => id event
  | None => None
  end.

(** The URLs the walk requests, in order; the last request may fail, or
    give a page the parser refuses. *)
Fixpoint requested_urls (site : string -> option string) (self : EventScraper)
         (budget : nat) (current_url : string) : list string :=
  match budget with
  | O => []
  | S budget' =>
      if is_empty_str current_url then []
      else
        current_url ::
          match site current_url with
          | None => []
          | Some text =>
              if parses text then
                match next_page_of self (BeautifulSoup text) with
                | Some next_page =>
                    if is_empty_str next_page then []
                    else requested_urls site self budget' next_page
                | None => []
                end
              else []
          end
  end.

Definition fails (site : string -> option string) (u : string) : bool :=
  match site u with None => true | Some _ => false end.

(** The request of [u] succeeds and the parser refuses the page. *)
Definition refused (site : string -> option string) (u : string) : bool :=
  match site u with None => false | Some text => negb (parses text) end.

(** Some page request of the walk of [find_new_events] fails. *)
Definition fetch_fails (env : Env) (self : EventScraper) : bool :=
  existsb (fails (get env))
          (requested_urls (get env) self (Z.to_nat (max_pages self)) (url self)).

(** Some page of the walk of [find_new_events] is refused by the parser. *)
Definition parse_fails (env : Env) (self : EventScraper) : bool :=
  existsb (refused (get env))
          (requested_urls (get env) self (Z.to_nat (max_pages self)) (url self)).

(** The parsed pages of a walk all of whose requests succeed and all of
    whose pages the parser accepts. *)
Fixpoint fetched_pages (site : string -> option string) (self : EventScraper)
         (budget : nat) (current_url : string) : option (list node) :=
  match budget with
  | O => Some []
  | S budget' =>
      if is_empty_str current_url then Some []
      else
        match site current_url with
        | None => None
        | Some text =>
            if parses text then
              let soup := BeautifulSoup text in
              match next_page_of self soup with
              | Some next_page =>
                  if is_empty_str next_page then Some [soup]
                  else option_map (cons soup) (fetched_pages site self budget' next_page)
              | None => Some [soup]
              end
            else None
        end
  end.

(** One event element, as [process_elem] handles it when the event
    carries its identifier. *)
Definition step (env : Env) (w : Walk) (event_elem : node) : Walk :=
  let self := scraper w in
  match _process_event BeautifulSoup self (now env (ticks w)) (str_of event_elem) with
  | Some event =>
      match id event with
      | Some event_id =>
          match processed_events self !! event_id with
          | None =>
              {| scraper :=
                   set_processed_events self
                     (<[event_id :=
                          {| processed_at := now env (S (ticks w));
                             notified := false; notified_at := None |}]>
                        (processed_events self));
                 new_events := new_events w ++ [event];
                 ticks := S (S (ticks w)) |}
          | Some _ =>
              {| scraper := self; new_events := new_events w; ticks := S (S (ticks w)) |}
          end
      | None => w
      end
  | None => {| scraper := self; new_events := new_events w; ticks := S (S (ticks w)) |}
  end.

(** Every event of the elements [es] has its identifier in the store [m]. *)
Definition covered (self : EventScraper) (m : gmap string ProcessedRecord)
           (es : list node) : Prop :=
  forall e, In e es ->
  forall now ev, _process_event BeautifulSoup self now (str_of e) = Some ev ->
  exists i, id ev = Some i /\ is_Some (m !! i).

(** The invariant of the walk: the identifiers of [new_events] are
    pairwise distinct and all in the store. *)
Definition ids_recorded (w : Walk) : Prop :=
  NoDup (map id (new_events w))
  /\ forall ev, In ev (new_events w) ->
     exists i, id ev = Some i /\ is_Some (processed_events (scraper w) !! i).

(** Two scraper objects that differ at most in their store. *)
Definition same_settings (a b : EventScraper) : Prop :=
  url a = url b /\ max_pages a = max_pages b
  /\ exact_matching a = exact_matching b
  /\ search_terms a = search_terms b /\ term_variants a = term_variants b.

End WalkViews.

(* ===================================================================== *)
(** * Statements of the specification, in its own words *)
(* ===================================================================== *)

(** Term expansion as the specification states it for an empty list of base
    terms: every key, every variant value, and no two members equal when
    compared without case. *)
Definition contains_every_key (V : list (string * list string)) (E : list string) : Prop :=
  forall k vs, In (k, vs) V -> In k E.

Definition contains_every_variant (V : list (string * list string)) (E : list string) : Prop :=
  forall k vs v, In (k, vs) V -> In v vs -> In v E.

Definition no_duplicates_ignoring_case (E : list string) : Prop :=
  NoDup (map Py.lower E).

Definition stated_expansion (V : list (string * list string)) : Prop :=
  contains_every_key V (expand [] V)
  /\ contains_every_variant V (expand [] V)
  /\ no_duplicates_ignoring_case (expand [] V).

(** An ordered list of strategies, each giving an element or nothing; the
    first success is taken. *)
Definition first_success (strategies : list (node -> option node)) (soup : node)
  : option node :=
  first_some (fun strategy => strategy soup) strategies.

(** The title read through a list of strategies, with the fallback to the
    first line of all text cut at 100 characters. *)
Definition title_by (strategies : list (node -> option node)) (soup : node) : string :=
  match first_success strategies soup with
  | Some elem => Py.strip (get_text elem)
  | None => Py.take 100 (hd EmptyString (Py.split newline (Py.strip (get_text soup))))
  end.

Definition is_tag (n : node) : bool :=
  match n with Tag _ _ _ => true | Text _ => false end.

(** Title resolution as the specification states it: a heading element,
    then a bold or strong element, then the first element with more than
    10 characters of text. *)
Definition stated_title_strategies : list (node -> option node) :=
  [ fun soup => head (find_all ["h1"; "h2"; "h3"; "h4"; "h5"; "h6"] soup);
    fun soup => head (find_all ["strong"; "b"] soup);
    fun soup =>
      List.find (fun elem => (is_tag elem && Nat.ltb 10 (Py.len (Py.strip (get_text elem))))%bool)
                (descendants soup) ].

(** The same, with the third step restricted to the tags the code looks at. *)
Definition stated_title_strategies_narrow : list (node -> option node) :=
  [ fun soup => head (find_all ["h1"; "h2"; "h3"; "h4"; "h5"; "h6"] soup);
    fun soup => head (find_all ["strong"; "b"] soup);
    fun soup =>
      List.find (fun elem => Nat.ltb 10 (Py.len (Py.strip (get_text elem))))
                (find_all ["div"; "p"; "span"] soup) ].

(** The strategies of the code for a fragment whose text has the marker
    [class="event"]. *)
Definition website_title_strategies : list (node -> option node) :=
  [ Bs4.find "h2";
    Bs4.find "strong";
    fun soup =>
      List.find (fun elem => Nat.ltb 10 (Py.len (Py.strip (get_text elem))))
                (find_all ["div"; "p"; "span"] soup) ].

(** The strategies of the code for any other fragment. *)
Definition other_title_strategies : list (node -> option node) :=
  [ Bs4.find "h2";
    Bs4.find "h3";
    Bs4.find "h4";
    Bs4.find ".event-title";
    Bs4.find "strong";
    fun soup =>
      List.find (fun elem => negb (is_empty_str (Py.strip (get_text elem))))
                (find_all ["p"; "div"; "span"] soup) ].

Definition title_strategies (event_html : string) : list (node -> option node) :=
  if Py.contains class_event_marker event_html
  then website_title_strategies else other_title_strategies.

(* ===================================================================== *)
(** * A small site, for concrete runs *)
(* ===================================================================== *)

Module Site.

(** [str(element)] for trees without characters that need escaping. *)
Fixpoint render (n : node) : string :=
  match n with
  | Text s => s
  | Tag name attrs cs =>
      "<" +:+ name
      +:+ fold_right (fun kv acc => " " +:+ fst kv +:+ "=" +:+ dquote +:+ snd kv +:+ dquote +:+ acc)
                     EmptyString attrs
      +:+ ">"
      +:+ (fix over (l : list node) : string :=
             match l with
             | [] => EmptyString
             | c :: l' => render c +:+ over l'
             end) cs
      +:+ "</" +:+ name +:+ ">"
  end.

(** A parser given by the table of the texts it is applied to: each listed
    tree is parsed back from its rendering; any other text is taken as
    text without tags. *)
Fixpoint parse_with (trees : list node) (text : string) : node :=
  match trees with
  | [] => document [Text text]
  | t :: trees' =>
      if String.eqb text (render t) then
        match t with
        | Tag "[document]" _ _ => t
        | _ => document [t]
        end
      else parse_with trees' text
  end.

Definition concert : node :=
  Tag "article" []
      [ Tag "h2" [] [Text "Concert Jazz"];
        Tag "p" [] [Text "Venue details..."];
        Tag "a" [("href", "/events/42")] [Text "Details"] ].

Definition bal : node :=
  Tag "article" []
      [ Tag "h2" [] [Text "Grand bal"];
        Tag "p" [] [Text "Soiree jazz le 14 juillet sur la place."];
        Tag "a" [("href", "/events/43")] [Text "Details"] ].

(** A fragment without heading and without bold text. *)
Definition plain : node :=
  Tag "article" []
      [ Tag "p" [] [Text "Jazz"];
        Tag "p" [] [Text "Concert de jazz ce soir"] ].

Definition pagination : node :=
  Tag "ul" [("class", "pagination")]
      [ Tag "li" [] [Tag "a" [("rel", "next"); ("href", "/agenda?page=2")] [Text "Suivant"]] ].

Definition page1 : node := Tag "[document]" [] [concert; pagination].
Definition page2 : node := Tag "[document]" [] [bal; concert].

Definition parse : string -> node := parse_with [page1; page2; concert; bal; plain].

(** A parser that accepts every text. *)
Definition accepts : string -> bool := fun _ => true.

Definition base_url : string := "https://city.example/agenda".

(** Both pages answer. *)
Definition site (u : string) : option string :=
  if String.eqb u base_url then Some (render page1)
  else if String.eqb u "https://city.example/agenda/agenda?page=2" then Some (render page2)
  else None.

(** The second page does not answer. *)
Definition broken_site (u : string) : option string :=
  if String.eqb u base_url then Some (render page1) else None.

Definition clock (n : nat) : string :=
  if Nat.even n then "2024-05-01 10:00:00" else "2024-05-01 10:00:01".

Definition later_clock (n : nat) : string := "2024-05-02 08:30:00".

Definition env : Env := {| get := site; now := clock; can_write := true |}.
Definition later_env : Env := {| get := site; now := later_clock; can_write := true |}.
Definition broken_env : Env := {| get := broken_site; now := clock; can_write := true |}.

Definition config : Config :=
  {| cfg_url := base_url; cfg_data_file := "scrap_cityevent/data/events.json";
     cfg_max_pages := 5; cfg_search_terms := ["jazz"]; cfg_debug := false;
     cfg_exact_matching := true; cfg_term_variants := [] |}.

Definition scraper0 : EventScraper := init config NoFile.

(** The event of the fragment [concert] read at 10:00:00. *)
Definition concert_event : Event :=
  {| title := "jazz"; original_title := "Concert Jazz";
     link := "https://city.example/agenda/events/42";
     info := "Venue details...Details"; date := EmptyString;
     found_at := "2024-05-01 10:00:00"; matching_terms := ["jazz"];
     id := Some "d52ba898abb71156a9fea5bd6a48b58b" |}.

(** The event of the fragment [plain]. *)
Definition plain_event : Event :=
  {| title := "jazz"; original_title := "Jazz"; link := "#";
     info := "Concert de jazz ce soir"; date := EmptyString;
     found_at := "2024-05-01 10:00:00"; matching_terms := ["jazz"];
     id := Some "b9b41d5ff044db9f51268db8f415d961" |}.

End Site.

(* ===================================================================== *)
(** * [mark_as_notified] *)
(* ===================================================================== *)

(** [EventScraper.mark_as_notified]: the record of a known identifier gets
    [notified] and [notified_at] and the store is saved; an unknown
    identifier changes nothing and nothing is saved.  [t] is the index of
    the next clock reading. *)
Definition mark_as_notified (env : Env) (self : EventScraper) (t : nat) (f : DataFile)
           (event_id : string) : EventScraper * nat * DataFile :=
  match processed_events self !! event_id with
  | Some record =>
      let self' :=
        set_processed_events self
          (<[event_id := {| processed_at := processed_at record; notified := true;
                            notified_at := Some (now env t) |}]>
             (processed_events self)) in
      (self', S t, _save_processed_events env self' f)
  | None => (self, t, f)
  end.

(* ===================================================================== *)
(** * [_load_term_variants] and the constructor with its sources *)
(* ===================================================================== *)

(** A Python [dict] with string keys, in insertion order. *)
Fixpoint dict_set {V : Type} (k : string) (v : V) (d : list (string * V))
  : list (string * V) :=
  match d with
  | [] => [(k, v)]
  | (k', v') :: d' =>
      if String.eqb k k' then (k, v) :: d' else (k', v') :: dict_set k v d'
  end.

Fixpoint dict_get {V : Type} (k : string) (d : list (string * V)) : option V :=
  match d with
  | [] => None
  | (k', v') :: d' => if String.eqb k k' then Some v' else dict_get k d'
  end.

(** [d.update(e)]. *)
Definition dict_update {V : Type} (d e : list (string * V)) : list (string * V) :=
  fold_left (fun d kv => dict_set (fst kv) (snd kv) d) e d.

(** Where variants come from besides the constructor's argument: the JSON
    files ([path_exists], and [read_json], which is [None] when [json.load]
    fails) and three environment variables ([TERM_VARIANTS] is [None] when
    it is unset, blank or not valid JSON). *)
Record VariantEnv : Type := {
  path_exists : string -> bool;
  read_json : string -> option (list (string * list string));
  TERM_VARIANTS : option (list (string * list string));
  PRIMARY_TERM : string;
  PRIMARY_TERM_VARIANTS : string
}.

(** [[v.strip() for v in s.split(',') if v.strip()]]. *)
Definition split_stripped (s : string) : list string :=
  List.filter (fun v => negb (is_empty_str v)) (map Py.strip (Py.split "," s)).

(** [EventScraper._load_term_variants]; [search_terms] is [self.search_terms]
    at the time of the call, [variants_file] the path or the empty string. *)
Definition _load_term_variants (venv : VariantEnv) (search_terms : list string)
           (variants_file : string) : list (string * list string) :=
  let variants :=
    if (negb (is_empty_str variants_file) && path_exists venv variants_file)%bool then
      match read_json venv variants_file with
      | Some loaded =>
          match loaded, search_terms with
          | [(json_key, json_variants)], [search_term] =>
              if (negb (String.eqb json_key search_term)
                  && negb (Py.mem json_key search_terms))%bool
              then dict_set search_term json_variants loaded
              else loaded
          | _, _ => loaded
          end
      | None => []
      end
    else [] in
  let variants :=
    match TERM_VARIANTS venv with
    | Some env_var_dict => dict_update variants env_var_dict
    | None => variants
    end in
  if negb (is_empty_str (PRIMARY_TERM venv)) then
    if negb (is_empty_str (PRIMARY_TERM_VARIANTS venv)) then
      dict_set (PRIMARY_TERM venv) (split_stripped (PRIMARY_TERM_VARIANTS venv)) variants
    else variants
  else variants.

(** [EventScraper.__init__] with its sources: the [term_variants] argument
    when it is not empty, else what [_load_term_variants] gives. *)
Definition construct (venv : VariantEnv) (c : Config) (variants_file : string)
           (f : DataFile) : EventScraper :=
  let loaded :=
    match cfg_term_variants c with
    | [] =>
        _load_term_variants venv (_normalize_search_terms (cfg_search_terms c))
                            variants_file
    | given => given
    end in
  init {| cfg_url := cfg_url c; cfg_data_file := cfg_data_file c;
          cfg_max_pages := cfg_max_pages c; cfg_search_terms := cfg_search_terms c;
          cfg_debug := cfg_debug c; cfg_exact_matching := cfg_exact_matching c;
          cfg_term_variants := loaded |} f.

(* ===================================================================== *)
(** * main.py: [parse_search_terms] and [main] *)
(* ===================================================================== *)

(** [s.rstrip(',')]: trailing commas removed. *)
Fixpoint rstrip_commas (s : string) : string :=
  match s with
  | EmptyString => EmptyString
  | String c s' =>
      match rstrip_commas s' with
      | EmptyString => if Ascii.eqb c "," then EmptyString else String c EmptyString
      | r => String c r
      end
  end.

(** [parse_search_terms]. *)
Definition parse_search_terms (terms_str : string) : list string :=
  if is_empty_str terms_str then []
  else
    let terms_str := rstrip_commas terms_str in
    let terms := map Py.strip (Py.split "," terms_str) in
    List.filter (fun term => negb (is_empty_str term)) terms.

(** [', '.join(terms)], as [main] logs the terms. *)
Fixpoint join (sep : string) (terms : list string) : string :=
  match terms with
  | [] => EmptyString
  | [t] => t
  | t :: terms' => t +:+ sep +:+ join sep terms'
  end.

(** The values [main] works with once the command line and the
    environment are merged (lines 79-93); an absent value is the empty
    string. *)
Record Inputs : Type := {
  in_url : string;
  in_sender_email : string;
  in_receiver_email : string;
  in_max_pages : Z;
  in_search_terms_str : string;
  in_primary_term : string;
  in_variants_file : string;
  in_debug : bool;
  in_reset : bool
}.

(** What [main] does not control, besides [Env]: the variant sources,
    whether the data file can be removed, and the outcome of
    [notifier.send_notification] for an event. *)
Record World : Type := {
  w_env : Env;
  w_variants : VariantEnv;
  can_remove : bool;
  send_notification : Event -> bool
}.

(** What a call of [main] leaves: the scraper object if one was built, the
    data file, the events handed to [send_notification] with the outcome,
    and [notification_count]. *)
Record MainResult : Type := {
  main_scraper : option EventScraper;
  main_file : DataFile;
  attempts : list (Event * bool);
  notification_count : nat
}.

(** The state of the notification loop. *)
Record Notifying : Type := {
  n_scraper : EventScraper;
  n_ticks : nat;
  n_file : DataFile;
  n_attempts : list (Event * bool);
  n_count : nat
}.

Section Main.

Variable BeautifulSoup : string -> node.
Variable str_of : node -> string.
Variable parses : string -> bool.

(** Lines 145-162: one event of the loop; [None] when [event['id']]
    raises. *)
Definition notify_event (wd : World) (st : Notifying) (event : Event) : option Notifying :=
  match id event with
  | None => None
  | Some event_id =>
      let already :=
        match processed_events (n_scraper st) !! event_id with
        | Some event_record => notified event_record
        | None => false
        end in
      if already then Some st
      else
        let success := send_notification wd event in
        if success then
          let '(self', t', f') :=
            mark_as_notified (w_env wd) (n_scraper st) (n_ticks st) (n_file st) event_id in
          Some {| n_scraper := self'; n_ticks := t'; n_file := f';
                  n_attempts := n_attempts st ++ [(event, true)];
                  n_count := S (n_count st) |}
        else
          Some {| n_scraper := n_scraper st; n_ticks := n_ticks st; n_file := n_file st;
                  n_attempts := n_attempts st ++ [(event, false)];
                  n_count := n_count st |}
  end.

(** The loop; an exception ends it with the state reached. *)
Fixpoint notify_all (wd : World) (st : Notifying) (events : list Event) : Notifying :=
  match events with
  | [] => st
  | event :: events' =>
      match notify_event wd st event with
      | Some st' => notify_all wd st' events'
      | None => st
      end
  end.

Definition data_file_path : string := "scrap_cityevent/data/events.json".

(** [main], from the parsing of the search terms (line 96) on. *)
Definition main (wd : World) (inp : Inputs) (f : DataFile) : MainResult :=
  let nothing :=
    {| main_scraper := None; main_file := f; attempts := []; notification_count := 0 |} in
  let search_terms := parse_search_terms (in_search_terms_str inp) in
  let search_terms :=
    match search_terms with
    | [] => if is_empty_str (in_primary_term inp) then [] else [in_primary_term inp]
    | _ => search_terms
    end in
  if is_empty_str (in_url inp) then nothing
  else if is_empty_str (in_sender_email inp) then nothing
  else if is_empty_str (in_receiver_email inp) then nothing
  else
    match search_terms, is_empty_str (in_variants_file inp) with
    | [], true => nothing
    | _, _ =>
        let variants_file :=
          if (negb (is_empty_str (in_variants_file inp))
              && negb (path_exists (w_variants wd) (in_variants_file inp)))%bool
          then EmptyString else in_variants_file inp in
        let f :=
          if in_reset inp then
            match f with
            | NoFile => f
            | _ => if can_remove wd then NoFile else f
            end
          else f in
        let scraper :=
          construct (w_variants wd)
                    {| cfg_url := in_url inp; cfg_data_file := data_file_path;
                       cfg_max_pages := in_max_pages inp; cfg_search_terms := search_terms;
                       cfg_debug := in_debug inp; cfg_exact_matching := true;
                       cfg_term_variants := [] |}
                    variants_file f in
        let r := find_new_events BeautifulSoup str_of parses (w_env wd) scraper O f in
        let st :=
          notify_all wd
                     {| n_scraper := scraper_after r; n_ticks := ticks_after r;
                        n_file := file_after r; n_attempts := []; n_count := 0 |}
                     (returned r) in
        {| main_scraper := Some (n_scraper st); main_file := n_file st;
           attempts := n_attempts st; notification_count := n_count st |}
    end.

End Main.

(* ===================================================================== *)
(** * notifier.py: [_create_registration_mailto_link] *)
(* ===================================================================== *)

(** The characters [urllib.parse.quote] leaves as they are: letters,
    digits, [_.-~] and the default safe character [/]. *)
Definition quote_safe (c : ascii) : bool :=
  (Py.between 48 57 c || Py.between 65 90 c || Py.between 97 122 c
   || Ascii.eqb c "_" || Ascii.eqb c "." || Ascii.eqb c "-" || Ascii.eqb c "~"
   || Ascii.eqb c "/")%bool.

Definition hex_upper (x : Z) : ascii :=
  if (x <? 10)%Z then Py.chr (Z.to_N (48 + x)) else Py.chr (Z.to_N (55 + x)).

Definition percent (b : Z) : string :=
  String "%" (String (hex_upper (Z.shiftr b 4)) (String (hex_upper (Z.land b 15)) EmptyString)).

Fixpoint quote_bytes (bs : list Z) : string :=
  match bs with
  | [] => EmptyString
  | b :: bs' =>
      (if ((b <? 128)%Z && quote_safe (Py.chr (Z.to_N b)))%bool
       then String (Py.chr (Z.to_N b)) EmptyString else percent b)
      +:+ quote_bytes bs'
  end.

(** [urllib.parse.quote(s)]: the UTF-8 bytes of [s], each kept when safe
    and written [%XX] otherwise. *)
Definition quote (s : string) : string := quote_bytes (Py.encode_utf8 s).

(** The attributes of an [EmailNotifier]. *)
Record EmailNotifier : Type := {
  sender_email : string;
  receiver_email : string;
  smtp_server : string;
  smtp_port : Z;
  city_email : string;
  name : string;
  phone : string
}.

Definition a_grave : string := String (Py.chr 224) EmptyString.
Definition e_grave : string := String (Py.chr 232) EmptyString.
Definition e_acute : string := String (Py.chr 233) EmptyString.

(** A triple-quoted text: a line break, then each line with its line break. *)
Definition text_block (lines : list string) : string :=
  String newline (fold_right (fun l acc => l +:+ String newline acc) EmptyString lines).

(** The line [Telephone: ...], empty without a phone number. *)
Definition phone_line_of (self : EmailNotifier) : string :=
  if is_empty_str (phone self) then EmptyString
  else "T" +:+ e_acute +:+ "l" +:+ e_acute +:+ "phone: " +:+ phone self.

(** Lines 75-91: the HTML body. *)
Definition html_body_of (self : EmailNotifier) (event_title event_date : string) : string :=
  let phone_line := phone_line_of self in
  text_block
  [ "<html>";
    "<body style=" +:+ dquote +:+ "font-family: Arial, sans-serif; line-height: 1.6; color: #333;" +:+ dquote +:+ ">";
    "    <p style=" +:+ dquote +:+ "font-size: 16px; color: #444;" +:+ dquote +:+ ">Bonjour,</p>";
    "    ";
    "    <p>Je souhaite m'inscrire " +:+ a_grave +:+ " l'<strong>" +:+ event_title +:+ "</strong> du <span style=" +:+ dquote +:+ "font-weight: bold;" +:+ dquote +:+ ">" +:+ event_date +:+ "</span>.</p>";
    EmptyString;
    "    <p>Merci d'avance.</p>";
    "    ";
    "    <p style=" +:+ dquote +:+ "margin-top: 20px; color: #555;" +:+ dquote +:+ ">";
    "        Sinc" +:+ e_grave +:+ "res Salutations,<br><br>";
    "        <strong>" +:+ name self +:+ "</strong><br>";
    "        " +:+ phone_line;
    "    </p>";
    "</body>";
    "</html>" ].

(** Lines 100-110: the plain body. *)
Definition plain_body_of (self : EmailNotifier) (event_title event_date : string) : string :=
  let phone_line := phone_line_of self in
  text_block
  [ "Bonjour,";
    EmptyString;
    "Je souhaite m'inscrire " +:+ a_grave +:+ " l'" +:+ event_title +:+ " du " +:+ event_date +:+ ".";
    EmptyString;
    "Merci d'avance.";
    EmptyString;
    "Sinc" +:+ e_grave +:+ "res Salutations,";
    name self;
    phone_line ].

(** [EmailNotifier._create_registration_mailto_link]. *)
Definition _create_registration_mailto_link (self : EmailNotifier) (event : Event)
           (use_html : bool) : string :=
  let event_title := title event in
  let event_date := date event in
  let subject := "Inscription: " +:+ event_title +:+ " - " +:+ event_date in
  if use_html then
    let html_body := html_body_of self event_title event_date in
    let subject_encoded := quote subject in
    let body_encoded := quote html_body in
    "mailto:" +:+ city_email self +:+ "?subject=" +:+ subject_encoded
    +:+ "&body=" +:+ body_encoded +:+ "&content-type=text/html"
  else
    let plain_body := plain_body_of self event_title event_date in
    let subject_encoded := quote subject in
    let body_encoded := quote plain_body in
    "mailto:" +:+ city_email self +:+ "?subject=" +:+ subject_encoded
    +:+ "&body=" +:+ body_encoded.


(* ===================================================================== *)
(** * Predicates and inputs used to state further properties *)
(* ===================================================================== *)

(** Case analysis over the 256 characters. *)
Ltac each_char c :=
  destruct c as [[] [] [] [] [] [] [] []].

(** Every character of [s] satisfies [p]. *)
Definition all_chars (p : ascii -> bool) (s : string) : bool :=
  forallb p (list_ascii_of_string s).

(** An ASCII character that is not an upper-case letter. *)
Definition ascii_not_upper (c : ascii) : bool :=
  (N.ltb (Py.code c) 128 && negb (Py.between 65 90 c))%bool.

(** A character [quote] can produce. *)
Definition quoted_char (c : ascii) : bool := (quote_safe c || Ascii.eqb c "%")%bool.

(** The store [m'] has every key of [m]. *)
Definition keeps_keys (m m' : gmap string ProcessedRecord) : Prop :=
  forall i, is_Some (m !! i) -> is_Some (m' !! i).

(** Membership of an identifier among the identifiers of a list of events. *)
Definition has_id (i : string) (events : list Event) : Prop :=
  In (Some i) (map id events).

(** How a walk may change its state: the settings stay, the records of
    the store stay as they are, a record that is added is not notified,
    and the events appended to [new_events] are those whose identifier
    was added to the store. *)
Definition grows (w w' : Walk) : Prop :=
  same_settings (scraper w') (scraper w)
  /\ (forall i rec, processed_events (scraper w) !! i = Some rec ->
                    processed_events (scraper w') !! i = Some rec)
  /\ (forall i rec, processed_events (scraper w) !! i = None ->
                    processed_events (scraper w') !! i = Some rec ->
                    notified rec = false /\ notified_at rec = None)
  /\ exists added,
       new_events w' = new_events w ++ added
       /\ (forall ev, In ev added ->
             exists i, id ev = Some i /\ processed_events (scraper w) !! i = None)
       /\ (forall i, processed_events (scraper w) !! i = None ->
                     is_Some (processed_events (scraper w') !! i) -> has_id i added).

(** The parts of [main]: the search terms it ends with (lines 92-97), the
    validation (lines 100-113), the data file after the reset (lines
    124-131) and the scraper object it builds (lines 119-121, 134-136). *)
Definition main_terms (inp : Inputs) : list string :=
  match parse_search_terms (in_search_terms_str inp) with
  | [] => if is_empty_str (in_primary_term inp) then [] else [in_primary_term inp]
  | t :: ts => t :: ts
  end.

Definition passes_validation (inp : Inputs) : bool :=
  (negb (is_empty_str (in_url inp))
   && negb (is_empty_str (in_sender_email inp))
   && negb (is_empty_str (in_receiver_email inp))
   && negb (match main_terms inp with
            | [] => is_empty_str (in_variants_file inp)
            | _ :: _ => false
            end))%bool.

Definition after_reset (wd : World) (inp : Inputs) (f : DataFile) : DataFile :=
  if in_reset inp then
    match f with
    | NoFile => f
    | _ => if can_remove wd then NoFile else f
    end
  else f.

Definition main_config (inp : Inputs) : Config :=
  {| cfg_url := in_url inp; cfg_data_file := data_file_path;
     cfg_max_pages := in_max_pages inp; cfg_search_terms := main_terms inp;
     cfg_debug := in_debug inp; cfg_exact_matching := true;
     cfg_term_variants := [] |}.

Definition main_variants_file (venv : VariantEnv) (inp : Inputs) : string :=
  if (negb (is_empty_str (in_variants_file inp))
      && negb (path_exists venv (in_variants_file inp)))%bool
  then EmptyString else in_variants_file inp.

Definition main_scraper_of (venv : VariantEnv) (inp : Inputs) (f : DataFile)
  : EventScraper :=
  construct venv (main_config inp) (main_variants_file venv inp) f.

(** The configuration [construct] hands to [init]. *)
Definition loaded_config (venv : VariantEnv) (c : Config) (variants_file : string)
  : Config :=
  {| cfg_url := cfg_url c; cfg_data_file := cfg_data_file c;
     cfg_max_pages := cfg_max_pages c; cfg_search_terms := cfg_search_terms c;
     cfg_debug := cfg_debug c; cfg_exact_matching := cfg_exact_matching c;
     cfg_term_variants :=
       match cfg_term_variants c with
       | [] =>
           _load_term_variants venv (_normalize_search_terms (cfg_search_terms c))
                               variants_file
       | given => given
       end |}.

(** The state in which [main] starts its notification loop. *)
Definition loop_start (r : Result) : Notifying :=
  {| n_scraper := scraper_after r; n_ticks := ticks_after r; n_file := file_after r;
     n_attempts := []; n_count := 0 |}.

(** A search term as [parse_search_terms] gives them: not empty, without
    a comma, and with no white space at either end. *)
Definition no_comma (s : string) : bool :=
  all_chars (fun c => negb (Ascii.eqb c ",")) s.

Definition clean_term (t : string) : Prop :=
  t <> EmptyString /\ Py.strip t = t /\ no_comma t = true.

(** The variant sources with the environment variables unset: only the
    variants file is left. *)
Definition file_only (venv : VariantEnv) : VariantEnv :=
  {| path_exists := path_exists venv; read_json := read_json venv;
     TERM_VARIANTS := None; PRIMARY_TERM := EmptyString;
     PRIMARY_TERM_VARIANTS := EmptyString |}.

(** A character of a string that [^[\d.]+$] can match: a digit, a dot, or
    the line feed [$] allows at the end. *)
Definition digit_dot_or_newline (c : ascii) : bool :=
  (Py.is_digit c || Ascii.eqb c "." || Ascii.eqb c (Py.chr 10))%bool.

Module Demo.

(** A fragment in which no search term of [Site.config] occurs. *)
Definition market : node :=
  Tag "article" []
      [ Tag "h2" [] [Text "Marche aux fleurs"];
        Tag "a" [] [Text "Plan"];
        Tag "a" [("href", "/plan")] [Text "Acces"] ].

Definition parse : string -> node := Site.parse_with [market; Site.concert; Site.bal].

(** A variants file with a blank variant. *)
Definition blank_variant_config : Config :=
  {| cfg_url := Site.base_url; cfg_data_file := "scrap_cityevent/data/events.json";
     cfg_max_pages := 5; cfg_search_terms := ["jazz"]; cfg_debug := false;
     cfg_exact_matching := true; cfg_term_variants := [("jazz", [EmptyString])] |}.

Definition blank_scraper : EventScraper := init blank_variant_config NoFile.

Definition notifier : EmailNotifier :=
  {| sender_email := "me@example.org"; receiver_email := "me@example.org";
     smtp_server := "smtp.gmail.com"; smtp_port := 587;
     city_email := "mairie@city.example"; name := "Ana & Co"; phone := "06 01 02 03 04" |}.

(** No variants file, no variants in the environment. *)
Definition no_variants : VariantEnv :=
  {| path_exists := fun _ => false; read_json := fun _ => None;
     TERM_VARIANTS := None; PRIMARY_TERM := EmptyString;
     PRIMARY_TERM_VARIANTS := EmptyString |}.

(** A variants file with one key, which is not the search term. *)
Definition one_key_file : VariantEnv :=
  {| path_exists := fun p => String.eqb p "variants.json";
     read_json := fun p =>
       if String.eqb p "variants.json"
       then Some [("musique", ["Jazz"; "concert de jazz"; "swing"])] else None;
     TERM_VARIANTS := None; PRIMARY_TERM := EmptyString;
     PRIMARY_TERM_VARIANTS := EmptyString |}.

(** A variants file, [TERM_VARIANTS] and [PRIMARY_TERM_VARIANTS] together. *)
Definition all_sources : VariantEnv :=
  {| path_exists := fun p => String.eqb p "variants.json";
     read_json := fun p =>
       if String.eqb p "variants.json"
       then Some [("musique", ["Jazz"; "swing"]); ("danse", ["valse"])] else None;
     TERM_VARIANTS := Some [("musique", ["fanfare"]); ("bal", ["bal masque"])];
     PRIMARY_TERM := "bal";
     PRIMARY_TERM_VARIANTS := "guinguette, , musette" |}.

Definition inputs : Inputs :=
  {| in_url := Site.base_url; in_sender_email := "me@example.org";
     in_receiver_email := "me@example.org"; in_max_pages := 5;
     in_search_terms_str := "jazz, "; in_primary_term := EmptyString;
     in_variants_file := EmptyString; in_debug := false; in_reset := false |}.

(** Mail for the first event goes out, mail for the others fails. *)
(** A parser that refuses the second page of the site. *)
Definition strict : string -> bool :=
  fun text => negb (String.eqb text (Site.render Site.page2)).

Definition flaky_send (event : Event) : bool :=
  String.eqb (original_title event) "Concert Jazz".

Definition world : World :=
  {| w_env := Site.env; w_variants := no_variants; can_remove := true;
     send_notification := flaky_send |}.

Definition later_world : World :=
  {| w_env := Site.later_env; w_variants := no_variants; can_remove := true;
     send_notification := fun _ => true |}.

End Demo.

(* ===================================================================== *)
(** * Checks of the primitives on concrete inputs *)
(* ===================================================================== *)

Example py_strip : Py.strip "  le 12 mai  " = "le 12 mai".
Proof. reflexivity. Qed.
Example py_replace : Py.replace ". " ".X" "a. b. c" = "a.Xb.Xc".
Proof. reflexivity. Qed.
Example py_find_in : Py.find_in "12" "ab 12 cd 12" 4 11 = 9%Z.
Proof. reflexivity. Qed.
Example re_sub_spaces : Re.sub Re.spaces " " "a  b
 c" = "a b c".
Proof. reflexivity. Qed.
Example re_split_date : Re.split (Re.one_of "./-") "04.68-29" = ["04"; "68"; "29"].
Proof. reflexivity. Qed.
Example re_findall_numbers :
  Re.findall (Re.seqs [Re.WordB; Re.rep Re.digit 1 2; Re.WordB]) "le 12 et 345, 6" = ["12"; "6"].
Proof. reflexivity. Qed.
Example md5_empty : Md5.hexdigest (Py.encode_utf8 "") = "d41d8cd98f00b204e9800998ecf8427e".
Proof. vm_compute. reflexivity. Qed.
Example md5_abc : Md5.hexdigest (Py.encode_utf8 "abc") = "900150983cd24fb0d6963f7d28e17f72".
Proof. vm_compute. reflexivity. Qed.
Example md5_two_blocks :
  Md5.hexdigest (Py.encode_utf8 "aaaaaaaaaaaaaaaaaaaaaaaaaaaaaaaaaaaaaaaaaaaaaaaaaaaaaaaa")
  = "3b0c8ac703f828b04c6c197006d17218".
Proof. vm_compute. reflexivity. Qed.
Example md5_e_acute :
  Md5.hexdigest (Py.encode_utf8 (String (Py.chr 233) EmptyString))
  = "66ddcd97cfdeabb2f6fb8a999b4bc76f".
Proof. vm_compute. reflexivity. Qed.
Example bs4_descendants_order :
  map tag_name
      (descendants (document [Tag "div" [] [Tag "p" [] [Text "a"]; Tag "span" [] []]; Tag "a" [] []]))
  = [Some "div"; Some "p"; None; Some "span"; Some "a"].
Proof. reflexivity. Qed.
Example bs4_tokens : tokens " event  big " = ["event"; "big"].
Proof. reflexivity. Qed.
Example expand_empty_base :
  expand [] [("jazz", ["Jazz"; "concert de jazz"; "  "; "jazz"]); ("bal", ["jazz"; "Bal"])]
  = ["Jazz"; "concert de jazz"; "jazz"; "Bal"; "bal"].
Proof. reflexivity. Qed.
Example expand_base_term :
  expand ["Jazz"] [("jazz", ["JAZZ"; "concert de jazz"]); ("bal", ["Bal"])]
  = ["Jazz"; "concert de jazz"].
Proof. reflexivity. Qed.
Example extract_weekday : _extract_date "mercredi 12 janvier" = "Mercredi 12 janvier".
Proof. vm_compute. reflexivity. Qed.
Example extract_numeric : _extract_date "Rendez-vous le 12/05/2024 au parc" = "12/05/2024".
Proof. vm_compute. reflexivity. Qed.
Example extract_month_only : _extract_date "<p>en mai, fais ce qu'il te plait</p>" = "Mai".
Proof. vm_compute. reflexivity. Qed.
Example extract_month_first : _extract_date "programme mai - salle 3" = "Mai 3".
Proof. vm_compute. reflexivity. Qed.

(** The two-page site of the specification's end-to-end property: two new
    events, two store entries, both not yet notified. *)
Example two_pages_two_events :
  let r := run Site.parse Site.render Site.accepts Site.env Site.config NoFile in
  map original_title (returned r) = ["Concert Jazz"; "Grand bal"]
  /\ map (fun kv => notified (snd kv)) (map_to_list (processed_events (scraper_after r)))
     = [false; false]
  /\ file_after r = JsonStore (processed_events (scraper_after r)).
Proof. vm_compute. repeat split; reflexivity. Qed.

(* ===================================================================== *)
(** * Lists of terms *)
(* ===================================================================== *)

Lemma mem_In (x : string) (xs : list string) : Py.mem x xs = true <-> In x xs.
Proof.
  unfold Py.mem. rewrite existsb_exists. split.
  - intros [y [Hy Heq]]. apply String.eqb_eq in Heq. now subst.
  - intros H. exists x. split; [assumption | apply String.eqb_refl].
Qed.

Lemma mem_not_In (x : string) (xs : list string) : Py.mem x xs = false <-> ~ In x xs.
Proof.
  rewrite <- mem_In. destruct (Py.mem x xs); split; intros H; congruence.
Qed.

Lemma append_new_In (xs : list string) (x y : string) :
  In y (append_new xs x) <-> In y xs \/ y = x.
Proof.
  unfold append_new. destruct (Py.mem x xs) eqn:E.
  - apply mem_In in E. split; [now left | intros [H | ->]; assumption].
  - rewrite in_app_iff. simpl. intuition congruence.
Qed.

Lemma NoDup_snoc (xs : list string) (x : string) :
  NoDup xs -> ~ In x xs -> NoDup (xs ++ [x]).
Proof.
  intros Hnd Hx. apply NoDup_app. split; [assumption |]. split.
  - intros y Hy Hin. apply list_elem_of_singleton in Hin. subst y.
    apply Hx. now apply list_elem_of_In.
  - apply NoDup_singleton.
Qed.

Lemma append_new_NoDup (xs : list string) (x : string) :
  NoDup xs -> NoDup (append_new xs x).
Proof.
  intros H. unfold append_new. destruct (Py.mem x xs) eqn:E; [assumption |].
  apply NoDup_snoc; [assumption | now apply mem_not_In].
Qed.

(** A loop that appends some of the items of [l], each at most once. *)
Lemma fold_append_new_In (p : string -> bool) (l acc : list string) (y : string) :
  In y (fold_left (fun acc x => if p x then append_new acc x else acc) l acc)
  <-> In y acc \/ (In y l /\ p y = true).
Proof.
  revert acc. induction l as [| x l IH]; intros acc; simpl.
  - intuition.
  - rewrite IH. destruct (p x) eqn:E.
    + rewrite append_new_In. intuition (subst; auto).
    + intuition (subst; auto; congruence).
Qed.

Lemma fold_append_new_NoDup (p : string -> bool) (l acc : list string) :
  NoDup acc ->
  NoDup (fold_left (fun acc x => if p x then append_new acc x else acc) l acc).
Proof.
  revert acc. induction l as [| x l IH]; intros acc H; simpl; [assumption |].
  apply IH. destruct (p x); [now apply append_new_NoDup | assumption].
Qed.

(* ===================================================================== *)
(** * What [_process_event] returns *)
(* ===================================================================== *)

Lemma generate_event_id_set_id (event : Event) (i : string) :
  _generate_event_id (set_id event i) = _generate_event_id event.
Proof. reflexivity. Qed.

(** Every field of a returned event, in terms of the fragment. *)
Lemma process_event_Some (BS : string -> node) (self : EventScraper)
      (now event_html : string) (ev : Event) :
  _process_event BS self now event_html = Some ev ->
  let soup := BS event_html in
  let website := Py.contains class_event_marker event_html in
  let t := title_of website soup in
  let full_text := Py.strip (get_text soup) in
  is_empty_str t = false
  /\ original_title ev = t
  /\ link ev = absolute_link self (raw_link_of website soup)
  /\ info ev = info_of t full_text
  /\ date ev = date_of event_html full_text
  /\ found_at ev = now
  /\ matching_terms ev = matching_terms_of self (_normalize_text t)
                                           (_normalize_text (info_of t full_text))
  /\ head (matching_terms ev) = Some (title ev)
  /\ id ev = Some (_generate_event_id ev).
Proof.
  unfold _process_event. cbv zeta.
  destruct (is_empty_str (title_of _ _)) eqn:Et; [discriminate |].
  destruct (matching_terms_of _ _ _) as [| first_term rest] eqn:Em; [discriminate |].
  intros [= <-]. unfold set_id.
  cbn [title original_title link info date found_at matching_terms id].
  repeat split; reflexivity.
Qed.

(** When no event is returned: the title is empty or no term matches. *)
Lemma process_event_None (BS : string -> node) (self : EventScraper)
      (now event_html : string) :
  _process_event BS self now event_html = None <->
  let soup := BS event_html in
  let website := Py.contains class_event_marker event_html in
  let t := title_of website soup in
  is_empty_str t = true
  \/ matching_terms_of self (_normalize_text t)
       (_normalize_text (info_of t (Py.strip (get_text soup)))) = [].
Proof.
  unfold _process_event. cbv zeta.
  destruct (is_empty_str (title_of _ _)) eqn:Et.
  - split; [now left | reflexivity].
  - destruct (matching_terms_of _ _ _) as [| first_term rest] eqn:Em.
    + split; [now right | reflexivity].
    + split; [discriminate | intros [H | H]; discriminate].
Qed.

Lemma matching_terms_of_In (self : EventScraper) (nt ni term : string) :
  In term (matching_terms_of self nt ni) <->
  In term (search_terms self) /\ term_matches (exact_matching self) term nt ni = true.
Proof.
  unfold matching_terms_of.
  rewrite (fold_append_new_In (fun term => term_matches (exact_matching self) term nt ni)).
  simpl. intuition.
Qed.

Lemma term_matches_mode (term nt ni : string) :
  term_matches true term nt ni = term_matches false term nt ni.
Proof. reflexivity. Qed.

Lemma is_empty_str_true (s : string) : is_empty_str s = true <-> s = EmptyString.
Proof. destruct s; simpl; split; congruence. Qed.

Lemma concert_processed :
  _process_event Site.parse Site.scraper0 "2024-05-01 10:00:00" (Site.render Site.concert)
  = Some Site.concert_event.
Proof. vm_compute. reflexivity. Qed.

Lemma plain_processed :
  _process_event Site.parse Site.scraper0 "2024-05-01 10:00:00" (Site.render Site.plain)
  = Some Site.plain_event.
Proof. vm_compute. reflexivity. Qed.

(* ===================================================================== *)
(** * Matching: the flag, the matching terms, the identifier *)
(* ===================================================================== *)

(** C4.  For every fragment, scraper, clock reading and parser, the result
    of [_process_event] is the same with [exact_matching] true and with
    [exact_matching] false: same event or none, hence same matching
    terms. *)
Theorem exact_matching_flag_is_inert (BS : string -> node) (self : EventScraper)
        (now event_html : string) :
  _process_event BS (set_exact_matching self true) now event_html
  = _process_event BS (set_exact_matching self false) now event_html.
Proof.
  unfold _process_event, matching_terms_of, absolute_link. simpl.
  reflexivity.
Qed.

(** C8.  An event returned by [_process_event] has a non-empty list of
    matching terms, each of them a search term of the scraper that
    matches the title or the description; and a fragment whose list of
    matching terms is empty gives no event. *)
Theorem matching_terms_nonempty_and_effective (BS : string -> node)
        (self : EventScraper) (now event_html : string) :
  (forall ev,
      _process_event BS self now event_html = Some ev ->
      matching_terms ev <> []
      /\ (forall term, In term (matching_terms ev) ->
                       In term (search_terms self)
                       /\ term_matches (exact_matching self) term
                            (_normalize_text (original_title ev))
                            (_normalize_text (info ev)) = true))
  /\ (let t := title_of (Py.contains class_event_marker event_html) (BS event_html) in
      matching_terms_of self (_normalize_text t)
        (_normalize_text (info_of t (Py.strip (get_text (BS event_html))))) = [] ->
      _process_event BS self now event_html = None).
Proof.
  split.
  - intros ev Hev.
    destruct (process_event_Some _ _ _ _ _ Hev)
      as (_ & Ht & _ & Hi & _ & _ & Hm & Hhd & _).
    split.
    + intros Hnil. rewrite Hnil in Hhd. discriminate.
    + intros term Hin. rewrite Hm in Hin. apply matching_terms_of_In in Hin.
      rewrite Ht, Hi. exact Hin.
  - cbv zeta. intros Hnil. apply process_event_None. now right.
Qed.

Lemma matching_terms_nonempty_and_effective_witness :
  matching_terms Site.concert_event <> []
  /\ (forall term, In term (matching_terms Site.concert_event) ->
                   In term (search_terms Site.scraper0)
                   /\ term_matches (exact_matching Site.scraper0) term
                        (_normalize_text (original_title Site.concert_event))
                        (_normalize_text (info Site.concert_event)) = true).
Proof.
  exact (proj1 (matching_terms_nonempty_and_effective
                  Site.parse Site.scraper0 "2024-05-01 10:00:00"
                  (Site.render Site.concert))
               Site.concert_event concert_processed).
Defined.

(** C7.  The identifier of a returned event is the MD5 hex digest of
    [title-date-link], where [title] is the display title, that is the
    first matching term; two returned events with the same display title,
    date and link have the same identifier, whatever the scraper, the
    parser and the time. *)
Theorem event_id_is_md5_of_display_triple (BS : string -> node) (self : EventScraper)
        (now event_html : string) (ev : Event) :
  _process_event BS self now event_html = Some ev ->
  id ev = Some (Md5.hexdigest
                  (Py.encode_utf8 (title ev +:+ "-" +:+ date ev +:+ "-" +:+ link ev)))
  /\ head (matching_terms ev) = Some (title ev)
  /\ (forall BS' self' now' event_html' ev',
         _process_event BS' self' now' event_html' = Some ev' ->
         title ev' = title ev -> date ev' = date ev -> link ev' = link ev ->
         id ev' = id ev).
Proof.
  intros Hev.
  destruct (process_event_Some _ _ _ _ _ Hev) as (_ & _ & _ & _ & _ & _ & _ & Hhd & Hid).
  split; [exact Hid |]. split; [exact Hhd |].
  intros BS' self' now' html' ev' Hev' Ht Hd Hl.
  destruct (process_event_Some _ _ _ _ _ Hev') as (_ & _ & _ & _ & _ & _ & _ & _ & Hid').
  rewrite Hid, Hid'. unfold _generate_event_id. now rewrite Ht, Hd, Hl.
Qed.

Lemma event_id_is_md5_of_display_triple_witness :
  id Site.concert_event
  = Some (Md5.hexdigest
            (Py.encode_utf8 "jazz--https://city.example/agenda/events/42"))
  /\ title Site.concert_event <> original_title Site.concert_event.
Proof.
  split.
  - exact (proj1 (event_id_is_md5_of_display_triple
                    Site.parse Site.scraper0 "2024-05-01 10:00:00"
                    (Site.render Site.concert) Site.concert_event concert_processed)).
  - discriminate.
Defined.

(* ===================================================================== *)
(** * The link of an event *)
(* ===================================================================== *)

(** The link read from a fragment whose first anchor carries [href]. *)
Lemma raw_link_of_first_anchor (website : bool) (soup a : node) (href : string) :
  Bs4.find "a" soup = Some a -> get_attr "href" a = Some href ->
  raw_link_of website soup = href.
Proof.
  intros Hfind Hhref. unfold raw_link_of. destruct website.
  - unfold Bs4.find in Hfind.
    destruct (find_all ["a"] soup) as [| a0 rest]; simpl in Hfind; [discriminate |].
    injection Hfind as ->. simpl. unfold has_attr. rewrite Hhref. now rewrite Hhref.
  - rewrite Hfind, Hhref. reflexivity.
Qed.

(** C2, as the code has it.  For every scraper and every fragment whose
    first anchor has an href, a returned event has this link: the href
    itself when it does not start with [/]; otherwise the href put after
    the scraper's whole URL, from which one trailing slash is removed
    first.  The path of the URL is kept: with the URL
    [https://city.example/agenda], with or without a slash at its end, the
    href [/events/42] gives [https://city.example/agenda/events/42]. *)
Theorem root_relative_link_is_appended_to_page_url (BS : string -> node)
        (self : EventScraper) (now event_html : string) (a : node) (href : string)
        (ev : Event) :
  Bs4.find "a" (BS event_html) = Some a ->
  get_attr "href" a = Some href ->
  _process_event BS self now event_html = Some ev ->
  (Py.startswith "/" href = true ->
   link ev
   = (if Py.endswith "/" (url self) then Py.drop_last (url self) else url self) +:+ href)
  /\ (Py.startswith "/" href = false -> link ev = href)
  /\ (href = "/events/42" ->
      url self = "https://city.example/agenda"
      \/ url self = "https://city.example/agenda/" ->
      link ev = "https://city.example/agenda/events/42").
Proof.
  intros Hfind Hhref Hev.
  destruct (process_event_Some _ _ _ _ _ Hev) as (_ & _ & Hlink & _).
  rewrite Hlink, (raw_link_of_first_anchor _ _ _ _ Hfind Hhref).
  unfold absolute_link. split; [| split].
  - intros Hs. rewrite Hs. reflexivity.
  - intros Hs. rewrite Hs. reflexivity.
  - intros -> [Hurl | Hurl]; rewrite Hurl; reflexivity.
Qed.

(** The fragment of the example on the page URL without and with a slash at
    its end gives the same link, which keeps the path [/agenda]. *)
Lemma root_relative_link_is_appended_to_page_url_witness :
  link Site.concert_event = "https://city.example/agenda/events/42"
  /\ forall ev,
      _process_event Site.parse
                     (init {| cfg_url := "https://city.example/agenda/";
                              cfg_data_file := "scrap_cityevent/data/events.json";
                              cfg_max_pages := 5; cfg_search_terms := ["jazz"];
                              cfg_debug := false; cfg_exact_matching := true;
                              cfg_term_variants := [] |} NoFile)
                     "2024-05-01 10:00:00" (Site.render Site.concert) = Some ev ->
      link ev = "https://city.example/agenda" +:+ "/events/42".
Proof.
  split.
  - exact (proj2 (proj2 (root_relative_link_is_appended_to_page_url
                           Site.parse Site.scraper0 "2024-05-01 10:00:00"
                           (Site.render Site.concert)
                           (Tag "a" [("href", "/events/42")] [Text "Details"]) "/events/42"
                           Site.concert_event eq_refl eq_refl concert_processed))
                 eq_refl (or_introl eq_refl)).
  - intros ev Hev.
    exact (proj1 (root_relative_link_is_appended_to_page_url
                    Site.parse _ "2024-05-01 10:00:00" (Site.render Site.concert)
                    (Tag "a" [("href", "/events/42")] [Text "Details"]) "/events/42"
                    ev eq_refl eq_refl Hev) eq_refl).
Defined.

(** C2 as stated fails: the fragment of the specification's example, on the
    page [https://city.example/agenda], gets a link that keeps the path of
    the page URL, not [https://city.example/events/42]. *)
Lemma root_relative_link_counterexample :
  url Site.scraper0 = "https://city.example/agenda"
  /\ Bs4.find "a" (Site.parse (Site.render Site.concert))
     = Some (Tag "a" [("href", "/events/42")] [Text "Details"])
  /\ exists ev,
      _process_event Site.parse Site.scraper0 "2024-05-01 10:00:00"
                     (Site.render Site.concert) = Some ev
      /\ link ev = "https://city.example/agenda/events/42"
      /\ link ev <> "https://city.example/events/42".
Proof.
  split; [reflexivity |]. split; [reflexivity |].
  exists Site.concert_event. split; [exact concert_processed |].
  split; [reflexivity | discriminate].
Qed.

(* ===================================================================== *)
(** * Term expansion without base terms *)
(* ===================================================================== *)

Lemma expand_nil (V : list (string * list string)) :
  expand [] V = add_all_variants V [].
Proof. destruct V; reflexivity. Qed.

Lemma add_nonblank_step (acc : list string) (v : string) :
  (if (negb (is_empty_str (Py.strip v)) && negb (Py.mem v acc))%bool
   then acc ++ [v] else acc)
  = (if nonblank v then append_new acc v else acc).
Proof.
  unfold nonblank, append_new.
  destruct (is_empty_str (Py.strip v)), (Py.mem v acc); reflexivity.
Qed.

Lemma fold_left_ext {A B : Type} (f g : A -> B -> A) (l : list B) (a : A) :
  (forall a b, f a b = g a b) -> fold_left f l a = fold_left g l a.
Proof.
  intros H. revert a. induction l as [| b l IH]; intros a; simpl; [reflexivity |].
  rewrite H. apply IH.
Qed.

(** The variants loop of one key. *)
Lemma add_key_variants_In (vs acc : list string) (y : string) :
  In y (fold_left
          (fun acc variant =>
             if (negb (is_empty_str (Py.strip variant)) && negb (Py.mem variant acc))%bool
             then acc ++ [variant] else acc) vs acc)
  <-> In y acc \/ (In y vs /\ nonblank y = true).
Proof.
  rewrite (fold_left_ext _ (fun acc v => if nonblank v then append_new acc v else acc));
    [| apply add_nonblank_step].
  apply fold_append_new_In.
Qed.

Lemma add_key_variants_NoDup (vs acc : list string) :
  NoDup acc ->
  NoDup (fold_left
           (fun acc variant =>
              if (negb (is_empty_str (Py.strip variant)) && negb (Py.mem variant acc))%bool
              then acc ++ [variant] else acc) vs acc).
Proof.
  rewrite (fold_left_ext _ (fun acc v => if nonblank v then append_new acc v else acc));
    [| apply add_nonblank_step].
  apply fold_append_new_NoDup.
Qed.

(** The loop over the keys that adds the keys themselves. *)
Lemma add_keys_In (V : list (string * list string)) (acc : list string) (y : string) :
  In y (fold_left (fun acc kv => append_new acc (fst kv)) V acc)
  <-> In y acc \/ In y (map fst V).
Proof.
  revert acc. induction V as [| kv V IH]; intros acc; simpl.
  - intuition.
  - rewrite IH, append_new_In. intuition.
Qed.

Lemma add_keys_NoDup (V : list (string * list string)) (acc : list string) :
  NoDup acc -> NoDup (fold_left (fun acc kv => append_new acc (fst kv)) V acc).
Proof.
  revert acc. induction V as [| kv V IH]; intros acc H; simpl; [assumption |].
  apply IH. now apply append_new_NoDup.
Qed.

Lemma add_all_variants_In (V : list (string * list string)) (acc : list string) (y : string) :
  In y (add_all_variants V acc)
  <-> In y acc
      \/ (exists k vs, In (k, vs) V /\ In y vs /\ nonblank y = true)
      \/ In y (map fst V).
Proof.
  unfold add_all_variants. rewrite add_keys_In.
  assert (Hvar : forall (V : list (string * list string)) acc,
             In y (fold_left
                     (fun acc kv =>
                        fold_left
                          (fun acc variant =>
                             if (negb (is_empty_str (Py.strip variant))
                                 && negb (Py.mem variant acc))%bool
                             then acc ++ [variant] else acc)
                          (snd kv) acc) V acc)
             <-> In y acc \/ (exists k vs, In (k, vs) V /\ In y vs /\ nonblank y = true)).
  { clear. induction V as [| [k vs] V IH]; intros acc; simpl.
    - split; [now left | intros [H | (k & vs & [] & _)]; assumption].
    - rewrite IH, add_key_variants_In. split.
      + intros [[H | [H1 H2]] | (k' & vs' & H1 & H2)].
        * now left.
        * right. exists k, vs. auto.
        * right. exists k', vs'. auto.
      + intros [H | (k' & vs' & [H1 | H1] & H2)].
        * left. now left.
        * injection H1 as -> ->. left. right. exact H2.
        * right. exists k', vs'. auto. }
  rewrite Hvar. tauto.
Qed.

Lemma add_all_variants_NoDup (V : list (string * list string)) (acc : list string) :
  NoDup acc -> NoDup (add_all_variants V acc).
Proof.
  intros H. unfold add_all_variants. apply add_keys_NoDup.
  revert acc H. induction V as [| kv V IH]; intros acc H; simpl; [assumption |].
  apply IH. now apply add_key_variants_NoDup.
Qed.

(** C3, as the code has it.  For every variant map [V], the expansion of an
    empty list of base terms contains every key of [V] and every variant
    value that is not blank, and no string occurs in it twice. *)
Theorem expand_empty_base_contents (V : list (string * list string)) :
  contains_every_key V (expand [] V)
  /\ (forall k vs v, In (k, vs) V -> In v vs -> Py.strip v <> EmptyString ->
                     In v (expand [] V))
  /\ NoDup (expand [] V).
Proof.
  rewrite expand_nil. split; [| split].
  - intros k vs Hin. apply add_all_variants_In. right. right.
    apply in_map_iff. exists (k, vs). auto.
  - intros k vs v Hin Hv Hblank. apply add_all_variants_In. right. left.
    exists k, vs. repeat split; try assumption.
    unfold nonblank. destruct (is_empty_str (Py.strip v)) eqn:E; [| reflexivity].
    apply is_empty_str_true in E. contradiction.
  - apply add_all_variants_NoDup. constructor.
Qed.

Lemma expand_empty_base_contents_witness :
  In "Jazz" (expand [] [("Jazz", ["jazz"; " "])])
  /\ In "jazz" (expand [] [("Jazz", ["jazz"; " "])])
  /\ NoDup (expand [] [("Jazz", ["jazz"; " "])]).
Proof.
  destruct (expand_empty_base_contents [("Jazz", ["jazz"; " "])]) as (Hk & Hv & Hn).
  split; [| split].
  - apply (Hk "Jazz" ["jazz"; " "]). now left.
  - apply (Hv "Jazz" ["jazz"; " "] "jazz"); [now left | now left | discriminate].
  - exact Hn.
Defined.

(** C3 as stated fails on the map [{"Jazz": ["jazz", " "]}]: the blank
    variant is left out, and [jazz] and [Jazz] are both kept although they
    are equal when compared without case. *)
Lemma expand_empty_base_counterexample :
  expand [] [("Jazz", ["jazz"; " "])] = ["jazz"; "Jazz"]
  /\ ~ contains_every_variant [("Jazz", ["jazz"; " "])] (expand [] [("Jazz", ["jazz"; " "])])
  /\ ~ no_duplicates_ignoring_case (expand [] [("Jazz", ["jazz"; " "])])
  /\ ~ stated_expansion [("Jazz", ["jazz"; " "])].
Proof.
  assert (Hvar : ~ contains_every_variant [("Jazz", ["jazz"; " "])]
                   (expand [] [("Jazz", ["jazz"; " "])])).
  { intros H. specialize (H "Jazz" ["jazz"; " "] " ").
    vm_compute in H.
    destruct H as [H | [H | []]]; [now left | now (right; left) | discriminate | discriminate]. }
  split; [reflexivity |]. split; [exact Hvar |]. split.
  - unfold no_duplicates_ignoring_case. vm_compute. intros H.
    apply NoDup_cons in H. destruct H as [H _]. apply H. constructor.
  - intros (_ & H & _). exact (Hvar H).
Qed.

(* ===================================================================== *)
(** * Numeric dates *)
(* ===================================================================== *)









(* ===================================================================== *)
(** * The title of an event *)
(* ===================================================================== *)

(** The nested conditionals of lines 395-428 are a first-success cascade. *)
Lemma title_of_cascade (website : bool) (soup : node) :
  title_of website soup
  = title_by (if website then website_title_strategies else other_title_strategies) soup.
Proof.
  unfold title_of, title_by, title_elem_of, first_success,
    website_title_strategies, other_title_strategies.
  destruct website; cbn [first_some].
  - destruct (Bs4.find "h2" soup); [reflexivity |].
    destruct (Bs4.find "strong" soup); [reflexivity |].
    destruct (List.find _ _); reflexivity.
  - destruct (Bs4.find "h2" soup); [reflexivity |].
    destruct (Bs4.find "h3" soup); [reflexivity |].
    destruct (Bs4.find "h4" soup); [reflexivity |].
    destruct (Bs4.find ".event-title" soup); [reflexivity |].
    destruct (Bs4.find "strong" soup); [reflexivity |].
    destruct (List.find _ _); reflexivity.
Qed.

(** C6, as the code has it.  The title of a fragment is read from the first
    success of an ordered list of strategies, which depends on whether the
    fragment's text has the marker [class="event"]: with the marker, the
    first [h2], the first [strong], the first [div], [p] or [span] with
    more than 10 characters of stripped text; without it, the first [h2],
    [h3], [h4], [strong], then the first [p], [div] or [span] whose
    stripped text is not empty.  When no strategy succeeds the title is the
    first line of all text, cut at 100 characters.  No event is returned
    when that title is empty, and a returned event keeps it as
    [original_title]. *)
Theorem title_resolution_order (BS : string -> node) (self : EventScraper)
        (now event_html : string) :
  let t := title_by (title_strategies event_html) (BS event_html) in
  (t = EmptyString -> _process_event BS self now event_html = None)
  /\ (forall ev,
         _process_event BS self now event_html = Some ev ->
         original_title ev = t /\ t <> EmptyString).
Proof.
  cbv zeta. unfold title_strategies.
  rewrite <- title_of_cascade. split.
  - intros Ht. apply process_event_None. left. cbv zeta. now rewrite Ht.
  - intros ev Hev.
    destruct (process_event_Some _ _ _ _ _ Hev) as (Hne & Ht & _).
    split; [exact Ht |]. intros Hempty. rewrite Hempty in Hne. discriminate.
Qed.

Lemma title_resolution_order_witness :
  original_title Site.plain_event
  = title_by other_title_strategies (Site.parse (Site.render Site.plain))
  /\ title_by other_title_strategies (Site.parse (Site.render Site.plain)) <> EmptyString.
Proof.
  exact (proj2 (title_resolution_order Site.parse Site.scraper0 "2024-05-01 10:00:00"
                                       (Site.render Site.plain))
               Site.plain_event plain_processed).
Defined.

(** C6 as stated fails on a fragment without the marker, without heading
    and without bold text: the code takes the first paragraph, [Jazz],
    although it has fewer than 11 characters; the stated order would take
    an element with more than 10 characters of text. *)
Lemma title_resolution_counterexample :
  Py.contains class_event_marker (Site.render Site.plain) = false
  /\ _process_event Site.parse Site.scraper0 "2024-05-01 10:00:00" (Site.render Site.plain)
     = Some Site.plain_event
  /\ original_title Site.plain_event = "Jazz"
  /\ title_by stated_title_strategies (Site.parse (Site.render Site.plain))
     = "JazzConcert de jazz ce soir"
  /\ title_by stated_title_strategies_narrow (Site.parse (Site.render Site.plain))
     = "Concert de jazz ce soir"
  /\ ~ (forall BS self now event_html ev,
           _process_event BS self now event_html = Some ev ->
           original_title ev = title_by stated_title_strategies (BS event_html)).
Proof.
  split; [vm_compute; reflexivity |].
  split; [exact plain_processed |].
  split; [reflexivity |].
  split; [vm_compute; reflexivity |].
  split; [vm_compute; reflexivity |].
  intros H. specialize (H _ _ _ _ _ plain_processed). vm_compute in H. discriminate.
Qed.

(* ===================================================================== *)
(** * The walk *)
(* ===================================================================== *)

Section WalkProofs.

Variable BS : string -> node.
Variable str_of : node -> string.
Variable parses : string -> bool.

Local Abbreviation step' := (step BS str_of).
Local Abbreviation walk' := (walk BS str_of parses).
Local Abbreviation process_elem' := (process_elem BS str_of).
Local Abbreviation process_elems' := (process_elems BS str_of).

Lemma same_settings_refl (a : EventScraper) : same_settings a a.
Proof. repeat split. Qed.

Lemma same_settings_sym (a b : EventScraper) : same_settings a b -> same_settings b a.
Proof. unfold same_settings. intuition congruence. Qed.

Lemma same_settings_trans (a b c : EventScraper) :
  same_settings a b -> same_settings b c -> same_settings a c.
Proof. unfold same_settings. intuition congruence. Qed.

Lemma same_settings_store (a : EventScraper) (m : gmap string ProcessedRecord) :
  same_settings (set_processed_events a m) a.
Proof. repeat split. Qed.

(** The identifier of a fragment's event depends neither on the clock
    nor on the store. *)
Lemma process_event_id_indep (a b : EventScraper) (now1 now2 event_html : string) :
  same_settings a b ->
  option_map id (_process_event BS a now1 event_html)
  = option_map id (_process_event BS b now2 event_html).
Proof.
  destruct a, b. unfold same_settings. simpl.
  intros (-> & -> & -> & -> & ->).
  unfold _process_event, matching_terms_of, absolute_link.
  cbn [url search_terms exact_matching].
  destruct (is_empty_str _); [reflexivity |].
  destruct (fold_left _ _ _); reflexivity.
Qed.

Lemma process_event_has_id (self : EventScraper) (now event_html : string) (ev : Event) :
  _process_event BS self now event_html = Some ev -> exists i, id ev = Some i.
Proof.
  intros H. destruct (process_event_Some _ _ _ _ _ H) as (_ & _ & _ & _ & _ & _ & _ & _ & Hid).
  eauto.
Qed.

(** An event found for a fragment under one clock and store is found
    under any other, with the same identifier. *)
Lemma process_event_transfer (a b : EventScraper) (now1 now2 event_html : string)
      (ev : Event) (i : string) :
  same_settings a b ->
  _process_event BS a now1 event_html = Some ev -> id ev = Some i ->
  exists ev', _process_event BS b now2 event_html = Some ev' /\ id ev' = Some i.
Proof.
  intros Hs Hev Hid.
  pose proof (process_event_id_indep a b now1 now2 event_html Hs) as H.
  rewrite Hev in H. simpl in H.
  destruct (_process_event BS b now2 event_html) as [ev' |]; [| discriminate].
  exists ev'. split; [reflexivity |]. simpl in H. congruence.
Qed.

(** [event['id']] never fails on an event of [_process_event]. *)
Lemma process_elem_step (env : Env) (w : Walk) (e : node) :
  process_elem' env w e = Done (step' env w e).
Proof.
  unfold process_elem, step.
  destruct (_process_event BS (scraper w) (now env (ticks w)) (str_of e)) as [ev |] eqn:Hev;
    [| reflexivity].
  destruct (process_event_has_id _ _ _ _ Hev) as [i Hi]. rewrite Hi.
  destruct (processed_events (scraper w) !! i); reflexivity.
Qed.

Lemma process_elems_fold (env : Env) (es : list node) (w : Walk) :
  process_elems' env w es = Done (fold_left (step' env) es w).
Proof.
  revert w. induction es as [| e es IH]; intros w; simpl; [reflexivity |].
  rewrite process_elem_step. apply IH.
Qed.

Lemma step_settings (env : Env) (w : Walk) (e : node) :
  same_settings (scraper (step' env w e)) (scraper w).
Proof.
  unfold step.
  destruct (_process_event _ _ _ _) as [ev |]; [| apply same_settings_refl].
  destruct (id ev) as [i |]; [| apply same_settings_refl].
  destruct (processed_events (scraper w) !! i);
    [apply same_settings_refl | apply same_settings_store].
Qed.

Lemma fold_step_settings (env : Env) (es : list node) (w : Walk) :
  same_settings (scraper (fold_left (step' env) es w)) (scraper w).
Proof.
  revert w. induction es as [| e es IH]; intros w; simpl; [apply same_settings_refl |].
  eapply same_settings_trans; [apply IH | apply step_settings].
Qed.

Lemma next_page_of_url (a b : EventScraper) (soup : node) :
  url a = url b -> next_page_of a soup = next_page_of b soup.
Proof. intros H. unfold next_page_of. now rewrite H. Qed.

Lemma fetched_pages_url (site : string -> option string) (a b : EventScraper)
      (budget : nat) (u : string) :
  url a = url b ->
  fetched_pages BS parses site a budget u = fetched_pages BS parses site b budget u.
Proof.
  intros H. revert u. induction budget as [| n IH]; intros u; simpl; [reflexivity |].
  destruct (is_empty_str u); [reflexivity |].
  destruct (site u) as [text |]; [| reflexivity].
  destruct (parses text); [| reflexivity].
  rewrite (next_page_of_url a b _ H).
  destruct (next_page_of b (BS text)) as [next_page |]; [| reflexivity].
  destruct (is_empty_str next_page); [reflexivity |]. now rewrite IH.
Qed.

Lemma requested_urls_url (site : string -> option string) (a b : EventScraper)
      (budget : nat) (u : string) :
  url a = url b ->
  requested_urls BS parses site a budget u = requested_urls BS parses site b budget u.
Proof.
  intros H. revert u. induction budget as [| n IH]; intros u; simpl; [reflexivity |].
  destruct (is_empty_str u); [reflexivity |].
  destruct (site u) as [text |]; [| reflexivity].
  destruct (parses text); [| reflexivity].
  rewrite (next_page_of_url a b _ H).
  destruct (next_page_of b (BS text)) as [next_page |]; [| reflexivity].
  destruct (is_empty_str next_page); [reflexivity |]. now rewrite IH.
Qed.

(** A request of the walk fails, or the parser refuses a page, exactly
    when not all pages are fetched and parsed. *)
Lemma fails_iff_not_fetched (site : string -> option string) (self : EventScraper)
      (budget : nat) (u : string) :
  existsb (fails site) (requested_urls BS parses site self budget u) = true
  \/ existsb (refused parses site) (requested_urls BS parses site self budget u) = true
  <-> fetched_pages BS parses site self budget u = None.
Proof.
  revert u. induction budget as [| n IH]; intros u; simpl.
  - split; [intros [H | H]; discriminate | discriminate].
  - destruct (is_empty_str u); simpl; [split; [intros [H | H]; discriminate | discriminate] |].
    unfold fails at 1, refused at 1. destruct (site u) as [text |]; simpl; [| tauto].
    destruct (parses text); simpl; [| tauto].
    destruct (next_page_of self (BS text)) as [next_page |]; simpl;
      [| split; [intros [H | H]; discriminate | discriminate]].
    destruct (is_empty_str next_page); simpl;
      [split; [intros [H | H]; discriminate | discriminate] |].
    rewrite IH. destruct (fetched_pages BS parses site self n next_page); simpl;
      split; congruence.
Qed.

(** The walk over pages that are all fetched is one pass over their
    event elements. *)
Lemma walk_fetched (env : Env) (budget : nat) (u : string) (w : Walk) (ps : list node) :
  fetched_pages BS parses (get env) (scraper w) budget u = Some ps ->
  walk' env budget u w
  = Done (fold_left (step' env) (flat_map event_elements_of ps) w).
Proof.
  revert u w ps. induction budget as [| n IH]; intros u w ps; simpl.
  - intros [= <-]. reflexivity.
  - destruct (is_empty_str u); [intros [= <-]; reflexivity |].
    destruct (get env u) as [text |]; [| discriminate].
    destruct (parses text); [| discriminate].
    rewrite process_elems_fold.
    set (w' := fold_left (step' env) (event_elements_of (BS text)) w).
    assert (Hurl : url (scraper w') = url (scraper w))
      by (apply (fold_step_settings env (event_elements_of (BS text)) w)).
    rewrite (next_page_of_url _ _ _ Hurl).
    destruct (next_page_of (scraper w) (BS text)) as [next_page |].
    + destruct (is_empty_str next_page).
      * intros [= <-]. simpl. rewrite app_nil_r. reflexivity.
      * destruct (fetched_pages BS parses (get env) (scraper w) n next_page) as [ps' |] eqn:Hps;
          [| discriminate].
        intros [= <-]. simpl. rewrite fold_left_app. fold w'.
        apply IH. rewrite <- Hps. now apply fetched_pages_url.
    + intros [= <-]. simpl. rewrite app_nil_r. reflexivity.
Qed.

(** The walk raises when a request fails or a page is refused. *)
Lemma walk_not_fetched (env : Env) (budget : nat) (u : string) (w : Walk) :
  fetched_pages BS parses (get env) (scraper w) budget u = None ->
  exists w', walk' env budget u w = Raised w'.
Proof.
  revert u w. induction budget as [| n IH]; intros u w; simpl.
  - discriminate.
  - destruct (is_empty_str u); [discriminate |].
    destruct (get env u) as [text |]; [| eauto].
    destruct (parses text); [| eauto].
    rewrite process_elems_fold.
    set (w' := fold_left (step' env) (event_elements_of (BS text)) w).
    assert (Hurl : url (scraper w') = url (scraper w))
      by (apply (fold_step_settings env (event_elements_of (BS text)) w)).
    rewrite (next_page_of_url _ _ _ Hurl).
    destruct (next_page_of (scraper w) (BS text)) as [next_page |]; [| discriminate].
    destruct (is_empty_str next_page); [discriminate |].
    destruct (fetched_pages BS parses (get env) (scraper w) n next_page) eqn:Hps; [discriminate |].
    intros _. apply IH. rewrite <- Hps. now apply fetched_pages_url.
Qed.

End WalkProofs.

Section StoreProofs.

Variable BS : string -> node.
Variable str_of : node -> string.
Variable parses : string -> bool.

Local Abbreviation step1 := (step BS str_of).

Lemma step_store_mono (env : Env) (w : Walk) (e : node) (i : string) :
  is_Some (processed_events (scraper w) !! i) ->
  is_Some (processed_events (scraper (step1 env w e)) !! i).
Proof.
  intros H. unfold step.
  destruct (_process_event _ _ _ _) as [ev |]; [| exact H].
  destruct (id ev) as [j |]; [| exact H].
  destruct (processed_events (scraper w) !! j) eqn:Ej; [exact H |].
  cbn [scraper set_processed_events processed_events].
  destruct (decide (j = i)) as [-> | Hne].
  - rewrite lookup_insert_eq. eauto.
  - now rewrite lookup_insert_ne.
Qed.

Lemma fold_store_mono (env : Env) (es : list node) (w : Walk) (i : string) :
  is_Some (processed_events (scraper w) !! i) ->
  is_Some (processed_events (scraper (fold_left (step1 env) es w)) !! i).
Proof.
  revert w. induction es as [| e es IH]; intros w H; simpl; [exact H |].
  apply IH. now apply step_store_mono.
Qed.

(** After an element is handled, the identifier of its event is in the
    store, whichever clock reading the event is built with. *)
Lemma step_records (env : Env) (w : Walk) (e : node) (reading : string) (ev : Event) :
  _process_event BS (scraper w) reading (str_of e) = Some ev ->
  exists i, id ev = Some i
            /\ is_Some (processed_events (scraper (step1 env w e)) !! i).
Proof.
  intros Hev. destruct (process_event_has_id BS _ _ _ _ Hev) as [i Hi].
  exists i. split; [exact Hi |].
  destruct (process_event_transfer BS (scraper w) (scraper w) reading
              (now env (ticks w)) (str_of e) ev i (same_settings_refl _) Hev Hi)
    as (ev' & Hev' & Hi').
  unfold step. rewrite Hev', Hi'.
  destruct (processed_events (scraper w) !! i) eqn:Ei.
  - cbn [scraper]. rewrite Ei. eauto.
  - cbn [scraper set_processed_events processed_events].
    rewrite lookup_insert_eq. eauto.
Qed.

Lemma covered_settings (a b : EventScraper) (m : gmap string ProcessedRecord)
      (es : list node) :
  same_settings a b -> covered BS str_of a m es -> covered BS str_of b m es.
Proof.
  intros Hs Hc e Hin reading ev Hev.
  destruct (process_event_has_id BS _ _ _ _ Hev) as [i Hi].
  destruct (process_event_transfer BS b a reading reading (str_of e) ev i
              (same_settings_sym _ _ Hs) Hev Hi) as (ev' & Hev' & Hi').
  destruct (Hc e Hin reading ev' Hev') as (j & Hj & Hsome).
  exists i. split; [exact Hi |]. congruence.
Qed.

Lemma covered_mono (self : EventScraper) (m m' : gmap string ProcessedRecord)
      (es : list node) :
  (forall i, is_Some (m !! i) -> is_Some (m' !! i)) ->
  covered BS str_of self m es -> covered BS str_of self m' es.
Proof.
  intros Hm Hc e Hin reading ev Hev.
  destruct (Hc e Hin reading ev Hev) as (i & Hi & Hsome). eauto.
Qed.

(** One pass over the elements leaves the identifiers of all their events
    in the store. *)
Lemma fold_covers (env : Env) (es : list node) (w : Walk) :
  covered BS str_of (scraper w)
          (processed_events (scraper (fold_left (step1 env) es w))) es.
Proof.
  revert w. induction es as [| e es IH]; intros w; [intros e [] |].
  intros e0 [<- | Hin] reading ev Hev; simpl.
  - destruct (step_records env w e reading ev Hev) as (i & Hi & Hsome).
    exists i. split; [exact Hi | now apply fold_store_mono].
  - apply (covered_settings (scraper (step1 env w e)) (scraper w)
             _ es (step_settings BS str_of env w e) (IH (step1 env w e)) e0 Hin reading ev Hev).
Qed.

(** A pass over elements whose events are all in the store adds nothing. *)
Lemma fold_no_news (env : Env) (es : list node) (w : Walk) :
  covered BS str_of (scraper w) (processed_events (scraper w)) es ->
  new_events (fold_left (step1 env) es w) = new_events w
  /\ scraper (fold_left (step1 env) es w) = scraper w.
Proof.
  revert w. induction es as [| e es IH]; intros w Hc; simpl; [split; reflexivity |].
  assert (Hstep : new_events (step1 env w e) = new_events w
                  /\ scraper (step1 env w e) = scraper w).
  { unfold step.
    destruct (_process_event BS (scraper w) (now env (ticks w)) (str_of e)) as [ev |] eqn:Hev;
      [| split; reflexivity].
    destruct (Hc e (or_introl eq_refl) _ _ Hev) as (i & Hi & [r Hr]).
    rewrite Hi, Hr. split; reflexivity. }
  destruct Hstep as [Hn Hs].
  destruct (IH (step1 env w e)) as [Hn' Hs'].
  - rewrite Hs. intros e0 Hin. apply Hc. now right.
  - split; congruence.
Qed.

Lemma step_ids_recorded (env : Env) (w : Walk) (e : node) :
  ids_recorded w -> ids_recorded (step1 env w e).
Proof.
  intros [Hnd Hrec]. unfold step.
  destruct (_process_event BS (scraper w) (now env (ticks w)) (str_of e)) as [ev |] eqn:Hev;
    [| split; assumption].
  destruct (id ev) as [i |] eqn:Hi; [| split; assumption].
  destruct (processed_events (scraper w) !! i) eqn:Ei; [split; assumption |].
  split; cbn [new_events scraper set_processed_events processed_events].
  - rewrite map_app. simpl. apply NoDup_app. split; [exact Hnd |]. split.
    + intros x Hx Hx'. apply list_elem_of_singleton in Hx'. subst x.
      apply list_elem_of_In, in_map_iff in Hx. destruct Hx as (ev0 & Hid0 & Hin0).
      destruct (Hrec ev0 Hin0) as (j & Hj & [r Hr]).
      assert (i = j) as -> by congruence. congruence.
    + apply NoDup_singleton.
  - intros ev0 Hin. apply in_app_iff in Hin. destruct Hin as [Hin | [<- | []]].
    + destruct (Hrec ev0 Hin) as (j & Hj & Hsome). exists j. split; [exact Hj |].
      destruct (decide (i = j)) as [-> | Hne].
      * rewrite lookup_insert_eq. eauto.
      * now rewrite lookup_insert_ne.
    + exists i. split; [exact Hi |]. rewrite lookup_insert_eq. eauto.
Qed.

Lemma fold_ids_recorded (env : Env) (es : list node) (w : Walk) :
  ids_recorded w -> ids_recorded (fold_left (step1 env) es w).
Proof.
  revert w. induction es as [| e es IH]; intros w H; simpl; [exact H |].
  apply IH. now apply step_ids_recorded.
Qed.

Lemma terms_from_variants_fields (self : EventScraper) :
  url (terms_from_variants self) = url self
  /\ max_pages (terms_from_variants self) = max_pages self
  /\ processed_events (terms_from_variants self) = processed_events self.
Proof.
  unfold terms_from_variants.
  destruct (search_terms self), (term_variants self); repeat split.
Qed.

Lemma terms_from_variants_settings (a b : EventScraper) :
  same_settings a b -> same_settings (terms_from_variants a) (terms_from_variants b).
Proof.
  intros (Hu & Hm & He & Hs & Hv). unfold terms_from_variants.
  rewrite Hs, Hv.
  destruct (search_terms b) eqn:Eb, (term_variants b) eqn:Ev;
    unfold same_settings; simpl; repeat split; congruence.
Qed.

(** The three ways [find_new_events] ends: without terms, after a walk
    all of whose pages were fetched, after a walk that raised. *)
Lemma find_new_events_outcome (env : Env) (self : EventScraper) (t : nat) (f : DataFile) :
  let r := find_new_events BS str_of parses env self t f in
  let fetched :=
    fetched_pages BS parses (get env) self (Z.to_nat (max_pages self)) (url self) in
  let w0 := {| scraper := terms_from_variants self; new_events := []; ticks := t |} in
  (search_terms self = [] /\ term_variants self = []
   /\ returned r = [] /\ file_after r = f /\ scraper_after r = self)
  \/ (~ (search_terms self = [] /\ term_variants self = [])
      /\ exists ps,
          fetched = Some ps
          /\ let wf := fold_left (step1 env) (flat_map event_elements_of ps) w0 in
             returned r = new_events wf /\ scraper_after r = scraper wf
             /\ file_after r = _save_processed_events env (scraper wf) f)
  \/ (fetched = None /\ returned r = [] /\ file_after r = f).
Proof.
  cbv zeta.
  assert (Hwalk :
            ~ (search_terms self = [] /\ term_variants self = []) ->
            find_new_events BS str_of parses env self t f
            = match walk BS str_of parses env (Z.to_nat (max_pages (terms_from_variants self)))
                         (url (terms_from_variants self))
                         {| scraper := terms_from_variants self; new_events := [];
                            ticks := t |} with
              | Done w =>
                  {| returned := new_events w; scraper_after := scraper w;
                     file_after := _save_processed_events env (scraper w) f;
                     ticks_after := ticks w |}
              | Raised w =>
                  {| returned := []; scraper_after := scraper w; file_after := f;
                     ticks_after := ticks w |}
              end).
  { unfold find_new_events.
    destruct (search_terms self), (term_variants self); intros H;
      [exfalso; apply H; split; reflexivity | reflexivity ..]. }
  assert (Hcase : (search_terms self = [] /\ term_variants self = [])
                  \/ ~ (search_terms self = [] /\ term_variants self = [])).
  { destruct (search_terms self), (term_variants self);
      [left; split; reflexivity | right; intros [? ?]; discriminate ..]. }
  destruct Hcase as [[Es Ev] | Hne].
  - left. split; [exact Es |]. split; [exact Ev |].
    unfold find_new_events. rewrite Es, Ev. repeat split.
  - right. destruct (terms_from_variants_fields self) as (Hu & Hm & _).
    rewrite (Hwalk Hne), Hu, Hm.
    destruct (fetched_pages BS parses (get env) self (Z.to_nat (max_pages self)) (url self))
      as [ps |] eqn:Hf.
    + left. split; [exact Hne |]. exists ps. split; [reflexivity |].
      rewrite (walk_fetched BS str_of parses env _ _ _ ps).
      * cbv zeta. repeat split.
      * cbn [scraper]. rewrite <- Hf. now apply fetched_pages_url.
    + right. destruct (walk_not_fetched BS str_of parses env (Z.to_nat (max_pages self)) (url self)
                         {| scraper := terms_from_variants self; new_events := [];
                            ticks := t |}) as [w' Hw'].
      * cbn [scraper]. rewrite <- Hf. now apply fetched_pages_url.
      * rewrite Hw'. repeat split.
Qed.

End StoreProofs.

(* ===================================================================== *)
(** * Properties of [find_new_events] *)
(* ===================================================================== *)

(** C10.  The events returned by one call of [find_new_events] have
    pairwise distinct identifiers, and each identifier is in the in-memory
    store when the call returns. *)
Theorem new_event_ids_distinct (BS : string -> node) (str_of : node -> string)
        (parses : string -> bool)
        (env : Env) (self : EventScraper) (t : nat) (f : DataFile) :
  let r := find_new_events BS str_of parses env self t f in
  NoDup (map id (returned r))
  /\ forall ev, In ev (returned r) ->
                exists i, id ev = Some i
                          /\ is_Some (processed_events (scraper_after r) !! i).
Proof.
  cbv zeta.
  destruct (find_new_events_outcome BS str_of parses env self t f)
    as [(_ & _ & Hr & _) | [(_ & ps & _ & Hr & Hs & _) | (_ & Hr & _)]].
  - rewrite Hr. split; [constructor | intros ev []].
  - rewrite Hr, Hs. apply fold_ids_recorded. split; [constructor | intros ev []].
  - rewrite Hr. split; [constructor | intros ev []].
Qed.

(** C9.  When a page request of the walk fails, or the parser refuses a
    page, [find_new_events] returns the empty list and the data file is
    what it was before the call.  When every request succeeds and every
    page is parsed (and there is a term or a variant to search for), the
    run is committed: the data file, if it can be written, holds the whole
    in-memory store as it is when the walk ends, with the identifier of
    every returned event; if it cannot be written it stays as it was.  In
    every case the data file is either what it was before the call or the
    whole in-memory store: a run commits all of its discoveries or none. *)
Theorem failed_fetch_persists_nothing (BS : string -> node) (str_of : node -> string)
        (parses : string -> bool)
        (env : Env) (self : EventScraper) (t : nat) (f : DataFile) :
  let r := find_new_events BS str_of parses env self t f in
  (fetch_fails BS parses env self = true -> returned r = [] /\ file_after r = f)
  /\ (parse_fails BS parses env self = true -> returned r = [] /\ file_after r = f)
  /\ (fetch_fails BS parses env self = false ->
      parse_fails BS parses env self = false ->
      ~ (search_terms self = [] /\ term_variants self = []) ->
      file_after r
      = (if can_write env then JsonStore (processed_events (scraper_after r)) else f)
      /\ (can_write env = true ->
          forall ev, In ev (returned r) ->
                     exists i, id ev = Some i
                               /\ is_Some (_load_processed_events (file_after r) !! i)))
  /\ (file_after r = f
      \/ (file_after r = JsonStore (processed_events (scraper_after r))
          /\ forall ev, In ev (returned r) ->
                        exists i, id ev = Some i
                                  /\ is_Some (_load_processed_events (file_after r) !! i))).
Proof.
  cbv zeta.
  assert (Hfailed :
            fetched_pages BS parses (get env) self (Z.to_nat (max_pages self)) (url self)
            = None ->
            returned (find_new_events BS str_of parses env self t f) = []
            /\ file_after (find_new_events BS str_of parses env self t f) = f).
  { intros Hnone.
    destruct (find_new_events_outcome BS str_of parses env self t f)
      as [(_ & _ & Hr & Hf & _) | [(_ & ps & Hps & _) | (_ & Hr & Hf)]].
    - split; assumption.
    - rewrite Hnone in Hps. discriminate.
    - split; assumption. }
  assert (Hrecorded :
            forall ps,
              forall ev,
                In ev (new_events
                         (fold_left (step BS str_of env) (flat_map event_elements_of ps)
                                    {| scraper := terms_from_variants self; new_events := [];
                                       ticks := t |})) ->
                exists i,
                  id ev = Some i
                  /\ is_Some
                       (processed_events
                          (scraper
                             (fold_left (step BS str_of env) (flat_map event_elements_of ps)
                                        {| scraper := terms_from_variants self;
                                           new_events := []; ticks := t |})) !! i)).
  { intros ps.
    apply (fold_ids_recorded BS str_of env (flat_map event_elements_of ps)
             {| scraper := terms_from_variants self; new_events := []; ticks := t |}).
    split; [constructor | intros ev []]. }
  split; [| split; [| split]].
  - intros Hfail. apply Hfailed. apply fails_iff_not_fetched. left. exact Hfail.
  - intros Hfail. apply Hfailed. apply fails_iff_not_fetched. right. exact Hfail.
  - intros Hfetch Hparse Hne.
    destruct (find_new_events_outcome BS str_of parses env self t f)
      as [(Es & Ev & _) | [(_ & ps & _ & Hr & Hs & Hf) | (Hnone & _)]].
    + exfalso. apply Hne. now split.
    + unfold _save_processed_events in Hf. rewrite Hf, Hs, Hr.
      split; [reflexivity |]. intros Hw. rewrite Hw. cbn [_load_processed_events].
      apply Hrecorded.
    + exfalso. apply fails_iff_not_fetched in Hnone.
      unfold fetch_fails in Hfetch. unfold parse_fails in Hparse.
      destruct Hnone as [H | H]; congruence.
  - destruct (find_new_events_outcome BS str_of parses env self t f)
      as [(_ & _ & _ & Hf & _) | [(_ & ps & _ & Hr & Hs & Hf) | (_ & _ & Hf)]];
      [now left | | now left].
    unfold _save_processed_events in Hf. destruct (can_write env); [| now left].
    right. rewrite Hf, Hs, Hr. split; [reflexivity |]. cbn [_load_processed_events].
    apply Hrecorded.
Qed.

(** On the site whose second page cannot be fetched nothing is returned
    and nothing written; so it is when the parser refuses the second
    page; on the site as it is the two events are returned and the file
    holds the store with their identifiers. *)
Lemma failed_fetch_persists_nothing_witness :
  (fetch_fails Site.parse Site.accepts Site.broken_env Site.scraper0 = true
   /\ returned (find_new_events Site.parse Site.render Site.accepts Site.broken_env
                                Site.scraper0 0 NoFile) = []
   /\ file_after (find_new_events Site.parse Site.render Site.accepts Site.broken_env
                                  Site.scraper0 0 NoFile) = NoFile)
  /\ (parse_fails Site.parse Demo.strict Site.env Site.scraper0 = true
      /\ returned (find_new_events Site.parse Site.render Demo.strict Site.env
                                   Site.scraper0 0 NoFile) = []
      /\ file_after (find_new_events Site.parse Site.render Demo.strict Site.env
                                     Site.scraper0 0 NoFile) = NoFile)
  /\ (length (returned (find_new_events Site.parse Site.render Site.accepts Site.env
                                        Site.scraper0 0 NoFile)) = 2
      /\ file_after (find_new_events Site.parse Site.render Site.accepts Site.env
                                     Site.scraper0 0 NoFile)
         = JsonStore (processed_events
                        (scraper_after
                           (find_new_events Site.parse Site.render Site.accepts Site.env
                                            Site.scraper0 0 NoFile)))).
Proof.
  split; [| split].
  - split; [vm_compute; reflexivity |].
    apply (proj1 (failed_fetch_persists_nothing Site.parse Site.render Site.accepts
                                                Site.broken_env Site.scraper0 0 NoFile)).
    vm_compute. reflexivity.
  - split; [vm_compute; reflexivity |].
    apply (proj1 (proj2 (failed_fetch_persists_nothing Site.parse Site.render Demo.strict
                                                       Site.env Site.scraper0 0 NoFile))).
    vm_compute. reflexivity.
  - split; [vm_compute; reflexivity |].
    apply (proj1 (proj2 (proj2 (failed_fetch_persists_nothing
                                  Site.parse Site.render Site.accepts
                                  Site.env Site.scraper0 0 NoFile)))).
    + vm_compute. reflexivity.
    + vm_compute. reflexivity.
    + intros [H _]. vm_compute in H. discriminate.
Defined.

(** In that failed run the first page was walked: its event is in the
    in-memory store although nothing was written. *)
Example failed_run_keeps_memory_only :
  map fst (map_to_list
             (processed_events
                (scraper_after
                   (find_new_events Site.parse Site.render Site.accepts Site.broken_env
                                    Site.scraper0 0 NoFile))))
  = ["d52ba898abb71156a9fea5bd6a48b58b"].
Proof. vm_compute. reflexivity. Qed.

Lemma init_settings (c : Config) (f f' : DataFile) :
  same_settings (init c f) (init c f')
  /\ processed_events (init c f) = _load_processed_events f.
Proof. unfold init. repeat split. Qed.

(** C1.  A second run of the program on the same site, started from the
    data file the first run left, returns no event, provided the first run
    could write the file.  The two runs may read different clocks. *)
Theorem second_run_finds_nothing (BS : string -> node) (str_of : node -> string)
        (parses : string -> bool)
        (site : string -> option string) (clock1 clock2 : nat -> string)
        (writable2 : bool) (c : Config) (f0 : DataFile) :
  let r1 := run BS str_of parses {| get := site; now := clock1; can_write := true |} c f0 in
  let r2 := run BS str_of parses {| get := site; now := clock2; can_write := writable2 |} c
                (file_after r1) in
  returned r2 = [].
Proof.
  cbv zeta. unfold run.
  set (env1 := {| get := site; now := clock1; can_write := true |}).
  set (env2 := {| get := site; now := clock2; can_write := writable2 |}).
  set (r1 := find_new_events BS str_of parses env1 (init c f0) 0 f0).
  set (self2 := init c (file_after r1)).
  destruct (init_settings c (file_after r1) f0) as [Hset Hstore]. fold self2 in Hset, Hstore.
  destruct (find_new_events_outcome BS str_of parses env2 self2 0 (file_after r1))
    as [(_ & _ & Hr & _) | [(Hne2 & ps & Hps & Hr2 & _) | (_ & Hr & _)]];
    [exact Hr | | exact Hr].
  rewrite Hr2.
  assert (Hurl : url self2 = url (init c f0)) by apply Hset.
  assert (Hmax : max_pages self2 = max_pages (init c f0)) by apply Hset.
  rewrite Hmax, Hurl, (fetched_pages_url BS parses _ self2 (init c f0) _ _ Hurl) in Hps.
  destruct (find_new_events_outcome BS str_of parses env1 (init c f0) 0 f0)
    as [(Es & Ev & _) | [(_ & ps1 & Hps1 & _ & Hs1 & Hf1) | (Hnone & _)]].
  - exfalso. apply Hne2. destruct Hset as (_ & _ & _ & Hst & Htv). split; congruence.
  - cbn [get env1 env2] in Hps, Hps1. rewrite Hps in Hps1. injection Hps1 as <-.
    set (es := flat_map event_elements_of ps) in *.
    apply fold_no_news. cbn [scraper].
    destruct (terms_from_variants_fields self2) as (_ & _ & Hpe). rewrite Hpe, Hstore.
    fold r1 in Hf1, Hs1. rewrite Hf1. unfold _save_processed_events. cbn [can_write env1].
    cbn [_load_processed_events].
    apply (covered_settings BS str_of (terms_from_variants (init c f0))).
    + apply terms_from_variants_settings, same_settings_sym, Hset.
    + apply (fold_covers BS str_of env1 es
               {| scraper := terms_from_variants (init c f0); new_events := []; ticks := 0 |}).
  - cbn [get env1 env2] in Hps, Hnone. congruence.
Qed.

Lemma second_run_finds_nothing_witness :
  length (returned (run Site.parse Site.render Site.accepts Site.env Site.config NoFile)) = 2
  /\ returned (run Site.parse Site.render Site.accepts Site.later_env Site.config
                   (file_after (run Site.parse Site.render Site.accepts Site.env Site.config NoFile)))
     = [].
Proof.
  split; [vm_compute; reflexivity |].
  exact (second_run_finds_nothing Site.parse Site.render Site.accepts Site.site Site.clock
                                  Site.later_clock true Site.config NoFile).
Defined.

(* ===================================================================== *)
(** * Further properties: text normalization *)
(* ===================================================================== *)

Lemma lower_app (a b : string) : Py.lower (a +:+ b) = Py.lower a +:+ Py.lower b.
Proof.
  induction a as [| c a IH]; [reflexivity |].
  change (String (Py.lower_char c) (Py.lower (a +:+ b))
          = String (Py.lower_char c) (Py.lower a +:+ Py.lower b)). now f_equal.
Qed.

Lemma append_assoc (a b c : string) : (a +:+ b) +:+ c = a +:+ (b +:+ c).
Proof.
  induction a as [| x a IH]; [reflexivity |].
  change (String x ((a +:+ b) +:+ c) = String x (a +:+ (b +:+ c))). now f_equal.
Qed.

Lemma append_empty_r (a : string) : a +:+ EmptyString = a.
Proof.
  induction a as [| x a IH]; [reflexivity |].
  change (String x (a +:+ EmptyString) = String x a). now f_equal.
Qed.

Lemma nfkd_ascii_app (a b : string) : nfkd_ascii (a +:+ b) = nfkd_ascii a +:+ nfkd_ascii b.
Proof.
  induction a as [| c a IH]; [reflexivity |].
  change (nfkd_ascii (String c a +:+ b))
    with (nfkd_ascii_char c +:+ nfkd_ascii (a +:+ b)).
  cbn [nfkd_ascii]. now rewrite IH, append_assoc.
Qed.

Lemma all_chars_app (p : ascii -> bool) (a b : string) :
  all_chars p (a +:+ b) = (all_chars p a && all_chars p b)%bool.
Proof.
  unfold all_chars. induction a as [| c a IH]; simpl; [reflexivity |].
  rewrite IH. now destruct (p c).
Qed.

(** What one character becomes is ASCII without upper case. *)
Lemma nfkd_lower_char_plain (c : ascii) :
  all_chars ascii_not_upper (nfkd_ascii_char (Py.lower_char c)) = true.
Proof. each_char c; vm_compute; reflexivity. Qed.

(** Such a character is left alone by both steps. *)
Lemma plain_char_fixed (c : ascii) :
  ascii_not_upper c = true ->
  Py.lower_char c = c /\ nfkd_ascii_char c = String c EmptyString.
Proof. each_char c; vm_compute; intros H; try discriminate H; split; reflexivity. Qed.

Lemma plain_string_fixed (s : string) :
  all_chars ascii_not_upper s = true -> Py.lower s = s /\ nfkd_ascii s = s.
Proof.
  unfold all_chars. induction s as [| c s IH]; simpl; [split; reflexivity |].
  intros H. apply andb_true_iff in H. destruct H as [Hc Hs].
  destruct (plain_char_fixed c Hc) as [Hl Hn]. destruct (IH Hs) as [IHl IHn].
  rewrite Hl, Hn, IHl, IHn. split; reflexivity.
Qed.

Lemma nfkd_lower_plain (t : string) :
  all_chars ascii_not_upper (nfkd_ascii (Py.lower t)) = true.
Proof.
  induction t as [| c t IH]; [reflexivity |].
  cbn [Py.lower nfkd_ascii]. rewrite all_chars_app, IH, nfkd_lower_char_plain. reflexivity.
Qed.

(** X1.  [_normalize_text] gives ASCII text without upper-case letters, and
    applying it to its own result changes nothing. *)
Theorem normalize_text_plain_and_idempotent (t : string) :
  all_chars ascii_not_upper (_normalize_text t) = true
  /\ _normalize_text (_normalize_text t) = _normalize_text t.
Proof.
  assert (Hplain : all_chars ascii_not_upper (_normalize_text t) = true).
  { unfold _normalize_text. destruct (is_empty_str t); [reflexivity | apply nfkd_lower_plain]. }
  split; [exact Hplain |].
  destruct (plain_string_fixed _ Hplain) as [Hl Hn].
  unfold _normalize_text at 1.
  destruct (is_empty_str (_normalize_text t)) eqn:E.
  - apply is_empty_str_true in E. now rewrite E.
  - now rewrite Hl, Hn.
Qed.

(* ===================================================================== *)
(** * Further properties: the registration link *)
(* ===================================================================== *)

Lemma encode_utf8_cons (c : ascii) (s : string) :
  Py.encode_utf8 (String c s) = Py.encode_utf8 (String c EmptyString) ++ Py.encode_utf8 s.
Proof.
  cbn [Py.encode_utf8]. destruct (Z.of_N (Py.code c) <? 128)%Z; reflexivity.
Qed.

Lemma quote_bytes_app (a b : list Z) :
  quote_bytes (a ++ b) = quote_bytes a +:+ quote_bytes b.
Proof.
  induction a as [| x a IH]; [reflexivity |].
  cbn [app quote_bytes]. now rewrite IH, append_assoc.
Qed.

Lemma quote_cons (c : ascii) (s : string) :
  quote (String c s) = quote (String c EmptyString) +:+ quote s.
Proof. unfold quote. now rewrite encode_utf8_cons, quote_bytes_app. Qed.

Lemma quote_char_quoted (c : ascii) :
  all_chars quoted_char (quote (String c EmptyString)) = true.
Proof. each_char c; vm_compute; reflexivity. Qed.

Lemma quote_quoted (s : string) : all_chars quoted_char (quote s) = true.
Proof.
  induction s as [| c s IH]; [reflexivity |].
  rewrite quote_cons, all_chars_app, quote_char_quoted, IH. reflexivity.
Qed.

(** X2.  In the link of [_create_registration_mailto_link] the subject and
    the body are made of letters, digits, the characters [_ . - ~ /] and
    percent escapes only, whatever the event and the notifier hold; the
    address is put in as it is. *)
Theorem mailto_link_parts_are_escaped (self : EmailNotifier) (event : Event)
        (use_html : bool) :
  exists subject_encoded body_encoded,
    _create_registration_mailto_link self event use_html
    = "mailto:" +:+ city_email self +:+ "?subject=" +:+ subject_encoded
      +:+ "&body=" +:+ body_encoded
      +:+ (if use_html then "&content-type=text/html" else EmptyString)
    /\ subject_encoded = quote ("Inscription: " +:+ title event +:+ " - " +:+ date event)
    /\ all_chars quoted_char subject_encoded = true
    /\ all_chars quoted_char body_encoded = true.
Proof.
  unfold _create_registration_mailto_link. destruct use_html.
  - exists (quote ("Inscription: " +:+ title event +:+ " - " +:+ date event)),
           (quote (html_body_of self (title event) (date event))).
    repeat split; try apply quote_quoted.
  - exists (quote ("Inscription: " +:+ title event +:+ " - " +:+ date event)),
           (quote (plain_body_of self (title event) (date event))).
    repeat split; try apply quote_quoted.
    now rewrite !append_empty_r.
Qed.

(* ===================================================================== *)
(** * Further properties: [mark_as_notified] *)
(* ===================================================================== *)

(** X3.  [mark_as_notified] keeps the set of identifiers and every other
    record; for a known identifier the record keeps [processed_at], gets
    [notified = true] and the clock reading, and the store is saved; for
    an unknown identifier nothing changes and nothing is saved. *)
Theorem mark_as_notified_frame (env : Env) (self : EventScraper) (t : nat)
        (f : DataFile) (event_id : string) :
  let '(self', t', f') := mark_as_notified env self t f event_id in
  same_settings self' self
  /\ (forall j, j <> event_id ->
                processed_events self' !! j = processed_events self !! j)
  /\ (forall j, is_Some (processed_events self' !! j)
                <-> is_Some (processed_events self !! j))
  /\ match processed_events self !! event_id with
     | Some record =>
         processed_events self' !! event_id
         = Some {| processed_at := processed_at record; notified := true;
                   notified_at := Some (now env t) |}
         /\ f' = _save_processed_events env self' f /\ t' = S t
     | None => self' = self /\ f' = f /\ t' = t
     end.
Proof.
  unfold mark_as_notified.
  destruct (processed_events self !! event_id) as [record |] eqn:E.
  - cbn [processed_events set_processed_events]. split; [repeat split |]. split; [| split].
    + intros j Hj. now rewrite lookup_insert_ne.
    + intros j. destruct (decide (event_id = j)) as [<- | Hne].
      * rewrite lookup_insert_eq, E. split; eauto.
      * now rewrite lookup_insert_ne.
    + rewrite lookup_insert_eq. repeat split.
  - split; [repeat split |]. split; [reflexivity |]. split; [reflexivity |].
    repeat split.
Qed.

(* ===================================================================== *)
(** * Further properties: what [_process_event] returns *)
(* ===================================================================== *)

Lemma contains_empty (s : string) : Py.contains EmptyString s = true.
Proof. destruct s; reflexivity. Qed.

Lemma term_matches_empty (mode : bool) (nt ni : string) :
  term_matches mode EmptyString nt ni = true.
Proof.
  unfold term_matches. cbn [Py.lower]. rewrite contains_empty. now destruct mode.
Qed.

(** X4.  When the empty string is among the search terms, every fragment
    with a title gives an event: the empty term is contained in every
    text. *)
Theorem empty_term_matches_every_fragment (BS : string -> node) (self : EventScraper)
        (reading event_html : string) :
  In EmptyString (search_terms self) ->
  title_of (Py.contains class_event_marker event_html) (BS event_html) <> EmptyString ->
  exists ev, _process_event BS self reading event_html = Some ev
             /\ In EmptyString (matching_terms ev).
Proof.
  intros Hin Htitle.
  destruct (_process_event BS self reading event_html) as [ev |] eqn:Hev.
  - exists ev. split; [reflexivity |].
    destruct (process_event_Some _ _ _ _ _ Hev) as (_ & _ & _ & _ & _ & _ & Hm & _).
    rewrite Hm. apply matching_terms_of_In. split; [exact Hin | apply term_matches_empty].
  - exfalso. apply process_event_None in Hev. cbv zeta in Hev. destruct Hev as [He | Hnil].
    + apply is_empty_str_true in He. contradiction.
    + assert (H : In EmptyString
                    (matching_terms_of self
                       (_normalize_text
                          (title_of (Py.contains class_event_marker event_html)
                                    (BS event_html)))
                       (_normalize_text
                          (info_of (title_of (Py.contains class_event_marker event_html)
                                             (BS event_html))
                                   (Py.strip (get_text (BS event_html)))))))
        by (apply matching_terms_of_In; split; [exact Hin | apply term_matches_empty]).
      rewrite Hnil in H. destruct H.
Qed.

(** A blank variant given with a base term becomes a search term, and a
    fragment about something else is then returned as an event. *)
Lemma empty_term_matches_every_fragment_witness :
  search_terms Demo.blank_scraper = ["jazz"; EmptyString]
  /\ _process_event Demo.parse Site.scraper0 "10:00" (Site.render Demo.market) = None
  /\ exists ev, _process_event Demo.parse Demo.blank_scraper "10:00"
                               (Site.render Demo.market) = Some ev
                /\ In EmptyString (matching_terms ev).
Proof.
  split; [reflexivity |]. split; [vm_compute; reflexivity |].
  apply (empty_term_matches_every_fragment Demo.parse Demo.blank_scraper "10:00"
                                           (Site.render Demo.market)).
  - right. left. reflexivity.
  - vm_compute. discriminate.
Defined.

Lemma len_app (a b : string) : Py.len (a +:+ b) = Py.len a + Py.len b.
Proof.
  unfold Py.len. induction a as [| c a IH]; [reflexivity |].
  change (S (String.length (a +:+ b)) = S (String.length a + String.length b)).
  now f_equal.
Qed.

Lemma len_take (n : nat) (s : string) : Py.len (Py.take n s) = Nat.min n (Py.len s).
Proof.
  unfold Py.len. revert s. induction n as [| n IH]; intros s; [reflexivity |].
  destruct s as [| c s]; [reflexivity |]. simpl. now rewrite IH.
Qed.

Lemma drop_len_app (a b : string) : Py.drop (Py.len a) (a +:+ b) = b.
Proof. unfold Py.len. induction a as [| c a IH]; [reflexivity | exact IH]. Qed.

Lemma endswith_app (a p : string) : Py.endswith p (a +:+ p) = true.
Proof.
  unfold Py.endswith. rewrite len_app.
  replace (Py.len a + Py.len p - Py.len p) with (Py.len a) by lia.
  rewrite drop_len_app, String.eqb_refl.
  rewrite andb_true_r. apply Nat.leb_le. lia.
Qed.

Lemma info_of_bounded (t full_text : string) :
  Py.len (info_of t full_text) <= 2003
  /\ (2000 < Py.len (info_of t full_text) ->
      Py.len (info_of t full_text) = 2003
      /\ Py.endswith "..." (info_of t full_text) = true).
Proof.
  unfold info_of.
  set (info := Py.replace _ _ _).
  destruct (Nat.ltb 2000 (Py.len info)) eqn:E.
  - apply Nat.ltb_lt in E.
    assert (Hlen : Py.len (Py.take 2000 info +:+ "...") = 2003).
    { rewrite len_app, len_take. change (Py.len "...") with 3. lia. }
    split; [lia |]. intros _. split; [exact Hlen | apply endswith_app].
  - apply Nat.ltb_ge in E. split; [lia |]. intros H. lia.
Qed.

(** X5.  The description of a returned event has at most 2003 characters;
    when it has more than 2000 it has exactly 2003 and ends with three
    dots. *)
Theorem event_description_is_bounded (BS : string -> node) (self : EventScraper)
        (reading event_html : string) (ev : Event) :
  _process_event BS self reading event_html = Some ev ->
  Py.len (info ev) <= 2003
  /\ (2000 < Py.len (info ev) ->
      Py.len (info ev) = 2003 /\ Py.endswith "..." (info ev) = true).
Proof.
  intros Hev.
  destruct (process_event_Some _ _ _ _ _ Hev) as (_ & _ & _ & Hi & _).
  rewrite Hi. apply info_of_bounded.
Qed.

Lemma event_description_is_bounded_witness :
  Py.len (info Site.concert_event) <= 2003
  /\ (2000 < Py.len (info Site.concert_event) ->
      Py.len (info Site.concert_event) = 2003
      /\ Py.endswith "..." (info Site.concert_event) = true).
Proof.
  exact (event_description_is_bounded Site.parse Site.scraper0 "2024-05-01 10:00:00"
           (Site.render Site.concert) Site.concert_event concert_processed).
Defined.

Lemma absolute_link_hash (self : EventScraper) : absolute_link self "#" = "#".
Proof. reflexivity. Qed.

(** X6.  The link of a returned event is [#] when the fragment has no
    anchor.  Without the marker [class="event"] only the first anchor is
    looked at: when it has no [href] the link is [#], whatever follows.
    With the marker the first anchor that has an [href] is used. *)
Theorem link_fallbacks (BS : string -> node) (self : EventScraper)
        (reading event_html : string) (ev : Event) :
  _process_event BS self reading event_html = Some ev ->
  (find_all ["a"] (BS event_html) = [] -> link ev = "#")
  /\ (Py.contains class_event_marker event_html = false ->
      forall a, Bs4.find "a" (BS event_html) = Some a ->
                get_attr "href" a = None -> link ev = "#")
  /\ (Py.contains class_event_marker event_html = true ->
      forall a h, head (List.filter (has_attr "href") (find_all ["a"] (BS event_html)))
                  = Some a ->
                  get_attr "href" a = Some h -> link ev = absolute_link self h).
Proof.
  intros Hev.
  destruct (process_event_Some _ _ _ _ _ Hev) as (_ & _ & Hlink & _).
  rewrite Hlink. unfold raw_link_of, Bs4.find. split; [| split].
  - intros Hnone. rewrite Hnone. simpl. now destruct (Py.contains _ _).
  - intros Hw a Hfind Hhref. rewrite Hw, Hfind, Hhref.
    destruct (find_all ["a"] (BS event_html)) as [| a0 rest]; [reflexivity |].
    simpl in Hfind. injection Hfind as ->. now rewrite Hhref.
  - intros Hw a h Hhead Hhref. rewrite Hw.
    destruct (List.filter (has_attr "href") (find_all ["a"] (BS event_html)))
      as [| a0 rest]; [discriminate |].
    simpl in Hhead. injection Hhead as ->. now rewrite Hhref.
Qed.

(** The first anchor of [Demo.market] has no [href], the second has one. *)
Lemma link_fallbacks_witness :
  exists ev, _process_event Demo.parse Demo.blank_scraper "10:00"
                            (Site.render Demo.market) = Some ev
             /\ map (get_attr "href") (find_all ["a"] (Demo.parse (Site.render Demo.market)))
                = [None; Some "/plan"]
             /\ link ev = "#".
Proof.
  destruct (_process_event Demo.parse Demo.blank_scraper "10:00"
                           (Site.render Demo.market)) as [ev |] eqn:Hev;
    [| vm_compute in Hev; discriminate].
  exists ev. split; [reflexivity |]. split; [vm_compute; reflexivity |].
  apply (proj1 (proj2 (link_fallbacks Demo.parse Demo.blank_scraper "10:00"
                                      (Site.render Demo.market) ev Hev))
               eq_refl (Tag "a" [] [Text "Plan"]));
    vm_compute; reflexivity.
Defined.

(* ===================================================================== *)
(** * Further properties: [_normalize_search_terms] *)
(* ===================================================================== *)

Lemma normalize_search_terms_from (terms acc : list string) :
  exists rest,
    fold_left
      (fun normalized_terms term =>
         let normalized_terms := normalized_terms ++ [term] in
         let normalized := _normalize_text term in
         if (negb (is_empty_str normalized)
             && negb (String.eqb normalized (Py.lower term))
             && negb (Py.mem normalized normalized_terms))%bool
         then normalized_terms ++ [normalized]
         else normalized_terms)
      terms acc = acc ++ rest
    /\ sublist terms rest
    /\ (forall x, In x rest ->
                  In x terms
                  \/ exists t, In t terms /\ x = _normalize_text t
                               /\ x <> EmptyString /\ x <> Py.lower t)
    /\ length terms <= length rest <= 2 * length terms.
Proof.
  match goal with |- context [fold_left ?g _ _] => set (f := g) end.
  revert acc. induction terms as [| t terms IH]; intros acc.
  - exists []. simpl. rewrite app_nil_r.
    split; [reflexivity |]. split; [constructor |]. split; [intros x [] | lia].
  - cbn [fold_left].
    assert (Hf : f acc t
                 = if (negb (is_empty_str (_normalize_text t))
                       && negb (String.eqb (_normalize_text t) (Py.lower t))
                       && negb (Py.mem (_normalize_text t) (acc ++ [t])))%bool
                   then (acc ++ [t]) ++ [_normalize_text t] else acc ++ [t])
      by reflexivity.
    rewrite Hf. clear Hf.
    destruct (negb (is_empty_str (_normalize_text t))
              && negb (String.eqb (_normalize_text t) (Py.lower t))
              && negb (Py.mem (_normalize_text t) (acc ++ [t])))%bool eqn:E.
    + destruct (IH ((acc ++ [t]) ++ [_normalize_text t])) as (rest & Hr & Hs & Hin & Hl).
      exists (t :: _normalize_text t :: rest). rewrite Hr, <- !app_assoc. simpl.
      apply andb_true_iff in E. destruct E as [E _].
      apply andb_true_iff in E. destruct E as [E1 E2].
      split; [reflexivity |]. split; [| split].
      * apply sublist_skip. now apply sublist_cons.
      * intros x [<- | [<- | Hx]].
        -- left. now left.
        -- right. exists t. split; [now left |]. split; [reflexivity |]. split.
           ++ intros H0. rewrite H0 in E1. discriminate.
           ++ intros H0. rewrite H0, String.eqb_refl in E2. discriminate.
        -- destruct (Hin x Hx) as [H | (t' & H1 & H2)]; [left; now right |].
           right. exists t'. split; [now right | exact H2].
      * lia.
    + destruct (IH (acc ++ [t])) as (rest & Hr & Hs & Hin & Hl).
      exists (t :: rest). rewrite Hr, <- app_assoc. simpl.
      split; [reflexivity |]. split; [| split].
      * now apply sublist_skip.
      * intros x [<- | Hx]; [left; now left |].
        destruct (Hin x Hx) as [H | (t' & H1 & H2)]; [left; now right |].
        right. exists t'. split; [now right | exact H2].
      * lia.
Qed.

(** X7.  [_normalize_search_terms] keeps every given term, in the given
    order; what it adds are accent-free forms of given terms, each not
    empty and different from the lower-cased term; the result has at most
    twice as many terms. *)
Theorem normalize_search_terms_keeps_terms (terms : list string) :
  sublist terms (_normalize_search_terms terms)
  /\ (forall x, In x (_normalize_search_terms terms) ->
                In x terms
                \/ exists t, In t terms /\ x = _normalize_text t
                             /\ x <> EmptyString /\ x <> Py.lower t)
  /\ length terms <= length (_normalize_search_terms terms) <= 2 * length terms.
Proof.
  destruct (normalize_search_terms_from terms []) as (rest & Hr & H).
  change (_normalize_search_terms terms = rest) in Hr.
  rewrite Hr. exact H.
Qed.

(* ===================================================================== *)
(** * Further properties: [_add_term_variants] *)
(* ===================================================================== *)

(** A loop whose body only appends strings that are new when compared
    without case only appends such strings. *)
Lemma fold_appends {B : Type} (Q : B -> string -> Prop)
      (f : list string -> B -> list string) :
  (forall acc b, exists added,
      f acc b = acc ++ added
      /\ forall x, In x added -> Q b x /\ ~ In (Py.lower x) (map Py.lower acc)) ->
  forall l acc, exists added,
      fold_left f l acc = acc ++ added
      /\ forall x, In x added ->
                   (exists b, In b l /\ Q b x) /\ ~ In (Py.lower x) (map Py.lower acc).
Proof.
  intros Hf. induction l as [| b l IH]; intros acc.
  - exists []. simpl. rewrite app_nil_r. split; [reflexivity | intros x []].
  - destruct (Hf acc b) as (a1 & E1 & H1).
    destruct (IH (acc ++ a1)) as (a2 & E2 & H2).
    exists (a1 ++ a2). simpl. rewrite E1, E2, app_assoc. split; [reflexivity |].
    intros x Hx. apply in_app_or in Hx. destruct Hx as [Hx | Hx].
    + destruct (H1 x Hx) as [HQ Hn]. split; [| exact Hn].
      exists b. split; [now left | exact HQ].
    + destruct (H2 x Hx) as [(b' & Hb' & HQ) Hn]. split.
      * exists b'. split; [now right | exact HQ].
      * intros Hin. apply Hn. rewrite map_app. apply in_or_app. now left.
Qed.

Lemma add_variants_ci_appends (acc vs : list string) :
  exists added,
    add_variants_ci acc vs = acc ++ added
    /\ forall x, In x added -> In x vs /\ ~ In (Py.lower x) (map Py.lower acc).
Proof.
  unfold add_variants_ci.
  assert (H : forall (N vs cur : list string), exists added,
               fold_left
                 (fun acc variant =>
                    if Py.mem (Py.lower variant) N then acc else acc ++ [variant]) vs cur
               = cur ++ added
               /\ forall x, In x added -> In x vs /\ ~ In (Py.lower x) N).
  { clear. intros N. induction vs as [| v vs IH]; intros cur.
    - exists []. simpl. rewrite app_nil_r. split; [reflexivity | intros x []].
    - simpl. destruct (Py.mem (Py.lower v) N) eqn:E.
      + destruct (IH cur) as (added & Ha & Hin). exists added. split; [exact Ha |].
        intros x Hx. destruct (Hin x Hx). split; [now right | assumption].
      + destruct (IH (cur ++ [v])) as (added & Ha & Hin). exists (v :: added).
        rewrite Ha, <- app_assoc. split; [reflexivity |].
        intros x [<- | Hx].
        * split; [now left | now apply mem_not_In].
        * destruct (Hin x Hx). split; [now right | assumption]. }
  apply H.
Qed.

Lemma add_term_variants_for_appends (tv : list (string * list string))
      (terms : list string) (term : string) :
  exists added,
    add_term_variants_for tv terms term = terms ++ added
    /\ forall x, In x added ->
                 (exists kv, In kv tv /\ In x (snd kv))
                 /\ ~ In (Py.lower x) (map Py.lower terms).
Proof.
  unfold add_term_variants_for.
  destruct (Nat.ltb 0 (length tv) && negb (Py.mem term (map fst tv)))%bool;
    apply (fold_appends (fun (kv : string * list string) x => In x (snd kv)));
    intros acc kv; cbv zeta;
    match goal with
    | |- context [if ?c then _ else _] => destruct c
    end;
    try apply add_variants_ci_appends;
    (exists []; rewrite app_nil_r; split; [reflexivity | intros x []]).
Qed.

Lemma add_term_variants_appends (tv : list (string * list string))
      (original_terms terms : list string) :
  exists added,
    fold_left (add_term_variants_for tv) original_terms terms = terms ++ added
    /\ forall x, In x added ->
                 (exists kv, In kv tv /\ In x (snd kv))
                 /\ ~ In (Py.lower x) (map Py.lower terms).
Proof.
  destruct (fold_appends (fun (_ : string) x => exists kv, In kv tv /\ In x (snd kv))
                         (add_term_variants_for tv)
                         (add_term_variants_for_appends tv) original_terms terms)
    as (added & Ha & Hin).
  exists added. split; [exact Ha |].
  intros x Hx. destruct (Hin x Hx) as [(_ & _ & HQ) Hn]. split; assumption.
Qed.

(** X8.  [_add_term_variants] changes only the list of search terms, and
    only by appending to it.  What is appended is a variant of the map, or
    a key of the map when there was no search term; no appended string
    equals a given search term when compared without case; and nothing is
    appended when the map is empty. *)
Theorem add_term_variants_only_appends (self : EventScraper) :
  exists added,
    _add_term_variants self = set_search_terms self (search_terms self ++ added)
    /\ (forall x, In x added ->
                  exists kv, In kv (term_variants self)
                             /\ (In x (snd kv)
                                 \/ (search_terms self = [] /\ x = fst kv)))
    /\ (forall x, In x added -> ~ In (Py.lower x) (map Py.lower (search_terms self)))
    /\ (term_variants self = [] -> added = []).
Proof.
  assert (Hgen : exists added,
             fold_left (add_term_variants_for (term_variants self))
                       (search_terms self) (search_terms self)
             = search_terms self ++ added
             /\ (forall x, In x added ->
                           exists kv, In kv (term_variants self)
                                      /\ (In x (snd kv)
                                          \/ (search_terms self = [] /\ x = fst kv)))
             /\ (forall x, In x added ->
                           ~ In (Py.lower x) (map Py.lower (search_terms self)))
             /\ (term_variants self = [] -> added = [])).
  { destruct (add_term_variants_appends (term_variants self) (search_terms self)
                                        (search_terms self)) as (added & Ha & Hin).
    exists added. split; [exact Ha |]. split; [| split].
    - intros x Hx. destruct (Hin x Hx) as [(kv & Hkv & Hv) _]. exists kv. auto.
    - intros x Hx. apply (Hin x Hx).
    - intros Hnil. destruct added as [| x added]; [reflexivity |].
      destruct (Hin x (or_introl eq_refl)) as [(kv & Hkv & _) _].
      rewrite Hnil in Hkv. destruct Hkv. }
  unfold _add_term_variants.
  destruct (term_variants self) as [| kv0 tv] eqn:Etv.
  - destruct Hgen as (added & Ha & H). exists added. rewrite <- Ha.
    split; [now destruct (search_terms self) | exact H].
  - destruct (search_terms self) as [| t ts] eqn:Est.
    + exists (add_all_variants (kv0 :: tv) []). split; [reflexivity |].
      split; [| split; [intros x _ [] | discriminate]].
      intros x Hx. apply add_all_variants_In in Hx.
      destruct Hx as [[] | [(k & vs & Hkv & Hv & _) | Hk]].
      * exists (k, vs). split; [exact Hkv | now left].
      * apply in_map_iff in Hk. destruct Hk as (kv & <- & Hkv).
        exists kv. split; [exact Hkv | right; split; reflexivity].
    + destruct Hgen as (added & Ha & H). exists added. rewrite <- Ha.
      split; [reflexivity | exact H].
Qed.

Lemma normalize_search_terms_length (terms : list string) :
  length terms <= length (_normalize_search_terms terms).
Proof.
  destruct (normalize_search_terms_from terms []) as (rest & Hr & _ & _ & Hl & _).
  change (_normalize_search_terms terms = rest) in Hr. rewrite Hr. exact Hl.
Qed.

Lemma add_term_variants_nonempty (self : EventScraper) :
  search_terms self <> [] \/ term_variants self <> [] ->
  search_terms (_add_term_variants self) <> [].
Proof.
  intros H. unfold _add_term_variants.
  destruct (term_variants self) as [| [k vs] tv] eqn:Etv.
  - destruct H as [H | H]; [| contradiction].
    destruct (add_term_variants_appends [] (search_terms self) (search_terms self))
      as (added & Ha & _).
    assert (Hs : search_terms
                   (set_search_terms self
                      (fold_left (add_term_variants_for []) (search_terms self)
                                 (search_terms self)))
                 = search_terms self ++ added) by (rewrite <- Ha; reflexivity).
    destruct (search_terms self) as [| t ts] eqn:Est; [contradiction |].
    rewrite Hs. discriminate.
  - destruct (search_terms self) as [| t ts] eqn:Est.
    + intros Hnil.
      assert (Hin : In k (add_all_variants ((k, vs) :: tv) [])).
      { apply add_all_variants_In. right. right. now left. }
      cbn [search_terms set_search_terms] in Hnil.
      destruct self; cbn in *. rewrite Hnil in Hin. destruct Hin.
    + destruct (add_term_variants_appends ((k, vs) :: tv) (t :: ts) (t :: ts))
        as (added & Ha & _).
      destruct self; cbn in *. rewrite Ha. discriminate.
Qed.

(** X9.  On a scraper object made by the constructor, the step of
    [find_new_events] that takes the search terms from the variants (used
    when there is no search term but there are variants) changes nothing:
    the constructor has then already put the keys among the search terms. *)
Theorem variant_fallback_unused_after_init (c : Config) (f : DataFile) :
  terms_from_variants (init c f) = init c f
  /\ (search_terms (init c f) = [] <->
      cfg_search_terms c = [] /\ cfg_term_variants c = []).
Proof.
  set (self0 :=
         {| url := cfg_url c; data_file := cfg_data_file c; max_pages := cfg_max_pages c;
            exact_matching := cfg_exact_matching c; debug := cfg_debug c;
            search_terms := _normalize_search_terms (cfg_search_terms c);
            term_variants := cfg_term_variants c; processed_events := ∅ |}).
  assert (Hterms : search_terms (init c f) = search_terms (_add_term_variants self0))
    by reflexivity.
  assert (Hvars : term_variants (init c f) = cfg_term_variants c).
  { unfold init. fold self0. unfold _add_term_variants.
    destruct (term_variants self0) eqn:E1, (search_terms self0) eqn:E2; reflexivity. }
  assert (Hiff : search_terms (init c f) = [] <->
                 cfg_search_terms c = [] /\ cfg_term_variants c = []).
  { split.
    - intros Hnil. rewrite Hterms in Hnil.
      destruct (cfg_search_terms c) as [| t ts] eqn:Ec.
      + split; [reflexivity |].
        destruct (cfg_term_variants c) as [| kv tv] eqn:Ev; [reflexivity |].
        exfalso. apply (add_term_variants_nonempty self0); [| exact Hnil].
        right. unfold self0. cbn [term_variants]. try rewrite Ev. discriminate.
      + exfalso. apply (add_term_variants_nonempty self0); [| exact Hnil].
        left. unfold self0. cbn [search_terms]. try rewrite Ec. intros H0.
        pose proof (normalize_search_terms_length (t :: ts)) as Hl.
        rewrite H0 in Hl. simpl in Hl. lia.
    - intros [Hs Hv]. rewrite Hterms. unfold _add_term_variants, self0.
      cbn [term_variants search_terms]. rewrite Hs, Hv. reflexivity. }
  split; [| exact Hiff].
  unfold terms_from_variants.
  destruct (search_terms (init c f)) as [| t ts] eqn:Es; [| reflexivity].
  destruct (proj1 Hiff eq_refl) as [_ Hv]. rewrite Hvars, Hv. reflexivity.
Qed.

(* ===================================================================== *)
(** * Further properties: the store during [find_new_events] *)
(* ===================================================================== *)

Section GrowthProofs.

Variable BS : string -> node.
Variable str_of : node -> string.
Variable parses : string -> bool.

Lemma has_id_app (i : string) (a b : list Event) :
  has_id i (a ++ b) <-> has_id i a \/ has_id i b.
Proof. unfold has_id. rewrite map_app. apply in_app_iff. Qed.

Lemma has_id_In (i : string) (events : list Event) :
  has_id i events <-> exists ev, In ev events /\ id ev = Some i.
Proof.
  unfold has_id. rewrite in_map_iff. split; intros (ev & H1 & H2); exists ev; auto.
Qed.

Lemma grows_refl (w : Walk) : grows w w.
Proof.
  split; [apply same_settings_refl |]. split; [auto |]. split; [congruence |].
  exists []. rewrite app_nil_r. split; [reflexivity |]. split; [intros ev [] |].
  intros i Hn [r Hr]. congruence.
Qed.

Lemma grows_trans (w1 w2 w3 : Walk) : grows w1 w2 -> grows w2 w3 -> grows w1 w3.
Proof.
  intros (Hs1 & Hk1 & Hn1 & a1 & Ha1 & Hf1 & Hc1) (Hs2 & Hk2 & Hn2 & a2 & Ha2 & Hf2 & Hc2).
  split; [eapply same_settings_trans; eassumption |].
  split; [auto |]. split.
  - intros i rec Hi Hrec.
    destruct (processed_events (scraper w2) !! i) as [rec2 |] eqn:E2.
    + pose proof (Hk2 i rec2 E2) as H3. rewrite Hrec in H3. injection H3 as ->.
      now apply (Hn1 i).
    + now apply (Hn2 i).
  - exists (a1 ++ a2). split; [rewrite Ha2, Ha1; now rewrite app_assoc |]. split.
    + intros ev Hin. apply in_app_or in Hin. destruct Hin as [Hin | Hin]; [auto |].
      destruct (Hf2 ev Hin) as (i & Hi & Hnone). exists i. split; [exact Hi |].
      destruct (processed_events (scraper w1) !! i) as [rec |] eqn:E1; [| reflexivity].
      rewrite (Hk1 i rec E1) in Hnone. discriminate.
    + intros i Hi Hsome. apply has_id_app.
      destruct (processed_events (scraper w2) !! i) as [rec2 |] eqn:E2.
      * left. apply Hc1; [exact Hi | rewrite E2; eauto].
      * right. now apply Hc2.
Qed.

Lemma step_grows (env : Env) (w : Walk) (e : node) : grows w (step BS str_of env w e).
Proof.
  unfold step.
  destruct (_process_event BS (scraper w) (now env (ticks w)) (str_of e)) as [ev |] eqn:Hev.
  2: { destruct (grows_refl w) as (H1 & H2 & H3 & H4).
    exact (conj H1 (conj H2 (conj H3 H4))). }
  destruct (id ev) as [i |] eqn:Hi; [| apply grows_refl].
  destruct (processed_events (scraper w) !! i) as [rec |] eqn:Ei.
  { destruct (grows_refl w) as (H1 & H2 & H3 & H4).
    exact (conj H1 (conj H2 (conj H3 H4))). }
  split; [apply same_settings_store |].
  cbn [scraper new_events set_processed_events processed_events].
  split; [| split].
  - intros j rec Hj. rewrite lookup_insert_ne; [exact Hj | congruence].
  - intros j rec Hj Hrec. destruct (decide (i = j)) as [-> | Hne].
    + rewrite lookup_insert_eq in Hrec. injection Hrec as <-. split; reflexivity.
    + rewrite lookup_insert_ne in Hrec by exact Hne. congruence.
  - exists [ev]. split; [reflexivity |]. split.
    + intros ev0 [<- | []]. exists i. split; assumption.
    + intros j Hj Hsome. destruct (decide (i = j)) as [-> | Hne].
      * unfold has_id. simpl. left. exact Hi.
      * rewrite lookup_insert_ne in Hsome by exact Hne.
        destruct Hsome as [r Hr]. congruence.
Qed.

Lemma fold_grows (env : Env) (es : list node) (w : Walk) :
  grows w (fold_left (step BS str_of env) es w).
Proof.
  revert w. induction es as [| e es IH]; intros w; simpl; [apply grows_refl |].
  eapply grows_trans; [apply step_grows | apply IH].
Qed.

(** However the walk ends, its state has only grown. *)
Lemma walk_grows (env : Env) (budget : nat) (u : string) (w : Walk) :
  match walk BS str_of parses env budget u w with
  | Done w' | Raised w' => grows w w'
  end.
Proof.
  revert u w. induction budget as [| n IH]; intros u w; simpl; [apply grows_refl |].
  destruct (is_empty_str u); [apply grows_refl |].
  destruct (get env u) as [text |]; [| apply grows_refl].
  destruct (parses text); [| apply grows_refl].
  rewrite process_elems_fold.
  pose proof (fold_grows env (event_elements_of (BS text)) w) as Hg.
  set (w1 := fold_left (step BS str_of env) (event_elements_of (BS text)) w) in *.
  destruct (next_page_of (scraper w1) (BS text)) as [next_page |]; [| exact Hg].
  destruct (is_empty_str next_page); [exact Hg |].
  specialize (IH next_page w1).
  destruct (walk BS str_of parses env n next_page w1) as [w' | w'];
    eapply grows_trans; eassumption.
Qed.

(** [find_new_events] leaves the scraper of a walk state grown from the
    state it started in, and returns that state's new events or nothing. *)
Lemma find_new_events_grows (env : Env) (self : EventScraper) (t : nat) (f : DataFile) :
  let r := find_new_events BS str_of parses env self t f in
  exists w',
    grows {| scraper := terms_from_variants self; new_events := []; ticks := t |} w'
    /\ scraper_after r = scraper w'
    /\ (returned r = new_events w' \/ returned r = []).
Proof.
  cbv zeta.
  pose proof (walk_grows env (Z.to_nat (max_pages (terms_from_variants self)))
                         (url (terms_from_variants self))
                         {| scraper := terms_from_variants self; new_events := [];
                            ticks := t |}) as Hg.
  unfold find_new_events.
  destruct (search_terms self) as [| t0 ts] eqn:Es, (term_variants self) as [| kv tv] eqn:Ev.
  1: { exists {| scraper := terms_from_variants self; new_events := []; ticks := t |}.
       split; [apply grows_refl |]. split; [| now left].
       unfold terms_from_variants. now rewrite Es, Ev. }
  all: cbv zeta;
    destruct (walk BS str_of parses env (Z.to_nat (max_pages (terms_from_variants self)))
                   (url (terms_from_variants self))
                   {| scraper := terms_from_variants self; new_events := []; ticks := t |})
      as [w' | w'];
    exists w'; (split; [exact Hg |]); (split; [reflexivity |]); auto.
Qed.

End GrowthProofs.

(** X10.  [find_new_events] never changes or removes a record of the
    store; a record it adds is not notified and has no notification time;
    every returned event has an identifier that was not in the store
    before the call; and the settings of the scraper stay as the call found
    or (for the search terms taken from the variants) set them. *)
Theorem find_new_events_only_adds_records (BS : string -> node) (str_of : node -> string)
        (parses : string -> bool)
        (env : Env) (self : EventScraper) (t : nat) (f : DataFile) :
  let r := find_new_events BS str_of parses env self t f in
  (forall i rec, processed_events self !! i = Some rec ->
                 processed_events (scraper_after r) !! i = Some rec)
  /\ (forall i rec, processed_events self !! i = None ->
                    processed_events (scraper_after r) !! i = Some rec ->
                    notified rec = false /\ notified_at rec = None)
  /\ (forall ev, In ev (returned r) ->
                 exists i, id ev = Some i /\ processed_events self !! i = None)
  /\ same_settings (scraper_after r) (terms_from_variants self).
Proof.
  cbv zeta.
  destruct (find_new_events_grows BS str_of parses env self t f)
    as (w' & (Hs & Hk & Hn & added & Ha & Hf & _) & Hsc & Hr).
  destruct (terms_from_variants_fields self) as (_ & _ & Hpe).
  cbn [scraper new_events] in Hs, Hk, Hn, Ha, Hf. rewrite Hpe in Hk, Hn, Hf.
  rewrite Hsc. split; [exact Hk |]. split; [exact Hn |]. split; [| exact Hs].
  intros ev Hin. destruct Hr as [Hr | Hr]; rewrite Hr in Hin; [| destruct Hin].
  rewrite Ha in Hin. now apply Hf.
Qed.

(** X11.  When every page request succeeds and the parser accepts every
    page, the returned events are exactly the additions to the store: an
    identifier that is in the store after the call and was not before
    belongs to a returned event, and every event element of a fetched page
    that gives an event has its identifier either in the store before the
    call or among the returned events.  (When the parser refuses a page
    the call returns nothing, although the store in memory may have
    grown.) *)
Theorem find_new_events_returns_every_new_event
        (BS : string -> node) (str_of : node -> string)
        (parses : string -> bool)
        (env : Env) (self : EventScraper) (t : nat) (f : DataFile) (ps : list node) :
  let r := find_new_events BS str_of parses env self t f in
  ~ (search_terms self = [] /\ term_variants self = []) ->
  fetched_pages BS parses (get env) self (Z.to_nat (max_pages self)) (url self) = Some ps ->
  (forall i, processed_events self !! i = None ->
             is_Some (processed_events (scraper_after r) !! i) -> has_id i (returned r))
  /\ (forall page e reading ev,
         In page ps -> In e (event_elements_of page) ->
         _process_event BS (terms_from_variants self) reading (str_of e) = Some ev ->
         exists i, id ev = Some i
                   /\ (is_Some (processed_events self !! i) \/ has_id i (returned r))).
Proof.
  cbv zeta. intros Hne Hps.
  destruct (find_new_events_outcome BS str_of parses env self t f)
    as [(Es & Ev & _) | [(_ & ps' & Hps' & Hr & Hs & _) | (Hnone & _)]];
    [exfalso; apply Hne; now split | | congruence].
  rewrite Hps in Hps'. injection Hps' as <-.
  set (w0 := {| scraper := terms_from_variants self; new_events := []; ticks := t |}) in *.
  set (es := flat_map event_elements_of ps) in *.
  destruct (fold_grows BS str_of env es w0) as (_ & _ & _ & added & Ha & _ & Hc).
  destruct (terms_from_variants_fields self) as (_ & _ & Hpe).
  cbn [w0 scraper new_events] in Ha, Hc. rewrite Hpe in Hc.
  assert (Hnew : forall i, processed_events self !! i = None ->
                           is_Some (processed_events
                                      (scraper (fold_left (step BS str_of env) es w0)) !! i) ->
                           has_id i (new_events (fold_left (step BS str_of env) es w0))).
  { intros i Hi Hsome. rewrite Ha. now apply Hc. }
  rewrite Hr, Hs. split; [exact Hnew |].
  intros page e reading ev Hpage He Hev.
  assert (Hin : In e es) by (apply in_flat_map; exists page; split; assumption).
  destruct (fold_covers BS str_of env es w0 e Hin reading ev Hev) as (i & Hi & Hsome).
  exists i. split; [exact Hi |].
  destruct (processed_events self !! i) as [rec |] eqn:Ei; [left; eauto |].
  right. now apply Hnew.
Qed.

Lemma find_new_events_returns_every_new_event_witness :
  has_id "d52ba898abb71156a9fea5bd6a48b58b"
         (returned (find_new_events Site.parse Site.render Site.accepts Site.env Site.scraper0 0 NoFile)).
Proof.
  apply (proj1 (find_new_events_returns_every_new_event
                  Site.parse Site.render Site.accepts Site.env Site.scraper0 0 NoFile
                  [Site.page1; Site.page2]
                  ltac:(intros [H _]; vm_compute in H; discriminate)
                  ltac:(vm_compute; reflexivity))).
  - vm_compute. reflexivity.
  - vm_compute. eauto.
Defined.

(** X12.  With [max_pages] at most 0, or an empty URL, no page is
    requested and no event is returned, the store in memory stays as it
    was, and yet (unless there is neither a search term nor a variant) the
    store is written to the data file. *)
Theorem no_page_budget_still_saves (BS : string -> node) (str_of : node -> string)
        (parses : string -> bool)
        (env : Env) (self : EventScraper) (t : nat) (f : DataFile) :
  (max_pages self <= 0)%Z \/ url self = EmptyString ->
  let r := find_new_events BS str_of parses env self t f in
  requested_urls BS parses (get env) self (Z.to_nat (max_pages self)) (url self) = []
  /\ returned r = []
  /\ processed_events (scraper_after r) = processed_events self
  /\ (~ (search_terms self = [] /\ term_variants self = []) ->
      file_after r = if can_write env then JsonStore (processed_events self) else f).
Proof.
  intros Hcase. cbv zeta.
  assert (Hreq : requested_urls BS parses (get env) self (Z.to_nat (max_pages self)) (url self)
                 = []).
  { destruct Hcase as [Hz | Hu].
    - replace (Z.to_nat (max_pages self)) with 0 by lia. reflexivity.
    - rewrite Hu. now destruct (Z.to_nat (max_pages self)). }
  assert (Hfetch : fetched_pages BS parses (get env) self (Z.to_nat (max_pages self)) (url self)
                   = Some []).
  { destruct Hcase as [Hz | Hu].
    - replace (Z.to_nat (max_pages self)) with 0 by lia. reflexivity.
    - rewrite Hu. now destruct (Z.to_nat (max_pages self)). }
  split; [exact Hreq |].
  destruct (terms_from_variants_fields self) as (_ & _ & Hpe).
  destruct (find_new_events_outcome BS str_of parses env self t f)
    as [(Es & Ev & Hr & Hf & Hs) | [(Hne & ps & Hps & Hr & Hs & Hf) | (Hnone & _)]];
    [| | congruence].
  - rewrite Hr, Hs. split; [reflexivity |]. split; [reflexivity |].
    intros H. exfalso. apply H. now split.
  - rewrite Hfetch in Hps. injection Hps as <-. simpl in Hr, Hs, Hf.
    rewrite Hr, Hs, Hf, Hpe. split; [reflexivity |]. split; [reflexivity |].
    intros _. unfold _save_processed_events. now rewrite Hpe.
Qed.

Lemma no_page_budget_still_saves_witness :
  file_after (find_new_events Site.parse Site.render Site.accepts Site.env
                              (init {| cfg_url := Site.base_url;
                                       cfg_data_file := "scrap_cityevent/data/events.json";
                                       cfg_max_pages := 0; cfg_search_terms := ["jazz"];
                                       cfg_debug := false; cfg_exact_matching := true;
                                       cfg_term_variants := [] |} NoFile) 0 NoFile)
  = JsonStore ∅.
Proof.
  apply (no_page_budget_still_saves Site.parse Site.render Site.accepts Site.env
           (init {| cfg_url := Site.base_url;
                    cfg_data_file := "scrap_cityevent/data/events.json";
                    cfg_max_pages := 0; cfg_search_terms := ["jazz"];
                    cfg_debug := false; cfg_exact_matching := true;
                    cfg_term_variants := [] |} NoFile) 0 NoFile).
  - left. vm_compute. discriminate.
  - intros [H _]. vm_compute in H. discriminate.
Defined.

(* ===================================================================== *)
(** * Further properties: [main] *)
(* ===================================================================== *)

Section MainProofs.

Variable BS : string -> node.
Variable str_of : node -> string.
Variable parses : string -> bool.

Lemma construct_init (venv : VariantEnv) (c : Config) (variants_file : string)
      (f : DataFile) :
  construct venv c variants_file f = init (loaded_config venv c variants_file) f.
Proof. reflexivity. Qed.

(** [main] is its validation followed by the run and the notification
    loop. *)
Lemma main_unfold (wd : World) (inp : Inputs) (f : DataFile) :
  main BS str_of parses wd inp f
  = if passes_validation inp then
      let f' := after_reset wd inp f in
      let r := find_new_events BS str_of parses (w_env wd)
                               (main_scraper_of (w_variants wd) inp f') 0 f' in
      let st := notify_all wd (loop_start r) (returned r) in
      {| main_scraper := Some (n_scraper st); main_file := n_file st;
         attempts := n_attempts st; notification_count := n_count st |}
    else
      {| main_scraper := None; main_file := f; attempts := []; notification_count := 0 |}.
Proof.
  unfold main, passes_validation, main_scraper_of, main_config,
    main_variants_file, after_reset, loop_start, main_terms.
  destruct (is_empty_str (in_url inp)); [reflexivity |].
  destruct (is_empty_str (in_sender_email inp)); [reflexivity |].
  destruct (is_empty_str (in_receiver_email inp)); [reflexivity |].
  destruct (parse_search_terms (in_search_terms_str inp)) as [| t ts].
  - destruct (is_empty_str (in_primary_term inp));
      destruct (is_empty_str (in_variants_file inp)); reflexivity.
  - destruct (is_empty_str (in_variants_file inp)); reflexivity.
Qed.

(** The loop body on an event whose record is in the store and not
    notified. *)
Lemma notify_event_known (wd : World) (st : Notifying) (ev : Event) (i : string)
      (rec : ProcessedRecord) :
  id ev = Some i ->
  processed_events (n_scraper st) !! i = Some rec ->
  notified rec = false ->
  notify_event wd st ev
  = Some (if send_notification wd ev then
            let self' :=
              set_processed_events (n_scraper st)
                (<[i := {| processed_at := processed_at rec; notified := true;
                           notified_at := Some (now (w_env wd) (n_ticks st)) |}]>
                   (processed_events (n_scraper st))) in
            {| n_scraper := self'; n_ticks := S (n_ticks st);
               n_file := _save_processed_events (w_env wd) self' (n_file st);
               n_attempts := n_attempts st ++ [(ev, true)];
               n_count := S (n_count st) |}
          else
            {| n_scraper := n_scraper st; n_ticks := n_ticks st; n_file := n_file st;
               n_attempts := n_attempts st ++ [(ev, false)];
               n_count := n_count st |}).
Proof.
  intros Hi Hrec Hn. unfold notify_event. rewrite Hi. cbv zeta. rewrite Hrec, Hn.
  destruct (send_notification wd ev); [| reflexivity].
  unfold mark_as_notified. rewrite Hrec. reflexivity.
Qed.

Lemma notify_all_spec (wd : World) (events : list Event) :
  forall st,
    NoDup (map id events) ->
    (forall ev, In ev events ->
                exists i rec, id ev = Some i
                              /\ processed_events (n_scraper st) !! i = Some rec
                              /\ notified rec = false) ->
    let st' := notify_all wd st events in
    n_attempts st' = n_attempts st ++ map (fun ev => (ev, send_notification wd ev)) events
    /\ n_count st' = n_count st + length (List.filter (send_notification wd) events)
    /\ (forall i, ~ has_id i events ->
                  processed_events (n_scraper st') !! i
                  = processed_events (n_scraper st) !! i)
    /\ (forall ev, In ev events ->
                   exists i rec, id ev = Some i
                                 /\ processed_events (n_scraper st') !! i = Some rec
                                 /\ notified rec = send_notification wd ev).
Proof.
  induction events as [| ev events IH]; intros st Hnd Hrec; cbv zeta.
  - simpl. rewrite app_nil_r. split; [reflexivity |]. split; [lia |].
    split; [reflexivity | intros ev []].
  - destruct (Hrec ev (or_introl eq_refl)) as (i & rec & Hi & Hlook & Hn).
    assert (Hfresh : ~ has_id i events).
    { unfold has_id. rewrite <- Hi. simpl in Hnd.
      apply NoDup_cons in Hnd. destruct Hnd as [Hnot _].
      intros Hin. apply Hnot. now apply list_elem_of_In. }
    assert (Hnd' : NoDup (map id events)).
    { simpl in Hnd. apply NoDup_cons in Hnd. apply Hnd. }
    cbn [notify_all]. rewrite (notify_event_known wd st ev i rec Hi Hlook Hn).
    destruct (send_notification wd ev) eqn:Hsend; cbv zeta.
    + set (self' := set_processed_events (n_scraper st) _).
      set (st1 := {| n_scraper := self' |}).
      assert (Hother : forall j, j <> i ->
                 processed_events self' !! j = processed_events (n_scraper st) !! j).
      { intros j Hj. unfold self'. cbn [set_processed_events processed_events].
        now rewrite lookup_insert_ne by congruence. }
      destruct (IH st1 Hnd') as (Ha & Hc & Hk & Hm).
      { intros ev' Hin'. destruct (Hrec ev' (or_intror Hin')) as (j & rec' & Hj & Hl' & Hn').
        exists j, rec'. split; [exact Hj |]. split; [| exact Hn'].
        cbn [st1 n_scraper]. rewrite Hother; [exact Hl' |].
        intros ->. apply Hfresh. apply has_id_In. exists ev'. auto. }
      cbn [st1 n_attempts n_count n_scraper] in Ha, Hc, Hk.
      split; [rewrite Ha, <- app_assoc; simpl; now rewrite Hsend |].
      split; [rewrite Hc; simpl; rewrite Hsend; simpl; lia |]. split.
      * intros j Hj. rewrite Hk.
        -- apply Hother. intros ->. apply Hj. unfold has_id. simpl. now left.
        -- intros Hin. apply Hj. unfold has_id in *. simpl. now right.
      * intros ev' [<- | Hin'].
        -- exists i. eexists. split; [exact Hi |]. rewrite (Hk i Hfresh).
           unfold self'. cbn [set_processed_events processed_events].
           rewrite lookup_insert_eq. split; [reflexivity |]. now rewrite Hsend.
        -- apply Hm. exact Hin'.
    + set (st1 := {| n_scraper := n_scraper st |}).
      destruct (IH st1 Hnd') as (Ha & Hc & Hk & Hm).
      { intros ev' Hin'. apply Hrec. now right. }
      cbn [st1 n_attempts n_count n_scraper] in Ha, Hc, Hk.
      split; [rewrite Ha, <- app_assoc; simpl; now rewrite Hsend |].
      split; [rewrite Hc; simpl; rewrite Hsend; simpl; lia |]. split.
      * intros j Hj. apply Hk. intros Hin. apply Hj. unfold has_id in *. simpl. now right.
      * intros ev' [<- | Hin'].
        -- exists i, rec. split; [exact Hi |]. rewrite (Hk i Hfresh).
           split; [exact Hlook |]. now rewrite Hsend.
        -- apply Hm. exact Hin'.
Qed.

(** A property of the loop state that each event preserves holds when the
    loop ends. *)
Lemma notify_all_invariant (wd : World) (P : Notifying -> Prop) :
  (forall st ev st', P st -> notify_event wd st ev = Some st' -> P st') ->
  forall events st, P st -> P (notify_all wd st events).
Proof.
  intros Hstep. induction events as [| ev events IH]; intros st HP; simpl; [exact HP |].
  destruct (notify_event wd st ev) as [st' |] eqn:E; [| exact HP].
  apply IH. eapply Hstep; eassumption.
Qed.

Lemma keeps_keys_refl (m : gmap string ProcessedRecord) : keeps_keys m m.
Proof. intros i H. exact H. Qed.

Lemma keeps_keys_trans (m1 m2 m3 : gmap string ProcessedRecord) :
  keeps_keys m1 m2 -> keeps_keys m2 m3 -> keeps_keys m1 m3.
Proof. intros H1 H2 i H. auto. Qed.

Lemma keeps_keys_insert (m : gmap string ProcessedRecord) (i : string)
      (rec : ProcessedRecord) :
  keeps_keys m (<[i := rec]> m).
Proof.
  intros j H. destruct (decide (i = j)) as [-> | Hne].
  - rewrite lookup_insert_eq. eauto.
  - now rewrite lookup_insert_ne.
Qed.

(** What one event of the loop does to the data file and the store. *)
Lemma notify_event_files (wd : World) (st st' : Notifying) (ev : Event) :
  notify_event wd st ev = Some st' ->
  keeps_keys (processed_events (n_scraper st)) (processed_events (n_scraper st'))
  /\ (n_file st' = n_file st
      \/ (can_write (w_env wd) = true
          /\ n_file st' = JsonStore (processed_events (n_scraper st'))))
  /\ (can_write (w_env wd) = true ->
      n_file st = JsonStore (processed_events (n_scraper st)) ->
      n_file st' = JsonStore (processed_events (n_scraper st'))).
Proof.
  unfold notify_event. destruct (id ev) as [i |]; [| discriminate]. cbv zeta.
  assert (Hsame : keeps_keys (processed_events (n_scraper st))
                             (processed_events (n_scraper st))
                  /\ (n_file st = n_file st
                      \/ (can_write (w_env wd) = true
                          /\ n_file st = JsonStore (processed_events (n_scraper st))))
                  /\ (can_write (w_env wd) = true ->
                      n_file st = JsonStore (processed_events (n_scraper st)) ->
                      n_file st = JsonStore (processed_events (n_scraper st))))
    by (split; [apply keeps_keys_refl | split; [now left | auto]]).
  destruct (match processed_events (n_scraper st) !! i with
            | Some event_record => notified event_record
            | None => false
            end); [intros [= <-]; exact Hsame |].
  destruct (send_notification wd ev); [| intros [= <-]; exact Hsame].
  unfold mark_as_notified.
  destruct (processed_events (n_scraper st) !! i) as [rec |]; [| intros [= <-]; exact Hsame].
  intros [= <-]. cbn [n_scraper n_file set_processed_events processed_events].
  unfold _save_processed_events. cbn [set_processed_events processed_events].
  split; [apply keeps_keys_insert |].
  destruct (can_write (w_env wd)); [| split; [now left | discriminate]].
  split; [right; split; reflexivity | reflexivity].
Qed.

Lemma notify_all_files (wd : World) (events : list Event) (st : Notifying) :
  keeps_keys (_load_processed_events (n_file st)) (processed_events (n_scraper st)) ->
  let st' := notify_all wd st events in
  keeps_keys (_load_processed_events (n_file st)) (_load_processed_events (n_file st'))
  /\ keeps_keys (_load_processed_events (n_file st')) (processed_events (n_scraper st'))
  /\ (can_write (w_env wd) = true ->
      n_file st = JsonStore (processed_events (n_scraper st)) ->
      n_file st' = JsonStore (processed_events (n_scraper st'))).
Proof.
  intros H0. cbv zeta.
  apply (notify_all_invariant wd
           (fun st' =>
              keeps_keys (_load_processed_events (n_file st))
                         (_load_processed_events (n_file st'))
              /\ keeps_keys (_load_processed_events (n_file st'))
                            (processed_events (n_scraper st'))
              /\ (can_write (w_env wd) = true ->
                  n_file st = JsonStore (processed_events (n_scraper st)) ->
                  n_file st' = JsonStore (processed_events (n_scraper st'))))).
  - intros st1 ev st2 (H1 & H2 & H3) Hev.
    destruct (notify_event_files wd st1 st2 ev Hev) as (Hk & Hf & Hsync).
    destruct Hf as [Hf | [Hw Hf]].
    + rewrite Hf. split; [exact H1 |]. split; [eapply keeps_keys_trans; eassumption |].
      intros Hw Hs. rewrite <- Hf. apply Hsync; [exact Hw | now apply H3].
    + rewrite Hf. cbn [_load_processed_events]. split.
      * eapply keeps_keys_trans; [exact H1 |]. eapply keeps_keys_trans; eassumption.
      * split; [apply keeps_keys_refl | reflexivity].
  - split; [apply keeps_keys_refl |]. split; [exact H0 | auto].
Qed.

(** The events [find_new_events] returns have distinct identifiers, and
    each has in the store a record that is not notified. *)
Lemma returned_events_unnotified (env : Env) (self : EventScraper) (t : nat)
      (f : DataFile) :
  let r := find_new_events BS str_of parses env self t f in
  NoDup (map id (returned r))
  /\ (forall ev, In ev (returned r) ->
                 exists i rec, id ev = Some i
                               /\ processed_events (scraper_after r) !! i = Some rec
                               /\ notified rec = false)
  /\ (returned r <> [] ->
      file_after r = _save_processed_events env (scraper_after r) f).
Proof.
  cbv zeta.
  destruct (find_new_events_outcome BS str_of parses env self t f)
    as [(_ & _ & Hr & _) | [(_ & ps & _ & Hr & Hs & Hf) | (_ & Hr & _)]].
  - rewrite Hr. split; [constructor |]. split; [intros ev [] | congruence].
  - set (w0 := {| scraper := terms_from_variants self; new_events := []; ticks := t |}) in *.
    set (es := flat_map event_elements_of ps) in *.
    destruct (fold_ids_recorded BS str_of env es w0) as [Hnd Hrec];
      [split; [constructor | intros ev []] |].
    destruct (fold_grows BS str_of env es w0) as (_ & _ & Hn & added & Ha & Hfresh & _).
    rewrite Hr, Hs, Hf. split; [exact Hnd |]. split; [| reflexivity].
    intros ev Hin. destruct (Hrec ev Hin) as (i & Hi & [rec Hlook]).
    exists i, rec. split; [exact Hi |]. split; [exact Hlook |].
    rewrite Ha in Hin. destruct (Hfresh ev Hin) as (j & Hj & Hnone).
    assert (j = i) as -> by congruence.
    apply (Hn i rec Hnone Hlook).
  - rewrite Hr. split; [constructor |]. split; [intros ev [] | congruence].
Qed.

(** The data file [find_new_events] leaves has no key the store lacks,
    when that was so before the call. *)
Lemma file_after_keys (env : Env) (self : EventScraper) (t : nat) (f : DataFile) :
  keeps_keys (_load_processed_events f) (processed_events self) ->
  let r := find_new_events BS str_of parses env self t f in
  keeps_keys (_load_processed_events (file_after r)) (processed_events (scraper_after r)).
Proof.
  intros H0. cbv zeta.
  destruct (find_new_events_grows BS str_of parses env self t f)
    as (w' & (_ & Hk & _) & Hsc & _).
  destruct (terms_from_variants_fields self) as (_ & _ & Hpe).
  cbn [scraper] in Hk. rewrite Hpe in Hk.
  assert (Hkeys : keeps_keys (processed_events self)
                             (processed_events
                                (scraper_after (find_new_events BS str_of parses env self t f)))).
  { intros i [rec Hi]. rewrite Hsc, (Hk i rec Hi). eauto. }
  destruct (find_new_events_outcome BS str_of parses env self t f)
    as [(_ & _ & _ & Hf & _) | [(_ & ps & _ & _ & Hs & Hf) | (_ & _ & Hf)]].
  - rewrite Hf. eapply keeps_keys_trans; eassumption.
  - rewrite Hf. unfold _save_processed_events. destruct (can_write env).
    + cbn [_load_processed_events]. rewrite Hs. apply keeps_keys_refl.
    + eapply keeps_keys_trans; eassumption.
  - rewrite Hf. eapply keeps_keys_trans; eassumption.
Qed.

(** A run that starts from a data file holding every key of the file an
    earlier run on the same site left returns nothing. *)
Lemma rerun_finds_nothing (env1 env2 : Env) (c : Config) (f0 f1 : DataFile) (t2 : nat) :
  can_write env1 = true ->
  get env2 = get env1 ->
  keeps_keys (_load_processed_events
                (file_after (find_new_events BS str_of parses env1 (init c f0) 0 f0)))
             (_load_processed_events f1) ->
  returned (find_new_events BS str_of parses env2 (init c f1) t2 f1) = [].
Proof.
  intros Hw Hget Hkeys.
  set (r1 := find_new_events BS str_of parses env1 (init c f0) 0 f0) in *.
  set (self2 := init c f1).
  destruct (init_settings c f1 f0) as [Hset Hstore]. fold self2 in Hset, Hstore.
  destruct (find_new_events_outcome BS str_of parses env2 self2 t2 f1)
    as [(_ & _ & Hr & _) | [(Hne2 & ps & Hps & Hr2 & _) | (_ & Hr & _)]];
    [exact Hr | | exact Hr].
  rewrite Hr2.
  assert (Hurl : url self2 = url (init c f0)) by apply Hset.
  assert (Hmax : max_pages self2 = max_pages (init c f0)) by apply Hset.
  rewrite Hmax, Hurl, (fetched_pages_url BS parses _ self2 (init c f0) _ _ Hurl), Hget in Hps.
  destruct (find_new_events_outcome BS str_of parses env1 (init c f0) 0 f0)
    as [(Es & Ev & _) | [(_ & ps1 & Hps1 & _ & Hs1 & Hf1) | (Hnone & _)]].
  - exfalso. apply Hne2. destruct Hset as (_ & _ & _ & Hst & Htv). split; congruence.
  - rewrite Hps in Hps1. injection Hps1 as <-.
    set (es := flat_map event_elements_of ps) in *.
    apply fold_no_news. cbn [scraper].
    destruct (terms_from_variants_fields self2) as (_ & _ & Hpe). rewrite Hpe, Hstore.
    apply (covered_mono BS str_of _ _ _ _ Hkeys).
    fold r1 in Hf1. rewrite Hf1. unfold _save_processed_events. rewrite Hw.
    cbn [_load_processed_events].
    apply (covered_settings BS str_of (terms_from_variants (init c f0))).
    + apply terms_from_variants_settings, same_settings_sym, Hset.
    + apply (fold_covers BS str_of env1 es
               {| scraper := terms_from_variants (init c f0); new_events := []; ticks := 0 |}).
  - congruence.
Qed.

End MainProofs.

(** X13.  When the validation of [main] passes, [send_notification] is
    called once for each event [find_new_events] returned, in that order;
    [notification_count] is the number of calls that succeeded; when the
    loop ends the record of each of these events is notified exactly when
    its call succeeded, and no other record has changed; and if the data
    file can be written and an event was returned, the file holds the
    store as the loop left it. *)
Theorem main_notifies_each_new_event (BS : string -> node) (str_of : node -> string)
        (parses : string -> bool)
        (wd : World) (inp : Inputs) (f : DataFile) :
  passes_validation inp = true ->
  let f' := after_reset wd inp f in
  let r := find_new_events BS str_of parses (w_env wd)
                           (main_scraper_of (w_variants wd) inp f') 0 f' in
  let m := main BS str_of parses wd inp f in
  attempts m = map (fun ev => (ev, send_notification wd ev)) (returned r)
  /\ notification_count m = length (List.filter (send_notification wd) (returned r))
  /\ exists s,
      main_scraper m = Some s
      /\ (forall ev, In ev (returned r) ->
                     exists i rec, id ev = Some i
                                   /\ processed_events s !! i = Some rec
                                   /\ notified rec = send_notification wd ev)
      /\ (forall i, ~ has_id i (returned r) ->
                    processed_events s !! i = processed_events (scraper_after r) !! i)
      /\ (can_write (w_env wd) = true -> returned r <> [] ->
          main_file m = JsonStore (processed_events s)).
Proof.
  intros Hv. cbv zeta. rewrite main_unfold, Hv. cbv zeta.
  cbn [attempts notification_count main_scraper main_file].
  set (f' := after_reset wd inp f).
  set (self := main_scraper_of (w_variants wd) inp f').
  destruct (returned_events_unnotified BS str_of parses (w_env wd) self 0 f')
    as (Hnd & Hrec & Hfile).
  set (r := find_new_events BS str_of parses (w_env wd) self 0 f') in *.
  destruct (notify_all_spec wd (returned r) (loop_start r) Hnd Hrec) as (Ha & Hc & Hk & Hm).
  split; [exact Ha |]. split; [exact Hc |].
  exists (n_scraper (notify_all wd (loop_start r) (returned r))).
  split; [reflexivity |]. split; [exact Hm |]. split; [exact Hk |].
  intros Hw Hne.
  assert (Hsync : n_file (loop_start r)
                  = JsonStore (processed_events (n_scraper (loop_start r)))).
  { cbn [loop_start n_file n_scraper]. rewrite (Hfile Hne).
    unfold _save_processed_events. now rewrite Hw. }
  apply (notify_all_files wd (returned r) (loop_start r)); [| exact Hw | exact Hsync].
  rewrite Hsync. cbn [_load_processed_events]. apply keeps_keys_refl.
Qed.

Lemma main_notifies_each_new_event_witness :
  map snd (attempts (main Site.parse Site.render Site.accepts Demo.world Demo.inputs NoFile))
  = [true; false]
  /\ attempts (main Site.parse Site.render Site.accepts Demo.world Demo.inputs NoFile)
     = map (fun ev => (ev, Demo.flaky_send ev))
           (returned (find_new_events Site.parse Site.render Site.accepts Site.env
                                      (main_scraper_of Demo.no_variants Demo.inputs NoFile)
                                      0 NoFile)).
Proof.
  split; [vm_compute; reflexivity |].
  exact (proj1 (main_notifies_each_new_event Site.parse Site.render Site.accepts Demo.world
                                             Demo.inputs NoFile eq_refl)).
Defined.

(** X14.  A notification that failed is not tried again: when [main] is
    run a second time on the same site with the same inputs, without
    [--reset], from the data file the first run left (which it could
    write), [send_notification] is not called at all, whatever happened to
    the notifications of the first run. *)
Theorem failed_notification_is_not_retried (BS : string -> node) (str_of : node -> string)
        (parses : string -> bool)
        (wd1 wd2 : World) (inp : Inputs) (f : DataFile) :
  in_reset inp = false ->
  can_write (w_env wd1) = true ->
  get (w_env wd2) = get (w_env wd1) ->
  w_variants wd2 = w_variants wd1 ->
  attempts (main BS str_of parses wd2 inp (main_file (main BS str_of parses wd1 inp f))) = [].
Proof.
  intros Hreset Hw Hget Hvar.
  assert (Hreset' : forall wd g, after_reset wd inp g = g)
    by (intros wd g; unfold after_reset; now rewrite Hreset).
  rewrite (main_unfold BS str_of parses wd2).
  destruct (passes_validation inp) eqn:Hv; [| reflexivity].
  cbv zeta. cbn [attempts].
  rewrite (main_unfold BS str_of parses wd1), Hv. cbv zeta. cbn [main_file].
  rewrite !Hreset', Hvar.
  set (r1 := find_new_events BS str_of parses (w_env wd1)
                             (main_scraper_of (w_variants wd1) inp f) 0 f).
  set (st1 := notify_all wd1 (loop_start r1) (returned r1)).
  assert (Hr2 : returned (find_new_events BS str_of parses (w_env wd2)
                            (main_scraper_of (w_variants wd1) inp (n_file st1))
                            0 (n_file st1)) = []).
  { unfold main_scraper_of. rewrite construct_init.
    apply (rerun_finds_nothing BS str_of parses (w_env wd1) (w_env wd2) _ f (n_file st1) 0 Hw Hget).
    rewrite <- construct_init.
    change (keeps_keys (_load_processed_events (n_file (loop_start r1)))
                       (_load_processed_events (n_file st1))).
    apply (notify_all_files wd1 (returned r1) (loop_start r1)).
    apply (file_after_keys BS str_of parses (w_env wd1) (main_scraper_of (w_variants wd1) inp f) 0 f).
    exact (keeps_keys_refl (_load_processed_events f)). }
  rewrite Hr2. reflexivity.
Qed.

Lemma failed_notification_is_not_retried_witness :
  map snd (attempts (main Site.parse Site.render Site.accepts Demo.world Demo.inputs NoFile))
  = [true; false]
  /\ attempts (main Site.parse Site.render Site.accepts Demo.later_world Demo.inputs
                    (main_file (main Site.parse Site.render Site.accepts Demo.world Demo.inputs NoFile)))
     = [].
Proof.
  split; [vm_compute; reflexivity |].
  apply (failed_notification_is_not_retried Site.parse Site.render Site.accepts Demo.world
                                            Demo.later_world Demo.inputs NoFile);
    reflexivity.
Defined.

(* ===================================================================== *)
(** * Further properties: [parse_search_terms] *)
(* ===================================================================== *)

Lemma all_chars_cons (p : ascii -> bool) (c : ascii) (s : string) :
  all_chars p (String c s) = (p c && all_chars p s)%bool.
Proof. reflexivity. Qed.

Lemma all_chars_lstrip (p : ascii -> bool) (s : string) :
  all_chars p s = true -> all_chars p (Py.lstrip s) = true.
Proof.
  induction s as [| c s IH]; [auto |]. intros H. simpl.
  destruct (Py.is_space c); [| exact H].
  rewrite all_chars_cons in H. apply andb_true_iff in H. apply IH, H.
Qed.

Lemma all_chars_rstrip (p : ascii -> bool) (s : string) :
  all_chars p s = true -> all_chars p (Py.rstrip s) = true.
Proof.
  induction s as [| c s IH]; [auto |]. intros H.
  rewrite all_chars_cons in H. apply andb_true_iff in H. destruct H as [Hc Hs].
  specialize (IH Hs). simpl. destruct (Py.rstrip s) as [| d r].
  - destruct (Py.is_space c); [reflexivity |]. rewrite all_chars_cons, Hc. reflexivity.
  - rewrite all_chars_cons, Hc. exact IH.
Qed.

Lemma rstrip_idempotent (s : string) : Py.rstrip (Py.rstrip s) = Py.rstrip s.
Proof.
  induction s as [| c s IH]; [reflexivity |]. simpl.
  destruct (Py.rstrip s) as [| d r] eqn:E.
  - destruct (Py.is_space c) eqn:Ec; [reflexivity |]. simpl. now rewrite Ec.
  - change (Py.rstrip (String c (String d r))) with
      (match Py.rstrip (String d r) with
       | EmptyString => if Py.is_space c then EmptyString else String c EmptyString
       | r' => String c r'
       end).
    now rewrite IH.
Qed.

Lemma lstrip_head (s : string) :
  match Py.lstrip s with
  | EmptyString => True
  | String c _ => Py.is_space c = false
  end.
Proof.
  induction s as [| c s IH]; [exact I |]. simpl.
  destruct (Py.is_space c) eqn:E; [exact IH | exact E].
Qed.

Lemma lstrip_rstrip_lstrip (s : string) :
  Py.lstrip (Py.rstrip (Py.lstrip s)) = Py.rstrip (Py.lstrip s).
Proof.
  pose proof (lstrip_head s) as H. destruct (Py.lstrip s) as [| c y]; [reflexivity |].
  simpl. destruct (Py.rstrip y) as [| d r]; rewrite ?H; simpl; now rewrite H.
Qed.

Lemma strip_idempotent (s : string) : Py.strip (Py.strip s) = Py.strip s.
Proof. unfold Py.strip. now rewrite lstrip_rstrip_lstrip, rstrip_idempotent. Qed.

Lemma split_no_sep (sep : ascii) (s p : string) :
  In p (Py.split sep s) -> all_chars (fun c => negb (Ascii.eqb c sep)) p = true.
Proof.
  revert p. induction s as [| c s IH]; intros p; simpl.
  - intros [<- | []]. reflexivity.
  - destruct (Ascii.eqb c sep) eqn:E.
    + intros [<- | H]; [reflexivity | now apply IH].
    + destruct (Py.split sep s) as [| h t].
      * intros [<- | []]. rewrite all_chars_cons, E. reflexivity.
      * intros [<- | H].
        -- rewrite all_chars_cons, E. apply IH. now left.
        -- apply IH. now right.
Qed.

Lemma parse_search_terms_clean (terms_str t : string) :
  In t (parse_search_terms terms_str) -> clean_term t.
Proof.
  unfold parse_search_terms. destruct (is_empty_str terms_str); [intros [] |].
  cbv zeta. intros H. apply filter_In in H. destruct H as [H Hne].
  apply in_map_iff in H. destruct H as (p & <- & Hp).
  split; [| split].
  - intros H0. rewrite H0 in Hne. discriminate.
  - apply strip_idempotent.
  - unfold no_comma, Py.strip. apply all_chars_rstrip, all_chars_lstrip.
    apply (split_no_sep _ _ _ Hp).
Qed.

(** X15.  Every term [parse_search_terms] gives is clean: it is not empty,
    has no white space at either end and contains no comma; and parsing
    the empty string or a string of commas and blanks gives no term. *)
Theorem parsed_terms_are_clean (terms_str : string) :
  Forall clean_term (parse_search_terms terms_str)
  /\ (all_chars (fun c => (Py.is_space c || Ascii.eqb c ",")%bool) terms_str = true ->
      parse_search_terms terms_str = []).
Proof.
  split.
  - apply List.Forall_forall. intros t. apply parse_search_terms_clean.
  - intros Hall.
    destruct (parse_search_terms terms_str) as [| t ts] eqn:E; [reflexivity |].
    exfalso.
    assert (Hin : In t (parse_search_terms terms_str)) by (rewrite E; now left).
    assert (Hblank : forall s p,
               all_chars (fun c => (Py.is_space c || Ascii.eqb c ",")%bool) s = true ->
               In p (Py.split "," s) -> Py.lstrip p = EmptyString).
    { clear. induction s as [| c s IH]; intros p Hs; simpl.
      - intros [<- | []]. reflexivity.
      - rewrite all_chars_cons in Hs. apply andb_true_iff in Hs. destruct Hs as [Hc Hs].
        destruct (Ascii.eqb c ",") eqn:Ec.
        + intros [<- | H]; [reflexivity | now apply IH].
        + rewrite orb_false_r in Hc.
          destruct (Py.split "," s) as [| h tl] eqn:Esp.
          * intros [<- | []]. simpl. now rewrite Hc.
          * intros [<- | H].
            -- simpl. rewrite Hc. apply IH; [exact Hs | now left].
            -- apply IH; [exact Hs | now right]. }
    assert (Hcommas : forall s,
               all_chars (fun c => (Py.is_space c || Ascii.eqb c ",")%bool) s = true ->
               all_chars (fun c => (Py.is_space c || Ascii.eqb c ",")%bool)
                         (rstrip_commas s) = true).
    { clear. induction s as [| c s IH]; [auto |]. intros Hs.
      rewrite all_chars_cons in Hs. apply andb_true_iff in Hs. destruct Hs as [Hc Hs].
      specialize (IH Hs). simpl. destruct (rstrip_commas s) as [| d r].
      - destruct (Ascii.eqb c ",") eqn:Ec; [reflexivity |].
        rewrite all_chars_cons, Ec, Hc. reflexivity.
      - rewrite all_chars_cons, Hc. exact IH. }
    unfold parse_search_terms in Hin. destruct (is_empty_str terms_str); [destruct Hin |].
    cbv zeta in Hin. apply filter_In in Hin. destruct Hin as [Hin Hne].
    apply in_map_iff in Hin. destruct Hin as (p & <- & Hp).
    unfold Py.strip in Hne. rewrite (Hblank _ p (Hcommas _ Hall) Hp) in Hne. discriminate.
Qed.

Lemma split_clean (t : string) : no_comma t = true -> Py.split "," t = [t].
Proof.
  unfold no_comma. induction t as [| c t IH]; [reflexivity |]. intros H.
  rewrite all_chars_cons in H. apply andb_true_iff in H. destruct H as [Hc Ht].
  simpl. apply negb_true_iff in Hc. rewrite Hc, (IH Ht). reflexivity.
Qed.

Lemma split_app_comma (a b : string) :
  no_comma a = true -> Py.split "," (a +:+ String "," b) = a :: Py.split "," b.
Proof.
  unfold no_comma. induction a as [| c a IH]; intros H.
  - reflexivity.
  - rewrite all_chars_cons in H. apply andb_true_iff in H. destruct H as [Hc Ha].
    apply negb_true_iff in Hc.
    change (Py.split "," (String c (a +:+ String "," b)) = String c a :: Py.split "," b).
    simpl. rewrite Hc, (IH Ha). reflexivity.
Qed.

Lemma split_nonempty (sep : ascii) (s : string) : Py.split sep s <> [].
Proof.
  destruct s as [| c s]; simpl; [discriminate |].
  destruct (Ascii.eqb c sep); [discriminate |].
  destruct (Py.split sep s); discriminate.
Qed.

Lemma strip_split_space (s : string) :
  map Py.strip (Py.split "," (String " " s)) = map Py.strip (Py.split "," s).
Proof.
  simpl. pose proof (split_nonempty "," s) as H.
  destruct (Py.split "," s) as [| h tl]; [contradiction | reflexivity].
Qed.

Lemma rstrip_commas_clean (t : string) : no_comma t = true -> rstrip_commas t = t.
Proof.
  unfold no_comma. induction t as [| c t IH]; [reflexivity |]. intros H.
  rewrite all_chars_cons in H. apply andb_true_iff in H. destruct H as [Hc Ht].
  apply negb_true_iff in Hc. simpl. rewrite (IH Ht), Hc. now destruct t.
Qed.

Lemma rstrip_commas_app (a b : string) :
  b <> EmptyString -> rstrip_commas b = b -> rstrip_commas (a +:+ b) = a +:+ b.
Proof.
  intros Hne Hb. induction a as [| c a IH]; [exact Hb |].
  change (rstrip_commas (String c (a +:+ b)) = String c (a +:+ b)).
  simpl. rewrite IH. destruct (a +:+ b) eqn:E; [| reflexivity].
  destruct a; [simpl in E; contradiction | discriminate].
Qed.

Lemma join_clean (terms : list string) :
  Forall clean_term terms -> terms <> [] ->
  join ", " terms <> EmptyString
  /\ rstrip_commas (join ", " terms) = join ", " terms
  /\ map Py.strip (Py.split "," (join ", " terms)) = terms.
Proof.
  induction terms as [| t terms IH]; intros Hall Hne; [contradiction |].
  apply Forall_cons in Hall. destruct Hall as [(Ht & Hstrip & Hcomma) Hall].
  destruct terms as [| t2 terms].
  - simpl. split; [exact Ht |]. split; [now apply rstrip_commas_clean |].
    rewrite (split_clean t Hcomma). simpl. now rewrite Hstrip.
  - destruct (IH Hall ltac:(discriminate)) as (Hj & Hr & Hs).
    change (join ", " (t :: t2 :: terms))
      with (t +:+ String "," (String " " (join ", " (t2 :: terms)))).
    split; [destruct t; [contradiction | discriminate] |]. split.
    + apply rstrip_commas_app; [discriminate |].
      apply (rstrip_commas_app ", " _ Hj Hr).
    + rewrite (split_app_comma _ _ Hcomma). cbn [map].
      rewrite strip_split_space, Hs, Hstrip. reflexivity.
Qed.

(** X16.  Round trip with the way [main] writes the terms in its log:
    a list of clean terms joined with a comma and a blank is parsed back
    to the same list; so parsing what was parsed and joined gives the
    same terms again. *)
Theorem parse_search_terms_round_trip (terms : list string) :
  Forall clean_term terms ->
  parse_search_terms (join ", " terms) = terms.
Proof.
  intros Hall. destruct terms as [| t terms]; [reflexivity |].
  destruct (join_clean (t :: terms) Hall ltac:(discriminate)) as (Hj & Hr & Hs).
  unfold parse_search_terms.
  destruct (is_empty_str (join ", " (t :: terms))) eqn:E;
    [apply is_empty_str_true in E; contradiction |].
  cbv zeta. rewrite Hr, Hs.
  apply forallb_filter_id. apply forallb_forall. intros x Hx.
  rewrite List.Forall_forall in Hall. destruct (Hall x Hx) as (Hne & _).
  destruct (is_empty_str x) eqn:Ex; [apply is_empty_str_true in Ex; contradiction |].
  reflexivity.
Qed.

Lemma parse_search_terms_round_trip_witness :
  parse_search_terms (join ", " (parse_search_terms " jazz , bal,, ,concert de jazz,,"))
  = parse_search_terms " jazz , bal,, ,concert de jazz,,".
Proof.
  apply (parse_search_terms_round_trip (parse_search_terms " jazz , bal,, ,concert de jazz,,")).
  apply List.Forall_forall. intros t. apply parse_search_terms_clean.
Defined.

(* ===================================================================== *)
(** * Further properties: [_load_term_variants] *)
(* ===================================================================== *)

Lemma dict_get_set {V : Type} (k k' : string) (v : V) (d : list (string * V)) :
  dict_get k (dict_set k' v d) = if String.eqb k k' then Some v else dict_get k d.
Proof.
  induction d as [| [k'' v''] d IH]; simpl.
  - reflexivity.
  - destruct (String.eqb_spec k' k'') as [<- | Hne]; simpl.
    + destruct (String.eqb k k'); reflexivity.
    + rewrite IH. destruct (String.eqb_spec k k'') as [-> | Hne2]; [| reflexivity].
      destruct (String.eqb_spec k'' k'); [congruence | reflexivity].
Qed.

Lemma dict_get_absent {V : Type} (k : string) (d : list (string * V)) :
  ~ In k (map fst d) -> dict_get k d = None.
Proof.
  induction d as [| [k' v'] d IH]; [reflexivity |]. simpl. intros H.
  destruct (String.eqb_spec k k') as [-> | Hne]; [exfalso; apply H; now left |].
  apply IH. intros Hin. apply H. now right.
Qed.

Lemma dict_get_update {V : Type} (k : string) (e d : list (string * V)) :
  List.NoDup (map fst e) ->
  dict_get k (dict_update d e)
  = match dict_get k e with Some v => Some v | None => dict_get k d end.
Proof.
  unfold dict_update. revert d. induction e as [| [k1 v1] e IH]; intros d Hnd.
  - reflexivity.
  - inversion Hnd as [| x l Hnot Hnd' Heq]; subst. cbn [fold_left fst snd].
    rewrite (IH _ Hnd'), dict_get_set. cbn [dict_get].
    destruct (String.eqb_spec k k1) as [-> | Hne]; [| reflexivity].
    now rewrite (dict_get_absent k1 e Hnot).
Qed.

Lemma load_term_variants_layers (venv : VariantEnv) (search_terms : list string)
      (variants_file : string) :
  _load_term_variants venv search_terms variants_file
  = let variants := _load_term_variants (file_only venv) search_terms variants_file in
    let variants :=
      match TERM_VARIANTS venv with
      | Some env_var_dict => dict_update variants env_var_dict
      | None => variants
      end in
    if (negb (is_empty_str (PRIMARY_TERM venv))
        && negb (is_empty_str (PRIMARY_TERM_VARIANTS venv)))%bool
    then dict_set (PRIMARY_TERM venv) (split_stripped (PRIMARY_TERM_VARIANTS venv)) variants
    else variants.
Proof.
  unfold _load_term_variants, file_only.
  cbn [path_exists read_json TERM_VARIANTS PRIMARY_TERM PRIMARY_TERM_VARIANTS].
  cbn [is_empty_str negb].
  destruct (is_empty_str (PRIMARY_TERM venv)),
    (is_empty_str (PRIMARY_TERM_VARIANTS venv)); reflexivity.
Qed.

(** X17.  The three sources of variants are layered: the variants of
    [PRIMARY_TERM] are those of [PRIMARY_TERM_VARIANTS] when both are set;
    any other key has the variants [TERM_VARIANTS] gives it, if it gives
    any; and only the remaining keys have the variants of the file. *)
Theorem load_term_variants_precedence (venv : VariantEnv) (search_terms : list string)
        (variants_file k : string) :
  (forall e, TERM_VARIANTS venv = Some e -> List.NoDup (map fst e)) ->
  dict_get k (_load_term_variants venv search_terms variants_file)
  = if (negb (is_empty_str (PRIMARY_TERM venv))
        && negb (is_empty_str (PRIMARY_TERM_VARIANTS venv))
        && String.eqb k (PRIMARY_TERM venv))%bool
    then Some (split_stripped (PRIMARY_TERM_VARIANTS venv))
    else
      match
        match TERM_VARIANTS venv with Some e => dict_get k e | None => None end
      with
      | Some vs => Some vs
      | None => dict_get k (_load_term_variants (file_only venv) search_terms variants_file)
      end.
Proof.
  intros Hnd. rewrite load_term_variants_layers. cbv zeta.
  set (F := _load_term_variants (file_only venv) search_terms variants_file).
  assert (Henv : dict_get k
                   match TERM_VARIANTS venv with
                   | Some env_var_dict => dict_update F env_var_dict
                   | None => F
                   end
                 = match
                     match TERM_VARIANTS venv with Some e => dict_get k e | None => None end
                   with
                   | Some vs => Some vs
                   | None => dict_get k F
                   end).
  { destruct (TERM_VARIANTS venv) as [e |]; [| reflexivity].
    apply dict_get_update. now apply Hnd. }
  destruct (negb (is_empty_str (PRIMARY_TERM venv))
            && negb (is_empty_str (PRIMARY_TERM_VARIANTS venv)))%bool; cbn [andb].
  - rewrite dict_get_set. destruct (String.eqb k (PRIMARY_TERM venv)); [reflexivity |].
    exact Henv.
  - exact Henv.
Qed.

Lemma load_term_variants_precedence_witness :
  map (fun k => dict_get k (_load_term_variants Demo.all_sources ["jazz"] "variants.json"))
      ["bal"; "musique"; "danse"]
  = [Some ["guinguette"; "musette"]; Some ["fanfare"]; Some ["valse"]].
Proof.
  assert (H : forall e, TERM_VARIANTS Demo.all_sources = Some e -> List.NoDup (map fst e)).
  { intros e [= <-]. repeat constructor; simpl; intuition discriminate. }
  cbn [map].
  rewrite !(load_term_variants_precedence Demo.all_sources ["jazz"] "variants.json" _ H).
  reflexivity.
Defined.

(* ===================================================================== *)
(** * Further properties: which variants reach the search terms *)
(* ===================================================================== *)

Lemma startswith_refl (s : string) : Py.startswith s s = true.
Proof. induction s as [| c s IH]; [reflexivity |]. simpl. now rewrite Ascii.eqb_refl. Qed.

Lemma contains_refl (s : string) : Py.contains s s = true.
Proof. destruct s; simpl; [reflexivity |]. now rewrite Ascii.eqb_refl, startswith_refl. Qed.

(** A loop whose body only appends, and which at one of its elements
    makes [P] hold, ends with [P], if appending keeps [P]. *)
Lemma fold_reaches {B : Type} (P : list string -> Prop)
      (f : list string -> B -> list string) (b0 : B) :
  (forall acc b, exists added, f acc b = acc ++ added) ->
  (forall acc added, P acc -> P (acc ++ added)) ->
  (forall acc, P (f acc b0)) ->
  forall l acc, In b0 l -> P (fold_left f l acc).
Proof.
  intros Happ Hmono Hb0.
  assert (Hkeep : forall l acc, P acc -> P (fold_left f l acc)).
  { induction l as [| b l IH]; intros acc HP; simpl; [exact HP |].
    apply IH. destruct (Happ acc b) as (added & ->). now apply Hmono. }
  induction l as [| b l IH]; intros acc Hin; [destruct Hin |].
  simpl. destruct Hin as [-> | Hin]; [apply Hkeep, Hb0 | now apply IH].
Qed.

Lemma lower_in_app (x : string) (acc added : list string) :
  In x (map Py.lower acc) -> In x (map Py.lower (acc ++ added)).
Proof. intros H. rewrite map_app. apply in_or_app. now left. Qed.

(** After the variants of a key are added, each of them is among the
    terms, at least in another case. *)
Lemma add_variants_ci_represents (acc vs : list string) (v : string) :
  In v vs -> In (Py.lower v) (map Py.lower (add_variants_ci acc vs)).
Proof.
  unfold add_variants_ci.
  assert (H : forall (N vs cur : list string),
             (forall x, In x N -> In x (map Py.lower cur)) ->
             In v vs ->
             In (Py.lower v)
                (map Py.lower
                     (fold_left
                        (fun acc variant =>
                           if Py.mem (Py.lower variant) N then acc else acc ++ [variant])
                        vs cur))).
  { clear. intros N. induction vs as [| v0 vs IH]; intros cur HN Hin; [destruct Hin |].
    simpl.
    assert (Hkeep : forall (l cur : list string) x,
               In x (map Py.lower cur) ->
               In x (map Py.lower
                         (fold_left
                            (fun acc variant =>
                               if Py.mem (Py.lower variant) N then acc else acc ++ [variant])
                            l cur))).
    { clear. induction l as [| a l IHl]; intros cur x Hx; simpl; [exact Hx |].
      apply IHl. destruct (Py.mem (Py.lower a) N); [exact Hx | now apply lower_in_app]. }
    destruct Hin as [-> | Hin].
    - apply Hkeep. destruct (Py.mem (Py.lower v) N) eqn:E.
      + apply HN. now apply mem_In.
      + rewrite map_app. apply in_or_app. right. now left.
    - apply IH; [| exact Hin]. intros x Hx.
      destruct (Py.mem (Py.lower v0) N); [now apply HN | apply lower_in_app, HN, Hx]. }
  intros Hin. apply H; [auto | exact Hin].
Qed.

Lemma add_term_variants_for_reaches (tv : list (string * list string))
      (terms : list string) (term key : string) (vs : list string) (v : string) :
  In (key, vs) tv -> Py.lower key = Py.lower term -> In v vs ->
  In (Py.lower v) (map Py.lower (add_term_variants_for tv terms term)).
Proof.
  intros Hkv Hkey Hv. unfold add_term_variants_for.
  destruct (Nat.ltb 0 (length tv) && negb (Py.mem term (map fst tv)))%bool;
    apply (fold_reaches (fun acc => In (Py.lower v) (map Py.lower acc)) _ (key, vs));
    try exact Hkv;
    try (intros acc added; apply lower_in_app).
  - intros acc kv. cbv zeta.
    match goal with |- context [if ?c then _ else _] => destruct c end.
    + destruct (add_variants_ci_appends acc (snd kv)) as (added & Ha & _). eauto.
    + exists []. now rewrite app_nil_r.
  - intros acc. cbv zeta. cbn [fst snd].
    rewrite Hkey, contains_refl. cbn [orb]. now apply add_variants_ci_represents.
  - intros acc kv. cbv zeta.
    match goal with |- context [if ?c then _ else _] => destruct c end.
    + destruct (add_variants_ci_appends acc (snd kv)) as (added & Ha & _). eauto.
    + exists []. now rewrite app_nil_r.
  - intros acc. cbv zeta. cbn [fst snd].
    rewrite Hkey, String.eqb_refl. cbn [orb]. now apply add_variants_ci_represents.
Qed.

(** X18.  When a search term equals a key of the variant map, compared
    without case, every variant of that key is among the search terms
    after [_add_term_variants], at least in another case; this holds for
    a blank variant too. *)
Theorem related_key_variants_are_added (self : EventScraper) (term key : string)
        (vs : list string) (v : string) :
  In term (search_terms self) ->
  In (key, vs) (term_variants self) ->
  Py.lower key = Py.lower term ->
  In v vs ->
  In (Py.lower v) (map Py.lower (search_terms (_add_term_variants self))).
Proof.
  intros Hterm Hkv Hkey Hv.
  assert (Hfold : In (Py.lower v)
                     (map Py.lower
                          (fold_left (add_term_variants_for (term_variants self))
                                     (search_terms self) (search_terms self)))).
  { apply (fold_reaches (fun acc => In (Py.lower v) (map Py.lower acc))
                        (add_term_variants_for (term_variants self)) term).
    - intros acc b.
      destruct (add_term_variants_for_appends (term_variants self) acc b)
        as (added & Ha & _). eauto.
    - intros acc added. apply lower_in_app.
    - intros acc. now apply (add_term_variants_for_reaches _ _ _ key vs).
    - exact Hterm. }
  unfold _add_term_variants.
  destruct (term_variants self) as [| kv0 tv]; [destruct Hkv |].
  destruct (search_terms self) as [| t ts]; [destruct Hterm |].
  exact Hfold.
Qed.

Lemma related_key_variants_are_added_witness :
  expand ["Jazz"] [("jazz", ["JAZZ"; "swing"; EmptyString])]
  = ["Jazz"; "swing"; EmptyString]
  /\ In (Py.lower "JAZZ")
        (map Py.lower (expand ["Jazz"] [("jazz", ["JAZZ"; "swing"; EmptyString])])).
Proof.
  split; [reflexivity |].
  apply (related_key_variants_are_added
           {| url := EmptyString; data_file := EmptyString; max_pages := 5;
              exact_matching := true; debug := false;
              search_terms := _normalize_search_terms ["Jazz"];
              term_variants := [("jazz", ["JAZZ"; "swing"; EmptyString])];
              processed_events := ∅ |}
           "Jazz" "jazz" ["JAZZ"; "swing"; EmptyString] "JAZZ").
  - left. reflexivity.
  - left. reflexivity.
  - reflexivity.
  - left. reflexivity.
Defined.

(* ===================================================================== *)
(** * Further properties: matching does not depend on the case of a term *)
(* ===================================================================== *)

Lemma normalize_text_via_lower (t : string) : _normalize_text t = nfkd_ascii (Py.lower t).
Proof. destruct t; reflexivity. Qed.

Lemma term_matches_lower (m1 m2 : bool) (t1 t2 nt ni : string) :
  Py.lower t1 = Py.lower t2 -> term_matches m1 t1 nt ni = term_matches m2 t2 nt ni.
Proof.
  intros H. unfold term_matches. cbv zeta.
  rewrite !normalize_text_via_lower, H. now destruct m1, m2.
Qed.

(** X19.  A fragment that gives an event with one list of search terms
    gives an event with every list that has each of these terms, written
    in any case; neither the clock, the store nor [exact_matching] plays a
    part.  So leaving out a variant that differs from a listed term in
    case only loses no event. *)
Theorem terms_up_to_case_find_no_less (BS : string -> node) (a b : EventScraper)
        (now1 now2 event_html : string) :
  (forall t, In t (search_terms a) ->
             exists t', In t' (search_terms b) /\ Py.lower t' = Py.lower t) ->
  is_Some (_process_event BS a now1 event_html) ->
  is_Some (_process_event BS b now2 event_html).
Proof.
  intros Hterms [ev Hev].
  destruct (_process_event BS b now2 event_html) as [ev' |] eqn:Hb; [eauto |].
  exfalso. apply process_event_None in Hb. cbv zeta in Hb.
  destruct (process_event_Some _ _ _ _ _ Hev) as (Ht & _ & _ & _ & _ & _ & Hm & Hhead & _).
  cbv zeta in Ht, Hm.
  destruct Hb as [Hb | Hb]; [congruence |].
  destruct (matching_terms ev) as [| t rest] eqn:Em; [discriminate |].
  assert (Hin : In t (matching_terms_of a
                        (_normalize_text
                           (title_of (Py.contains class_event_marker event_html)
                                     (BS event_html)))
                        (_normalize_text
                           (info_of (title_of (Py.contains class_event_marker event_html)
                                              (BS event_html))
                                    (Py.strip (get_text (BS event_html)))))))
    by (rewrite <- Hm; now left).
  apply matching_terms_of_In in Hin. destruct Hin as [Hin Hmatch].
  destruct (Hterms t Hin) as (t' & Hin' & Hlow).
  assert (Hin2 : In t' (matching_terms_of b
                          (_normalize_text
                             (title_of (Py.contains class_event_marker event_html)
                                       (BS event_html)))
                          (_normalize_text
                             (info_of (title_of (Py.contains class_event_marker event_html)
                                                (BS event_html))
                                      (Py.strip (get_text (BS event_html))))))).
  { apply matching_terms_of_In. split; [exact Hin' |].
    rewrite <- Hmatch. now apply term_matches_lower. }
  rewrite Hb in Hin2. destruct Hin2.
Qed.

Lemma terms_up_to_case_find_no_less_witness :
  is_Some (_process_event Site.parse (set_search_terms Site.scraper0 ["JAZZ"])
                          "2024-05-02 08:30:00" (Site.render Site.concert)).
Proof.
  apply (terms_up_to_case_find_no_less Site.parse Site.scraper0
           (set_search_terms Site.scraper0 ["JAZZ"])
           "2024-05-01 10:00:00" "2024-05-02 08:30:00" (Site.render Site.concert)).
  - intros t [<- | []]. exists "JAZZ". split; [now left | reflexivity].
  - rewrite concert_processed. eauto.
Defined.

(* ===================================================================== *)
(** * Further properties: the check of the date in [_process_event] *)
(* ===================================================================== *)

(** A greedy repetition of a character class followed by a continuation
    that fails on every string of a set [Q] fails on [Q], when [Q] is
    closed under removing a first character of the class. *)
Lemma star_cls_none {A : Type} (ic : bool) (p : ascii -> bool)
      (k : option ascii -> string -> option A) (Q : string -> Prop) :
  (forall c s, Q (String c s) -> p c = true -> Q s) ->
  (forall prev s, Q s -> k prev s = None) ->
  forall n prev s, Q s ->
    (fix star (n : nat) (prev : option ascii) (s : string) : option A :=
       match n with
       | O => k prev s
       | S n' =>
           match Re.exec ic (Re.Cls p) prev s
                   (fun p' s' =>
                      if Nat.ltb (Py.len s') (Py.len s) then star n' p' s' else None) with
           | Some x => Some x
           | None => k prev s
           end
       end) n prev s = None.
Proof.
  intros Htail Hk. induction n as [| n IH]; intros prev s HQ; [now apply Hk |].
  destruct s as [| c s]; [now apply Hk |].
  pose proof (IH (Some c) s) as IHs.
  cbn [Re.exec] in IHs |- *.
  destruct (p c) eqn:Ep; [| now apply Hk].
  destruct (Nat.ltb (Py.len s) (Py.len (String c s))); [| now apply Hk].
  rewrite (IHs (Htail c s HQ Ep)). now apply Hk.
Qed.

Lemma exec_star_cls_none {A : Type} (ic : bool) (p : ascii -> bool)
      (k : option ascii -> string -> option A) (Q : string -> Prop) :
  (forall c s, Q (String c s) -> p c = true -> Q s) ->
  (forall prev s, Q s -> k prev s = None) ->
  forall prev s, Q s -> Re.exec ic (Re.Star (Re.Cls p)) prev s k = None.
Proof.
  intros Htail Hk prev s HQ.
  exact (star_cls_none ic p k Q Htail Hk (S (Py.len s)) prev s HQ).
Qed.

Lemma exec_seq {A : Type} (ic : bool) (r1 r2 : Re.regex) (prev : option ascii)
      (s : string) (k : option ascii -> string -> option A) :
  Re.exec ic (Re.Seq r1 r2) prev s k
  = Re.exec ic r1 prev s (fun p' s' => Re.exec ic r2 p' s' k).
Proof. reflexivity. Qed.

Lemma exec_bol {A : Type} (ic : bool) (s : string)
      (k : option ascii -> string -> option A) :
  Re.exec ic Re.Bol None s k = k None s.
Proof. reflexivity. Qed.

Lemma exec_cls_cons {A : Type} (ic : bool) (p : ascii -> bool) (prev : option ascii)
      (c : ascii) (s : string) (k : option ascii -> string -> option A) :
  Re.exec ic (Re.Cls p) prev (String c s) k = if p c then k (Some c) s else None.
Proof. reflexivity. Qed.

Lemma digits_and_dots_no_match (d : string) :
  all_chars digit_dot_or_newline d = false ->
  Re.match_ false Patterns.digits_and_dots d = None.
Proof.
  intros Hbad.
  assert (Hexec : Re.match_here false Patterns.digits_and_dots None d = None);
    [| unfold Re.match_; now rewrite Hexec].
  unfold Re.match_here, Patterns.digits_and_dots. cbn [Re.seqs Re.Plus].
  rewrite exec_seq, exec_bol, !exec_seq.
  destruct d as [| c d]; [reflexivity |].
  unfold Re.Plus. rewrite exec_seq, exec_cls_cons.
  destruct (Py.is_digit c || Ascii.eqb c ".")%bool eqn:Ep; [| reflexivity].
  rewrite all_chars_cons in Hbad. unfold digit_dot_or_newline at 1 in Hbad.
  rewrite Ep in Hbad. cbn [orb andb] in Hbad.
  apply (exec_star_cls_none false (fun c => (Py.is_digit c || Ascii.eqb c ".")%bool) _
                            (fun s => all_chars digit_dot_or_newline s = false));
    [| | exact Hbad].
  - intros c' s' HQ Hc'. rewrite all_chars_cons in HQ.
    unfold digit_dot_or_newline at 1 in HQ. rewrite Hc' in HQ. exact HQ.
  - intros prev s HQ. destruct s as [| c' [| c'' s']]; [discriminate | | reflexivity].
    rewrite all_chars_cons in HQ. unfold digit_dot_or_newline at 1 in HQ.
    cbn [Re.exec].
    destruct (Ascii.eqb c' (Py.chr 10)); [| reflexivity].
    rewrite orb_true_r in HQ. discriminate.
Qed.

(** X20.  The date [_extract_date] finds in the fragment is the date of
    the event whenever it has a character other than digits, dots and
    line feeds (a letter, a slash, a dash, a blank): the search for a
    better date in the text is made only for a date of digits and dots.
    And when [_extract_date] finds nothing the date is empty. *)
Theorem date_with_other_characters_is_kept (event_html full_text : string) :
  all_chars digit_dot_or_newline (_extract_date event_html) = false
  \/ _extract_date event_html = EmptyString ->
  date_of event_html full_text = _extract_date event_html.
Proof.
  intros H. unfold date_of. cbv zeta.
  destruct (is_empty_str (_extract_date event_html)) eqn:E; [reflexivity |].
  destruct H as [H | H]; [| rewrite H in E; discriminate].
  now rewrite (digits_and_dots_no_match _ H).
Qed.

Lemma date_with_other_characters_is_kept_witness :
  date_of "Rendez-vous le 12/05/2024 au parc" "Rendez-vous en mai, le 12/05/2024 au parc"
  = "12/05/2024".
Proof.
  rewrite (date_with_other_characters_is_kept
             "Rendez-vous le 12/05/2024 au parc"
             "Rendez-vous en mai, le 12/05/2024 au parc").
  - vm_compute. reflexivity.
  - left. vm_compute. reflexivity.
Defined.
